(** * Email normalization utilities: a shallow embedding

    Source files embedded here:
    - [src/Backend/email-utils.js]            (class EmailUtils)  -> [Module Utils]
    - [src/Backend/unipile-email-service.js]  (class EmailUtils)  -> [Module Service]
    - [src/Backend/unipile-email-service.js]  (class UnipileEmailService,
      from the answer of the provider on)                         -> [Module Client]
    - [src/unnamed/part_000]  (the summary of a page of emails and the
      subject of a reply)                                         -> [Module Server]

    Strings are sequences of code units.  The development covers the code
    units 0..255 (Basic Latin and Latin-1), written [list ascii]; in that
    range [toLowerCase] is a pointwise map and the classes [\s], [\d], [\w]
    and [.] are the finite sets written out below.

    The regular expressions of the source are kept as data ([regex]) and
    run by one backtracking matcher, so that every [replace], [match] and
    [test] of the source is a call of the same name on the same pattern. *)

From Stdlib Require Import Ascii String Numbers.DecimalString.
From Stdlib Require Import Bool Arith ZArith Lia List.
Import ListNotations.
Open Scope string_scope.
Open Scope list_scope.
Open Scope nat_scope.

Set Warnings "-register-all".

(** ** Strings *)

Definition str := list ascii.

Definition lit (s : string) : str := list_ascii_of_string s.

Definition code (c : ascii) : N := N_of_ascii c.

Definition ascii_eqb (a b : ascii) : bool := Ascii.eqb a b.

Fixpoint str_eqb (a b : str) : bool :=
  match a, b with
  | [], [] => true
  | x :: a', y :: b' => ascii_eqb x y && str_eqb a' b'
  | _, _ => false
  end.

(** Character classes of ECMAScript regular expressions, on code units
    below 256.  [\s] is WhiteSpace plus LineTerminator: TAB, LF, VT, FF, CR,
    SP and NBSP. *)
Definition isSpace (c : ascii) : bool :=
  let n := code c in
  ((9 <=? n) && (n <=? 13) || (n =? 32) || (n =? 160))%N.

Definition isDigit (c : ascii) : bool :=
  let n := code c in ((48 <=? n) && (n <=? 57))%N.

Definition isUpperAZ (c : ascii) : bool :=
  let n := code c in ((65 <=? n) && (n <=? 90))%N.

Definition isLowerAZ (c : ascii) : bool :=
  let n := code c in ((97 <=? n) && (n <=? 122))%N.

(** [\w] *)
Definition isWord (c : ascii) : bool :=
  isDigit c || isUpperAZ c || isLowerAZ c || (code c =? 95)%N.

(** [.] without the [s] flag excludes the line terminators LF and CR. *)
Definition isDot (c : ascii) : bool :=
  negb ((code c =? 10) || (code c =? 13))%N.

Definition anyChar (_ : ascii) : bool := true.

Definition isNot (x : ascii) (c : ascii) : bool := negb (ascii_eqb c x).

Definition isChar (x : ascii) (c : ascii) : bool := ascii_eqb c x.

(** Canonicalize of the [i] flag (no [u] flag): the upper-case mapping of a
    code unit, unless it leaves the code unit or maps a non-ASCII unit to
    ASCII.  The result can lie above 255 (for U+00B5 and U+00FF). *)
Definition canon (c : ascii) : N :=
  let n := code c in
  if isLowerAZ c then (n - 32)%N
  else if ((224 <=? n) && (n <=? 254) && negb (n =? 247))%N then (n - 32)%N
  else if (n =? 181)%N then 924%N
  else if (n =? 255)%N then 376%N
  else n.

(** [String.prototype.toLowerCase] on code units below 256. *)
Definition lowerChar (c : ascii) : ascii :=
  let n := code c in
  if isUpperAZ c then ascii_of_N (n + 32)
  else if ((192 <=? n) && (n <=? 222) && negb (n =? 215))%N then ascii_of_N (n + 32)
  else c.

Definition toLowerCase (s : str) : str := map lowerChar s.

(** ** Regular expressions

    Every pattern of the two source files is a sequence of literals,
    repetitions of a single character class, and assertions. *)

Inductive atom : Type :=
| Lit (ci : bool) (cs : str)
    (** literal characters; [ci] is the [i] flag *)
| Rep (cls : ascii -> bool) (lo : nat) (hi : option nat) (greedy : bool)
    (** [cls{lo,hi}], greedy or lazy *)
| WordB   (** [\b] *)
| Bol     (** [^] (no [m] flag) *)
| Eol.    (** [$] (no [m] flag) *)

Definition regex := list atom.

Definition chr_match (ci : bool) (p c : ascii) : bool :=
  if ci then (canon p =? canon c)%N else ascii_eqb p c.

(** [lit_match ci cs s]: the rest of [s] after the literal [cs]. *)
Fixpoint lit_match (ci : bool) (cs s : str) : option str :=
  match cs with
  | [] => Some s
  | p :: cs' =>
      match s with
      | c :: s' => if chr_match ci p c then lit_match ci cs' s' else None
      | [] => None
      end
  end.

Definition below (hi : option nat) (n : nat) : bool :=
  match hi with
  | Some h => n <? h
  | None => true
  end.

Definition orElse {A} (a b : option A) : option A :=
  match a with
  | Some _ => a
  | None => b
  end.

Definition isWordO (c : option ascii) : bool :=
  match c with
  | Some x => isWord x
  | None => false
  end.

Section Matcher.

(** The continuation: the rest of the pattern, given the character before
    the current position and the remaining input.  A match is reported
    as the list of lengths consumed by the atoms, in pattern order. *)
Variable k : option ascii -> str -> option (list nat).

(** Backtracking over the number of repetitions: a greedy repetition
    tries one more character first, a lazy one tries the continuation
    first. *)
Fixpoint rep_match (cls : ascii -> bool) (lo : nat) (hi : option nat)
    (greedy : bool) (n : nat) (prev : option ascii) (s : str)
    : option (list nat) :=
  let stop :=
    if lo <=? n then option_map (cons n) (k prev s) else None in
  match s with
  | c :: s' =>
      if cls c && below hi n then
        if greedy
        then orElse (rep_match cls lo hi greedy (S n) (Some c) s') stop
        else orElse stop (rep_match cls lo hi greedy (S n) (Some c) s')
      else stop
  | [] => stop
  end.

Definition atom_match (a : atom) (prev : option ascii) (s : str)
    : option (list nat) :=
  match a with
  | Lit ci cs =>
      match lit_match ci cs s with
      | Some rest =>
          option_map (cons (length cs)) (k (last (map Some cs) prev) rest)
      | None => None
      end
  | Rep cls lo hi greedy => rep_match cls lo hi greedy 0 prev s
  | WordB =>
      if xorb (isWordO prev) (isWordO (hd_error s))
      then option_map (cons 0) (k prev s) else None
  | Bol =>
      match prev with
      | None => option_map (cons 0) (k prev s)
      | Some _ => None
      end
  | Eol =>
      match s with
      | [] => option_map (cons 0) (k prev s)
      | _ :: _ => None
      end
  end.

End Matcher.

(** [match_here r prev s]: match [r] at the start of [s], where [prev] is
    the character just before [s] in the whole input. *)
Fixpoint match_here (r : regex) : option ascii -> str -> option (list nat) :=
  match r with
  | [] => fun _ _ => Some []
  | a :: r' => atom_match (match_here r') a
  end.

Definition total (l : list nat) : nat := fold_right Nat.add 0 l.

(** [String.prototype.replace] with a global pattern and a replacement
    string without [$]: leftmost matches, not overlapping; [skip] counts
    the characters of the current match still to drop.  After an empty
    match the next character is copied and matching resumes behind it. *)
Fixpoint replace_from (r : regex) (rep : str) (skip : nat)
    (prev : option ascii) (s : str) : str :=
  match skip with
  | S n =>
      match s with
      | [] => []
      | c :: s' => replace_from r rep n (Some c) s'
      end
  | O =>
      match match_here r prev s with
      | Some ls =>
          rep ++
          match s with
          | [] => []
          | c :: s' =>
              match total ls with
              | O => c :: replace_from r rep 0 (Some c) s'
              | S n => replace_from r rep n (Some c) s'
              end
          end
      | None =>
          match s with
          | [] => []
          | c :: s' => c :: replace_from r rep 0 (Some c) s'
          end
      end
  end.

Definition replace (r : regex) (rep : str) (s : str) : str :=
  replace_from r rep 0 None s.

(** The first match of [r] in [s]: the offset and the atom lengths. *)
Fixpoint search_from (r : regex) (off : nat) (prev : option ascii) (s : str)
    : option (nat * list nat) :=
  match match_here r prev s with
  | Some ls => Some (off, ls)
  | None =>
      match s with
      | [] => None
      | c :: s' => search_from r (S off) (Some c) s'
      end
  end.

Definition search (r : regex) (s : str) : option (nat * list nat) :=
  search_from r 0 None s.

(** [RegExp.prototype.test] of a pattern without the [g] flag. *)
Definition test (r : regex) (s : str) : bool :=
  match search r s with
  | Some _ => true
  | None => false
  end.

(** [String.prototype.match] with a global pattern: the matched substrings,
    left to right ([[]] stands for the [null] of no match). *)
Fixpoint match_all_from (r : regex) (skip : nat) (prev : option ascii)
    (s : str) : list str :=
  match skip with
  | S n =>
      match s with
      | [] => []
      | c :: s' => match_all_from r n (Some c) s'
      end
  | O =>
      match match_here r prev s with
      | Some ls =>
          firstn (total ls) s ::
          match s with
          | [] => []
          | c :: s' => match_all_from r (pred (total ls)) (Some c) s'
          end
      | None =>
          match s with
          | [] => []
          | c :: s' => match_all_from r 0 (Some c) s'
          end
      end
  end.

Definition match_all (r : regex) (s : str) : list str :=
  match_all_from r 0 None s.

(** The substring of [s] from [off] of length [len]. *)
Definition substr (s : str) (off len : nat) : str := firstn len (skipn off s).

(** ** Other string methods *)

Fixpoint trimStart (s : str) : str :=
  match s with
  | c :: s' => if isSpace c then trimStart s' else s
  | [] => []
  end.

Fixpoint trimEnd (s : str) : str :=
  match s with
  | [] => []
  | c :: s' =>
      match trimEnd s' with
      | [] => if isSpace c then [] else [c]
      | r => c :: r
      end
  end.

Definition trim (s : str) : str := trimEnd (trimStart s).

(** [String.prototype.includes]. *)
Fixpoint includes (s pat : str) : bool :=
  match lit_match false pat s with
  | Some _ => true
  | None =>
      match s with
      | [] => false
      | _ :: s' => includes s' pat
      end
  end.

(** [s.split(sep)] for a one-character separator. *)
Fixpoint split (sep : ascii) (s : str) : list str :=
  match s with
  | [] => [[]]
  | c :: s' =>
      if ascii_eqb c sep then [] :: split sep s'
      else
        match split sep s' with
        | w :: ws => (c :: w) :: ws
        | [] => [[c]]
        end
  end.

(** [s.substring(0, n)] for an integer [n]. *)
Definition substring0 (s : str) (n : Z) : str := firstn (Z.to_nat n) s.

(** ** JavaScript values

    The values a deserialized JSON payload can hold, plus [undefined].
    [VNum z] is the integer-valued number [z] (JSON has no NaN); [VObj]
    lists an object's own properties in enumeration order, each key once. *)

Inductive value : Type :=
| VUndef
| VNull
| VBool (b : bool)
| VNum (z : Z)
| VStr (s : str)
| VArr (elems : list value)
| VObj (fields : list (str * value)).

Definition obj := list (str * value).

Inductive jstype : Type :=
| TUndefined | TObject | TBoolean | TNumber | TString.

(** [typeof v] *)
Definition typeof (v : value) : jstype :=
  match v with
  | VUndef => TUndefined
  | VNull => TObject
  | VBool _ => TBoolean
  | VNum _ => TNumber
  | VStr _ => TString
  | VArr _ => TObject
  | VObj _ => TObject
  end.

Definition isString (v : value) : bool :=
  match v with
  | VStr _ => true
  | _ => false
  end.

Definition isObject (v : value) : bool :=
  match typeof v with
  | TObject => true
  | _ => false
  end.

(** ToBoolean *)
Definition truthy (v : value) : bool :=
  match v with
  | VUndef => false
  | VNull => false
  | VBool b => b
  | VNum z => negb (z =? 0)%Z
  | VStr s => match s with [] => false | _ :: _ => true end
  | VArr _ => true
  | VObj _ => true
  end.

(** [a || b] *)
Definition jsOr (a b : value) : value := if truthy a then a else b.

(** [o.k] on the properties of an object: [undefined] when absent. *)
Fixpoint get (o : obj) (k : str) : value :=
  match o with
  | [] => VUndef
  | (k', v) :: o' => if str_eqb k' k then v else get o' k
  end.

(** [v.k] for a value that is neither [null] nor [undefined] and a name
    [k] that is neither an index nor [length]: only an object has it. *)
Definition prop (v : value) (k : str) : value :=
  match v with
  | VObj o => get o k
  | _ => VUndef
  end.

(** [Object.keys(o)] *)
Definition keys (o : obj) : list str := map fst o.

(** The string behind a value of type string. *)
Definition asStr (v : value) : str :=
  match v with
  | VStr s => s
  | _ => []
  end.

(** [v.length] for a value that is neither [null] nor [undefined]. *)
Definition lengthOf (v : value) : value :=
  match v with
  | VStr s => VNum (Z.of_nat (length s))
  | VArr l => VNum (Z.of_nat (length l))
  | VObj o => get o (lit "length")
  | _ => VUndef
  end.

(** Strict inequality [v !== s] against a string. *)
Definition notStr (v : value) (s : str) : bool :=
  match v with
  | VStr t => negb (str_eqb t s)
  | _ => true
  end.

(** ** Results of code that can throw *)

Inductive result (A : Type) : Type :=
| Ok (a : A)
| Throw (msg : str).

Arguments Ok {A} a.
Arguments Throw {A} msg.

Definition bind {A B} (r : result A) (f : A -> result B) : result B :=
  match r with
  | Ok a => f a
  | Throw m => Throw m
  end.

Notation "x <- r ;; k" := (bind r (fun x => k))
  (at level 61, r at next level, right associativity).

Definition TypeError_notAFunction : str := lit "TypeError: not a function".
Definition TypeError_nullish : str :=
  lit "TypeError: cannot read properties of null or undefined".

(** [v.m(...)] for a method [m] of [String.prototype]: the receiver of a
    call that does not throw is a string.  A JSON value of another type has
    no callable property. *)
Definition stringMethod (v : value) : result str :=
  match v with
  | VStr s => Ok s
  | VUndef => Throw TypeError_nullish
  | VNull => Throw TypeError_nullish
  | _ => Throw TypeError_notAFunction
  end.

Definition TypeError_toPrimitive : str :=
  lit "TypeError: cannot convert object to primitive value".

(** [Object.hasOwn(o, k)] *)
Definition hasOwn (o : obj) (k : str) : bool := existsb (str_eqb k) (keys o).

(** The decimal digits of an integer, with a minus sign when negative. *)
Definition decimal (z : Z) : str := lit (NilZero.string_of_int (Z.to_int z)).

(** ToString, as a template literal and [RegExp.prototype.test] apply it
    to a value.

    An object is converted by its [toString] method.  A deserialized
    object inherits [Object.prototype.toString], which gives
    [[object Object]], unless it has an own property [toString]: that
    property holds a JSON value, which is not callable, the inherited
    [valueOf] returns the object itself, and the conversion ends in a
    TypeError.  An array is converted by [join]: its elements converted
    in order, [null] and [undefined] as the empty string, with commas
    between them; the first element that throws makes the array throw.

    A number is printed by [decimal].  This is what JavaScript prints
    for a safe integer, one below 2^53 in absolute value; see
    [printable]. *)
Fixpoint toString (v : value) : result str :=
  match v with
  | VUndef => Ok (lit "undefined")
  | VNull => Ok (lit "null")
  | VBool true => Ok (lit "true")
  | VBool false => Ok (lit "false")
  | VNum z => Ok (decimal z)
  | VStr s => Ok s
  | VArr l =>
      (fix join (l : list value) : result str :=
         let elem (x : value) : result str :=
           match x with
           | VUndef => Ok []
           | VNull => Ok []
           | _ => toString x
           end in
         match l with
         | [] => Ok []
         | [x] => elem x
         | x :: r => s <- elem x ;; t <- join r ;; Ok (s ++ lit "," ++ t)
         end) l
  | VObj o =>
      if hasOwn o (lit "toString") then Throw TypeError_toPrimitive
      else Ok (lit "[object Object]")
  end.

(** What [join] takes for an element. *)
Definition elemString (x : value) : result str :=
  match x with
  | VUndef => Ok []
  | VNull => Ok []
  | _ => toString x
  end.

(** [r.test(v)]: the argument is converted to a string first. *)
Definition testValue (r : regex) (v : value) : result bool :=
  s <- toString v ;; Ok (test r s).

(** [[...new Set(l)]]: a Set keeps its elements in insertion order and
    ignores an element it already holds. *)
Definition set_add (acc : list str) (x : str) : list str :=
  if existsb (str_eqb x) acc then acc else acc ++ [x].

Definition setToList (l : list str) : list str := fold_left set_add l [].

(** [Math.ceil(n / d)] for integers [n] and [d > 0]; the division of two
    integers below 2^53 is exact enough for the ceiling to be the integer
    ceiling. *)
Definition ceilDiv (n d : Z) : Z := (- ((- n) / d))%Z.

Module Identity.
Record t : Type := mk {
  email : value;
  name : value
}.
End Identity.

Abbreviation Identity := Identity.t.

Definition unknownIdentity : Identity :=
  Identity.mk (VStr (lit "Unknown")) (VStr []).

(** The [i]-th group of a match, when every group is one atom. *)
Definition group (s : str) (m : nat * list nat) (i : nat) : str :=
  substr s (fst m + total (firstn i (snd m))) (nth i (snd m) 0).

(** ** Patterns shared by the two files *)

Definition ch (s : string) : ascii :=
  match s with
  | String c _ => c
  | EmptyString => zero
  end.

(** [/<script[^>]*>.*?<\/script>/gis] *)
Definition re_script : regex :=
  [Lit true (lit "<script"); Rep (isNot (ch ">")) 0 None true;
   Lit true (lit ">"); Rep anyChar 0 None false; Lit true (lit "</script>")].

(** [/<style[^>]*>.*?<\/style>/gis] *)
Definition re_style : regex :=
  [Lit true (lit "<style"); Rep (isNot (ch ">")) 0 None true;
   Lit true (lit ">"); Rep anyChar 0 None false; Lit true (lit "</style>")].

(** [/<[^>]+>/g] *)
Definition re_tag : regex :=
  [Lit false (lit "<"); Rep (isNot (ch ">")) 1 None true; Lit false (lit ">")].

(** A pattern that is a plain string, such as [/&amp;/g]. *)
Definition re_lit (s : string) : regex := [Lit false (lit s)].

(** [/\s+/g] *)
Definition re_spaces : regex := [Rep isSpace 1 None true].

(** [/\r?\n/g] *)
Definition re_newline : regex :=
  [Rep (isChar (ascii_of_nat 13)) 0 (Some 1) true; Lit false [ascii_of_nat 10]].

(** [/(.*?)\s*<(.+?)>/]: group 1 is atom 0, group 2 is atom 3. *)
Definition re_bracketed : regex :=
  [Rep isDot 0 None false; Rep isSpace 0 None true; Lit false (lit "<");
   Rep isDot 1 None false; Lit false (lit ">")].

Definition notSpaceAt (c : ascii) : bool :=
  negb (isSpace c || ascii_eqb c (ch "@")).

(** [/^[^\s@]+@[^\s@]+\.[^\s@]+$/] *)
Definition emailRegex : regex :=
  [Bol; Rep notSpaceAt 1 None true; Lit false (lit "@");
   Rep notSpaceAt 1 None true; Lit false (lit ".");
   Rep notSpaceAt 1 None true; Eol].

(** ** src/Backend/email-utils.js *)

Module Utils.

(** [static htmlToText(html)] *)
Definition htmlToText (html : value) : str :=
  if negb (truthy html) || negb (isString html) then []
  else
    let s := asStr html in
    let s := replace re_script [] s in
    let s := replace re_style [] s in
    let s := replace re_tag (lit " ") s in
    let s := replace (re_lit "&nbsp;") (lit " ") s in
    let s := replace (re_lit "&amp;") (lit "&") s in
    let s := replace (re_lit "&lt;") (lit "<") s in
    let s := replace (re_lit "&gt;") (lit ">") s in
    let s := replace (re_lit "&quot;") [ascii_of_nat 34] s in
    let s := replace (re_lit "&#39;") (lit "'") s in
    let s := replace (re_lit "&apos;") (lit "'") s in
    let s := replace re_spaces (lit " ") s in
    trim s.

(** [static extractSender(fromField)] *)
Definition extractSender (fromField : value) : Identity :=
  if negb (truthy fromField) then unknownIdentity
  else if isString fromField then
    let s := asStr fromField in
    match search re_bracketed s with
    | Some m =>
        {| Identity.email := VStr (trim (group s m 3));
           Identity.name := VStr (replace [Lit false [ascii_of_nat 34]] []
                           (trim (group s m 0))) |}
    | None => {| Identity.email := VStr (trim s); Identity.name := VStr [] |}
    end
  else if isObject fromField then
    {| Identity.email := jsOr (prop fromField (lit "email"))
                 (jsOr (prop fromField (lit "identifier"))
                 (jsOr (prop fromField (lit "address"))
                       (VStr (lit "Unknown"))));
       Identity.name := jsOr (prop fromField (lit "name"))
                (jsOr (prop fromField (lit "display_name"))
                (jsOr (prop fromField (lit "personal"))
                      (VStr []))) |}
  else unknownIdentity.

(** [static generatePreview(body, htmlBody, maxLength = 200)] *)
Definition selectContent (body htmlBody : value) : str :=
  if truthy body && isString body then asStr body
  else if truthy htmlBody && isString htmlBody then htmlToText htmlBody
  else [].

Definition cleanContent (content : str) : str :=
  trim (replace re_spaces (lit " ") (replace re_newline (lit " ") content)).

Definition generatePreview (body htmlBody : value) (maxLength : Z) : str :=
  let content := selectContent body htmlBody in
  match content with
  | [] => lit "No content available"
  | _ :: _ =>
      let content := cleanContent content in
      if (Z.of_nat (length content) >? maxLength)%Z
      then substring0 content maxLength ++ lit "..."
      else content
  end.

(** [/\d{6}/] *)
Definition re_sixDigits : regex := [Rep isDigit 6 (Some 6) true].

(** [static categorizeEmail(subject, sender, body)] *)
Definition categorizeEmail (subject sender body : value) : result str :=
  subjectLower <- stringMethod (jsOr subject (VStr [])) ;;
  let subjectLower := toLowerCase subjectLower in
  senderLower <- stringMethod (jsOr sender (VStr [])) ;;
  let senderLower := toLowerCase senderLower in
  bodyLower <- stringMethod (jsOr body (VStr [])) ;;
  let bodyLower := toLowerCase bodyLower in
  security <-
    (if includes subjectLower (lit "security")
        || includes subjectLower (lit "verification")
        || includes subjectLower (lit "verify")
        || includes subjectLower (lit "code")
     then Ok true
     else testValue re_sixDigits subject) ;;
  if security
  then Ok (lit "security")
  else if includes senderLower (lit "instagram")
     || includes senderLower (lit "facebook")
     || includes senderLower (lit "linkedin")
     || includes senderLower (lit "twitter")
  then Ok (lit "social")
  else if includes senderLower (lit "kalvium")
     || includes subjectLower (lit "employee")
     || includes subjectLower (lit "work")
     || includes subjectLower (lit "project")
  then Ok (lit "work")
  else if includes subjectLower (lit "update")
     || includes subjectLower (lit "launch")
     || includes subjectLower (lit "new")
     || includes subjectLower (lit "deal")
  then Ok (lit "marketing")
  else Ok (lit "general").

Record KeyInfo : Type := mkKeyInfo {
  codes : list str;
  links : list str;
  dates : list str;
  actions : list str
}.

(** [/\b\d{4,8}\b/g] *)
Definition re_codes : regex := [WordB; Rep isDigit 4 (Some 8) true; WordB].

Definition notUrlEnd (c : ascii) : bool :=
  negb (isSpace c || ascii_eqb c (ch "<") || ascii_eqb c (ch ">")
        || ascii_eqb c (ascii_of_nat 34)).

(** The URL pattern [https?:\/\/] followed by one or more characters
    other than whitespace, [<], [>] and the double quote; flag [g]. *)
Definition re_url : regex :=
  [Lit false (lit "http"); Rep (isChar (ch "s")) 0 (Some 1) true;
   Lit false (lit "://"); Rep notUrlEnd 1 None true].

Definition actionWords : list str :=
  [lit "verify"; lit "confirm"; lit "activate"; lit "login"; lit "reset";
   lit "update"].

(** [static extractKeyInfo(subject, body)].  The template literal
    converts [subject], then [body], to strings.  A [match] without a
    match is [null] and leaves the field at its initial [[]]. *)
Definition extractKeyInfo (subject body : value) : result KeyInfo :=
  subjectText <- toString subject ;;
  bodyText <- toString body ;;
  let fullText := toLowerCase (subjectText ++ lit " " ++ bodyText) in
  let codeMatches := match_all re_codes fullText in
  let codes := setToList codeMatches in
  b <- stringMethod body ;;
  let urlMatches := match_all re_url b in
  let links := setToList (firstn 3 urlMatches) in
  let actions := filter (fun action => includes fullText action) actionWords in
  Ok {| codes := codes; links := links; dates := []; actions := actions |}.

End Utils.

(** ** src/Backend/unipile-email-service.js *)

Module Service.

(** [static htmlToText(html)] *)
Definition htmlToText (html : value) : str :=
  if negb (truthy html) || negb (isString html) then []
  else
    let s := asStr html in
    let s := replace re_script [] s in
    let s := replace re_style [] s in
    let s := replace re_tag (lit " ") s in
    let s := replace (re_lit "&nbsp;") (lit " ") s in
    let s := replace (re_lit "&amp;") (lit "&") s in
    let s := replace (re_lit "&lt;") (lit "<") s in
    let s := replace (re_lit "&gt;") (lit ">") s in
    let s := replace (re_lit "&quot;") [ascii_of_nat 34] s in
    let s := replace (re_lit "&#39;") (lit "'") s in
    let s := replace (re_lit "&apos;") (lit "'") s in
    let s := replace (re_lit "&#x27;") (lit "'") s in
    let s := replace (re_lit "&#x2F;") (lit "/") s in
    let s := replace (re_lit "&#x60;") (lit "`") s in
    let s := replace (re_lit "&#x3D;") (lit "=") s in
    let s := replace re_spaces (lit " ") s in
    let s := replace re_newline (lit " ") s in
    trim s.

(** [static extractSender(attendeeObj)] *)
Definition extractSender (attendeeObj : value) : Identity :=
  if negb (truthy attendeeObj) then unknownIdentity
  else if isObject attendeeObj then
    let email :=
      jsOr (prop attendeeObj (lit "email"))
        (jsOr (prop attendeeObj (lit "identifier"))
        (jsOr (prop attendeeObj (lit "address"))
        (jsOr (prop attendeeObj (lit "mail"))
              (VStr (lit "Unknown"))))) in
    let name :=
      jsOr (prop attendeeObj (lit "name"))
        (jsOr (prop attendeeObj (lit "display_name"))
        (jsOr (prop attendeeObj (lit "displayName"))
        (jsOr (prop attendeeObj (lit "personal"))
        (jsOr (prop attendeeObj (lit "full_name"))
        (jsOr (prop attendeeObj (lit "fullName"))
              (VStr [])))))) in
    {| Identity.email := email; Identity.name := name |}
  else if isString attendeeObj then
    let s := asStr attendeeObj in
    match search re_bracketed s with
    | Some emailInBrackets =>
        {| Identity.email := VStr (trim (group s emailInBrackets 3));
           Identity.name := VStr (replace [Lit false [ascii_of_nat 34]] []
                           (trim (group s emailInBrackets 0))) |}
    | None =>
        if test emailRegex (trim s)
        then {| Identity.email := VStr (trim s); Identity.name := VStr [] |}
        else {| Identity.email := VStr (lit "Unknown"); Identity.name := VStr (trim s) |}
    end
  else unknownIdentity.

(** [static extractRecipients(attendeesArray)] *)
Definition extractRecipients (attendeesArray : value) : list Identity :=
  match attendeesArray with
  | VArr l => map extractSender l
  | _ => []
  end.

(** [static generatePreview(body, plainBody, maxLength = 200)] *)
Definition selectContent (body plainBody : value) : str :=
  if truthy plainBody && isString plainBody
     && (10 <? length (asStr plainBody))
  then asStr plainBody
  else if truthy body && isString body then htmlToText body
  else [].

Definition cleanContent (content : str) : str :=
  trim (replace re_spaces (lit " ") (replace re_newline (lit " ") content)).

Definition generatePreview (body plainBody : value) (maxLength : Z) : str :=
  let content := selectContent body plainBody in
  match content with
  | [] => lit "No content available"
  | _ :: _ =>
      let content := cleanContent content in
      if (Z.of_nat (length content) >? maxLength)%Z
      then substring0 content maxLength ++ lit "..."
      else
        match content with
        | [] => lit "Empty message"
        | _ :: _ => content
        end
  end.

Record Debug : Type := mkDebug {
  originalFromAttendee : value;
  availableFields : list str;
  senderExtractionSuccess : bool
}.

Record NormalizedEmail : Type := mkNormalizedEmail {
  id : value;
  subject : value;
  date : value;
  hasAttachments : value;
  isRead : bool;
  messageId : value;
  threadId : value;
  providerId : value;
  from : value;
  fromName : value;
  sender : Identity;
  to : list Identity;
  cc : list Identity;
  bcc : list Identity;
  replyTo : list Identity;
  preview : str;
  plainTextBody : value;
  htmlBody : value;
  contentLength : value;
  folders : value;
  folderIds : value;
  wordCount : Z;
  estimatedReadTime : Z;
  emailType : value;
  origin : value;
  role : value;
  attachments : value;
  _debug : Debug
}.

(** [plainTextBody.split(' ').filter(word => word.length > 0).length] *)
Definition countWords (plainTextBody : value) : result Z :=
  s <- stringMethod plainTextBody ;;
  Ok (Z.of_nat
        (length (filter (fun word => 0 <? length word) (split (ch " ") s)))).

(** [static processEmail(email)] for an object [email]; the fields of
    the result are evaluated in the order of the object literal. *)
Definition processEmail (email : obj) : result NormalizedEmail :=
  let sender := extractSender (get email (lit "from_attendee")) in
  let toRecipients :=
    extractRecipients (jsOr (get email (lit "to_attendees")) (VArr [])) in
  let ccRecipients :=
    extractRecipients (jsOr (get email (lit "cc_attendees")) (VArr [])) in
  let bccRecipients :=
    extractRecipients (jsOr (get email (lit "bcc_attendees")) (VArr [])) in
  let replyToRecipients :=
    extractRecipients
      (jsOr (get email (lit "reply_to_attendees")) (VArr [])) in
  let htmlContent := jsOr (get email (lit "body")) (VStr []) in
  let plainTextBody :=
    jsOr (get email (lit "body_plain")) (VStr (htmlToText htmlContent)) in
  let preview := generatePreview htmlContent plainTextBody 200 in
  wordCount <- countWords plainTextBody ;;
  words <- countWords plainTextBody ;;
  Ok {|
    id := get email (lit "id");
    subject := jsOr (get email (lit "subject")) (VStr (lit "No Subject"));
    date := get email (lit "date");
    hasAttachments := jsOr (get email (lit "has_attachments")) (VBool false);
    isRead := if truthy (get email (lit "read_date")) then true else false;
    messageId := get email (lit "message_id");
    threadId := get email (lit "thread_id");
    providerId := get email (lit "provider_id");
    from := Identity.email sender;
    fromName := Identity.name sender;
    sender := sender;
    to := toRecipients;
    cc := ccRecipients;
    bcc := bccRecipients;
    replyTo := replyToRecipients;
    preview := preview;
    plainTextBody := plainTextBody;
    htmlBody := htmlContent;
    contentLength := lengthOf plainTextBody;
    folders := jsOr (get email (lit "folders")) (VArr []);
    folderIds := jsOr (get email (lit "folderIds")) (VArr []);
    wordCount := wordCount;
    estimatedReadTime := Z.max 1 (ceilDiv words 200);
    emailType := get email (lit "type");
    origin := get email (lit "origin");
    role := get email (lit "role");
    attachments := jsOr (get email (lit "attachments")) (VArr []);
    _debug := {|
      originalFromAttendee := get email (lit "from_attendee");
      availableFields := keys email;
      senderExtractionSuccess := notStr (Identity.email sender) (lit "Unknown")
    |}
  |}.

End Service.

(** ** src/Backend/unipile-email-service.js, class UnipileEmailService

    The methods wait for an answer of the provider and then work on its
    [response.data]; the embedding starts there and takes that value as an
    argument.  An error thrown inside a method is caught and thrown again
    with the prefix of that method. *)

Fixpoint mapM {A B} (f : A -> result B) (l : list A) : result (list B) :=
  match l with
  | [] => Ok []
  | x :: r => y <- f x ;; ys <- mapM f r ;; Ok (y :: ys)
  end.

Fixpoint filterM {A} (f : A -> result bool) (l : list A) : result (list A) :=
  match l with
  | [] => Ok []
  | x :: r =>
      keep <- f x ;; ys <- filterM f r ;; Ok (if keep then x :: ys else ys)
  end.

(** [try { ... } catch (error) { throw new Error(prefix + error.message) }]
    for an error without a [response]. *)
Definition rethrow {A} (prefix : string) (r : result A) : result A :=
  match r with
  | Ok a => Ok a
  | Throw msg => Throw (lit prefix ++ msg)
  end.

(** [Array.isArray(v)] *)
Definition isArray (v : value) : bool :=
  match v with
  | VArr _ => true
  | _ => false
  end.

(** The elements of an array. *)
Definition elems (v : value) : list value :=
  match v with
  | VArr l => l
  | _ => []
  end.

(** [v.length] of an array. *)
Definition arrayLength (l : list value) : value := VNum (Z.of_nat (length l)).

(** [Object.entries(v)] as far as an entry can be an array: the entries of
    a string are characters, numbers and booleans have none. *)
Definition entries (v : value) : obj :=
  match v with
  | VObj o => o
  | _ => []
  end.

(** The decimal index keys ["0"], ["1"], ... of a string or an array. *)
Definition indexKeys (n : nat) : list str :=
  map (fun i => lit (NilZero.string_of_uint (Nat.to_uint i))) (seq 0 n).

Module Client.

(** [EmailUtils.processEmail(email)] for an element of a response: the
    access [email.id] throws for [null] and [undefined]; a string, an
    array, a number or a boolean has none of the fields read, and
    [Object.keys] lists the indices of a string or an array. *)
Definition withAvailableFields (ks : list str) (n : Service.NormalizedEmail)
    : Service.NormalizedEmail :=
  {| Service.id := Service.id n;
     Service.subject := Service.subject n;
     Service.date := Service.date n;
     Service.hasAttachments := Service.hasAttachments n;
     Service.isRead := Service.isRead n;
     Service.messageId := Service.messageId n;
     Service.threadId := Service.threadId n;
     Service.providerId := Service.providerId n;
     Service.from := Service.from n;
     Service.fromName := Service.fromName n;
     Service.sender := Service.sender n;
     Service.to := Service.to n;
     Service.cc := Service.cc n;
     Service.bcc := Service.bcc n;
     Service.replyTo := Service.replyTo n;
     Service.preview := Service.preview n;
     Service.plainTextBody := Service.plainTextBody n;
     Service.htmlBody := Service.htmlBody n;
     Service.contentLength := Service.contentLength n;
     Service.folders := Service.folders n;
     Service.folderIds := Service.folderIds n;
     Service.wordCount := Service.wordCount n;
     Service.estimatedReadTime := Service.estimatedReadTime n;
     Service.emailType := Service.emailType n;
     Service.origin := Service.origin n;
     Service.role := Service.role n;
     Service.attachments := Service.attachments n;
     Service._debug :=
       {| Service.originalFromAttendee :=
            Service.originalFromAttendee (Service._debug n);
          Service.availableFields := ks;
          Service.senderExtractionSuccess :=
            Service.senderExtractionSuccess (Service._debug n) |} |}.

Definition processEmail (email : value) : result Service.NormalizedEmail :=
  match email with
  | VObj o => Service.processEmail o
  | VUndef => Throw TypeError_nullish
  | VNull => Throw TypeError_nullish
  | VStr s =>
      n <- Service.processEmail [] ;;
      Ok (withAvailableFields (indexKeys (length s)) n)
  | VArr l =>
      n <- Service.processEmail [] ;;
      Ok (withAvailableFields (indexKeys (length l)) n)
  | VBool _ => Service.processEmail []
  | VNum _ => Service.processEmail []
  end.

Module EmailPage.
Record pagination : Type := mkPagination {
  limit : value;
  offset : value;
  hasMore : value
}.
Record t : Type := mk {
  success : bool;
  emails : list Service.NormalizedEmail;
  total : value;
  page : pagination
}.
End EmailPage.

(** The first entry that is an array:
    [for (const [key, value] of Object.entries(...)) if (Array.isArray(value)) { ...; break; }] *)
Fixpoint firstArray (es : obj) : option (list value) :=
  match es with
  | [] => None
  | (_, VArr l) :: _ => Some l
  | _ :: es' => firstArray es'
  end.

(** [emails], [total] and [hasMore] as [getAllEmails] reads them off
    [response.data]; [None] is the early return of an empty page. *)
Definition selectEmails (data : value)
    : option (list value * value * value) :=
  if truthy data && truthy (prop data (lit "items"))
     && isArray (prop data (lit "items"))
  then
    let emails := elems (prop data (lit "items")) in
    Some (emails,
          jsOr (prop data (lit "total")) (arrayLength emails),
          jsOr (prop data (lit "has_more")) (VBool false))
  else if isArray data then
    Some (elems data, arrayLength (elems data), VBool false)
  else if truthy data && truthy (prop data (lit "data"))
          && isArray (prop data (lit "data"))
  then
    let emails := elems (prop data (lit "data")) in
    Some (emails,
          jsOr (prop data (lit "total")) (arrayLength emails),
          jsOr (prop data (lit "has_more")) (VBool false))
  else
    match firstArray (entries (jsOr data (VObj []))) with
    | Some (x :: l) => Some (x :: l, arrayLength (x :: l), VBool false)
    | _ => None
    end.

(** [async getAllEmails(accountId, options = {})] from the answer on:
    [options] gives [params.limit] and [params.offset]. *)
Definition getAllEmails (options : obj) (data : value) : result EmailPage.t :=
  let limit := jsOr (get options (lit "limit")) (VNum 50) in
  let offset := jsOr (get options (lit "offset")) (VNum 0) in
  rethrow "Failed to fetch emails: "
    match selectEmails data with
    | None =>
        Ok {| EmailPage.success := true;
              EmailPage.emails := [];
              EmailPage.total := VNum 0;
              EmailPage.page :=
                {| EmailPage.limit := limit; EmailPage.offset := offset;
                   EmailPage.hasMore := VBool false |} |}
    | Some (emails, total, hasMore) =>
        processedEmails <- mapM processEmail emails ;;
        Ok {| EmailPage.success := true;
              EmailPage.emails := processedEmails;
              EmailPage.total := total;
              EmailPage.page :=
                {| EmailPage.limit := limit; EmailPage.offset := offset;
                   EmailPage.hasMore := hasMore |} |}
    end.

(** [async getEmailById(emailId, accountId)] from the answer on: the
    [email] of the object it returns. *)
Definition getEmailById (data : value) : result Service.NormalizedEmail :=
  rethrow "Failed to fetch email: " (processEmail data).

(** [const formatRecipients = (recipients) => ...] of [sendEmail] *)
Definition recipientObject (identifier display_name : value) : value :=
  VObj [(lit "identifier", identifier); (lit "display_name", display_name)].

Definition formatRecipient (recipient : value) : result value :=
  if isString recipient then Ok (recipientObject recipient (VStr []))
  else if isObject recipient then
    match recipient with
    | VNull => Throw TypeError_nullish
    | _ =>
        Ok (recipientObject
              (jsOr (prop recipient (lit "email"))
                    (prop recipient (lit "identifier")))
              (jsOr (prop recipient (lit "name"))
                    (jsOr (prop recipient (lit "display_name")) (VStr []))))
    end
  else Ok (recipientObject recipient (VStr [])).

Definition formatRecipients (recipients : value) : result (list value) :=
  if isString recipients then Ok [recipientObject recipients (VStr [])]
  else
    match recipients with
    | VArr l => mapM formatRecipient l
    | _ => Ok [recipientObject recipients (VStr [])]
    end.

(** [...(v && { key: formatRecipients(v) })] *)
Definition spreadRecipients (key : string) (v : value) (data : obj)
    : result obj :=
  if truthy v
  then r <- formatRecipients v ;; Ok (data ++ [(lit key, VArr r)])
  else Ok data.

(** The [emailData] that [sendEmail] posts. *)
Definition emailData (accountId to subject body : value) (options : obj)
    : result obj :=
  rethrow "Failed to send email: "
    (toList <- formatRecipients to ;;
     let data :=
       [(lit "account_id", accountId); (lit "to", VArr toList);
        (lit "subject", subject); (lit "body", body)] in
     data <- spreadRecipients "cc" (get options (lit "cc")) data ;;
     data <- spreadRecipients "bcc" (get options (lit "bcc")) data ;;
     spreadRecipients "reply_to" (get options (lit "replyTo")) data).

Module AccountPage.
Record account : Type := mkAccount {
  id : value;
  provider : value;
  email : value;
  name : value;
  status : value;
  createdAt : value
}.
Record t : Type := mk {
  success : bool;
  accounts : list account;
  total : value
}.
End AccountPage.

Definition emailProviders : list str :=
  [lit "gmail"; lit "outlook"; lit "yahoo"; lit "imap"; lit "microsoft";
   lit "google"; lit "email"].

(** [account.provider?.toLowerCase() || ''] *)
Definition providerOf (account : value) : result str :=
  match account with
  | VUndef => Throw TypeError_nullish
  | VNull => Throw TypeError_nullish
  | _ =>
      match prop account (lit "provider") with
      | VUndef => Ok []
      | VNull => Ok []
      | VStr s => Ok (toLowerCase s)
      | _ => Throw TypeError_notAFunction
      end
  end.

(** The callback of [accounts.filter]. *)
Definition isEmailAccount (account : value) : result bool :=
  provider <- providerOf account ;;
  Ok (existsb (str_eqb provider) emailProviders).

(** The callback of [emailAccounts.map]; [now] is
    [new Date().toISOString()]. *)
Definition accountEntry (now : str) (account : value) : AccountPage.account :=
  {| AccountPage.id := prop account (lit "id");
     AccountPage.provider := prop account (lit "provider");
     AccountPage.email :=
       jsOr (prop account (lit "identifier"))
         (jsOr (prop account (lit "email")) (prop account (lit "username")));
     AccountPage.name :=
       jsOr (prop account (lit "name"))
         (jsOr (prop account (lit "display_name")) (VStr (lit "Unknown")));
     AccountPage.status :=
       jsOr (prop account (lit "status")) (VStr (lit "unknown"));
     AccountPage.createdAt :=
       jsOr (prop account (lit "created_at"))
         (jsOr (prop account (lit "createdAt")) (VStr now)) |}.

(** The [accounts] that [getEmailAccounts] reads off [response.data];
    [None] is the early return of an empty list. *)
Definition selectAccounts (data : value) : option (list value) :=
  if isArray data then Some (elems data)
  else if truthy data && truthy (prop data (lit "data"))
          && isArray (prop data (lit "data"))
  then Some (elems (prop data (lit "data")))
  else if truthy data && truthy (prop data (lit "accounts"))
          && isArray (prop data (lit "accounts"))
  then Some (elems (prop data (lit "accounts")))
  else None.

(** [async getEmailAccounts()] from the answer on. *)
Definition getEmailAccounts (now : str) (data : value)
    : result AccountPage.t :=
  rethrow "Failed to fetch email accounts: "
    match selectAccounts data with
    | None =>
        Ok {| AccountPage.success := true; AccountPage.accounts := [];
              AccountPage.total := VNum 0 |}
    | Some accounts =>
        emailAccounts <- filterM isEmailAccount accounts ;;
        Ok {| AccountPage.success := true;
              AccountPage.accounts := map (accountEntry now) emailAccounts;
              AccountPage.total := arrayLength emailAccounts |}
    end.

End Client.

(** ** The server file (src/unnamed/part_000) *)

Module Server.

Record Summary : Type := mkSummary {
  total : Z;
  unread : Z;
  totalWordCount : Z;
  averageReadTime : Z
}.

(** The [summary] of [GET /api/emails/:accountId].  The quotient of an
    empty page is [NaN], and [NaN || 0] is [0]. *)
Definition summary (emails : list Service.NormalizedEmail) : Summary :=
  {| total := Z.of_nat (length emails);
     unread :=
       Z.of_nat (length (filter (fun e => negb (Service.isRead e)) emails));
     totalWordCount :=
       fold_left (fun sum e => (sum + Service.wordCount e)%Z) emails 0%Z;
     averageReadTime :=
       match emails with
       | [] => 0%Z
       | _ :: _ =>
           ceilDiv
             (fold_left (fun sum e => (sum + Service.estimatedReadTime e)%Z)
                emails 0%Z)
             (Z.of_nat (length emails))
       end |}.

(** [s.startsWith(p)] *)
Definition startsWith (s p : str) : bool :=
  match lit_match false p s with
  | Some _ => true
  | None => false
  end.

(** [replySubject] of [POST /api/emails/:accountId/reply/:emailId] *)
Definition replySubject (subject : value) : result str :=
  s <- stringMethod subject ;;
  Ok (if startsWith s (lit "Re: ") then s else lit "Re: " ++ s).

End Server.

(** * Definitions used by the statements *)

(** [hasChar c s]: the character [c] occurs in [s]. *)
Definition hasChar (c : ascii) (s : str) : bool := existsb (ascii_eqb c) s.

(** No character of [s] can start a match of a literal beginning with [c]. *)
Definition clean (ci : bool) (c : ascii) (s : str) : bool :=
  forallb (fun x => negb (chr_match ci c x)) s.

(** The character before the position reached after reading [a]. *)
Definition lastOf (prev : option ascii) (a : str) : option ascii :=
  fold_left (fun _ c => Some c) a prev.

(** The length of the leading run of whitespace. *)
Fixpoint leading (s : str) : nat :=
  match s with
  | c :: s' => if isSpace c then S (leading s') else 0
  | [] => 0
  end.

(** What [replace(/\s+/g, ' ')] computes: a run of whitespace becomes one
    space.  [inRun] tells that the run has started already. *)
Fixpoint squeeze (inRun : bool) (s : str) : str :=
  match s with
  | [] => []
  | c :: s' =>
      if isSpace c
      then if inRun then squeeze true s' else ch " " :: squeeze true s'
      else c :: squeeze false s'
  end.

(** [tidy]: every whitespace character is a single space between two other
    characters or at an end. *)
Fixpoint tidy (afterSpace : bool) (s : str) : bool :=
  match s with
  | [] => true
  | c :: s' =>
      if isSpace c
      then negb afterSpace && ascii_eqb c (ch " ") && tidy true s'
      else tidy false s'
  end.

(** [startsSolid s]: [s] does not begin with whitespace. *)
Definition startsSolid (s : str) : bool :=
  match s with
  | c :: _ => negb (isSpace c)
  | [] => true
  end.

Definition LF : ascii := ascii_of_nat 10.
Definition CR : ascii := ascii_of_nat 13.

(** The first ten replacements, which the two files share: script and
    style blocks, tags, and the entities from [&nbsp;] to [&apos;]. *)
Definition decodeCommon (s : str) : str :=
  let s := replace re_script [] s in
  let s := replace re_style [] s in
  let s := replace re_tag (lit " ") s in
  let s := replace (re_lit "&nbsp;") (lit " ") s in
  let s := replace (re_lit "&amp;") (lit "&") s in
  let s := replace (re_lit "&lt;") (lit "<") s in
  let s := replace (re_lit "&gt;") (lit ">") s in
  let s := replace (re_lit "&quot;") [ascii_of_nat 34] s in
  let s := replace (re_lit "&#39;") (lit "'") s in
  replace (re_lit "&apos;") (lit "'") s.

(** The four replacements only unipile-email-service.js has. *)
Definition decodeHex (s : str) : str :=
  let s := replace (re_lit "&#x27;") (lit "'") s in
  let s := replace (re_lit "&#x2F;") (lit "/") s in
  let s := replace (re_lit "&#x60;") (lit "`") s in
  replace (re_lit "&#x3D;") (lit "=") s.

Definition chAmp : ascii := ch "&".
Definition chLt : ascii := ch "<".

(** [solid e]: no character of [e] is whitespace. *)
Definition solid (e : str) : bool := forallb (fun c => negb (isSpace c)) e.

(** The bracket and quote entities without their ampersand, and what each
    decodes to. *)
Definition bracketQuoteEntities : list (str * str) :=
  [(lit "lt;", lit "<"); (lit "gt;", lit ">");
   (lit "quot;", [ascii_of_nat 34]); (lit "#39;", lit "'");
   (lit "apos;", lit "'")].


(** The two implementations of the decoder. *)
Definition htmlToText_impls : list (value -> str) :=
  [Utils.htmlToText; Service.htmlToText].

Definition previewBound (content result : str) (maxLength : Z) : Prop :=
  (Z.of_nat (length result) <= maxLength + 3)%Z
  /\ ((Z.of_nat (length result) = maxLength + 3)%Z
      <-> (Z.of_nat (length content) > maxLength)%Z).

(** The plain text [processEmail] works on. *)
Definition plainTextOf (email : obj) : value :=
  jsOr (get email (lit "body_plain"))
       (VStr (Service.htmlToText (jsOr (get email (lit "body")) (VStr [])))).

(** [body_plain] is absent, falsy or a string. *)
Definition plainBodySane (email : obj) : Prop :=
  truthy (get email (lit "body_plain")) = false
  \/ isString (get email (lit "body_plain")) = true.

Definition nonEmptyWord (word : str) : bool := 0 <? length word.

(** The number of non-empty tokens of [s] between separator characters:
    the number of places where a token starts. *)
Fixpoint countTokens (sep : ascii -> bool) (inToken : bool) (s : str) : nat :=
  match s with
  | [] => 0
  | c :: s' =>
      if sep c then countTokens sep false s'
      else (if inToken then 0 else 1) + countTokens sep true s'
  end.

Definition tabbedRecord : obj :=
  [(lit "body_plain",
    VStr (lit "one" ++ [ascii_of_nat 9] ++ lit "two" ++ [ascii_of_nat 10]
          ++ lit "three four"))].

Definition readRecord : obj :=
  [(lit "read_date", VStr (lit "2024-01-01T00:00:00Z"))].

(** Keeping the first occurrence of every element. *)
Fixpoint dedup (l : list str) : list str :=
  match l with
  | [] => []
  | x :: r => x :: filter (fun y => negb (str_eqb y x)) (dedup r)
  end.

Definition notIn (acc : list str) (y : str) : bool :=
  negb (existsb (str_eqb y) acc).

Definition fourUrls : str :=
  lit "see http://a.co then http://a.co then http://b.co and http://c.co".

Definition containsAny (s : str) (words : list string) : bool :=
  existsb (fun w => includes s (lit w)) words.

(** The text a string method sees behind [(v || '')]. *)
Definition textOf (v : value) : str := asStr (jsOr v (VStr [])).

(** [v] is a string or falsy. *)
Definition stringOrFalsy (v : value) : Prop :=
  truthy v = false \/ isString v = true.

(** [printable v]: ToString(v) returns, and returns what [toString]
    gives.  Among [v] and, when [v] is an array, the elements it is joined
    from, no object has an own property [toString] and every number is a
    safe integer. *)
Fixpoint printable (v : value) : bool :=
  match v with
  | VNum z => (Z.abs z <? 2 ^ 53)%Z
  | VArr l => forallb printable l
  | VObj o => negb (hasOwn o (lit "toString"))
  | _ => true
  end.

(** The rules of the categorizer in their order: label and condition. *)
Definition categoryRules (subject sender : str) : list (str * bool) :=
  [(lit "security",
    containsAny (toLowerCase subject)
      ["security"; "verification"; "verify"; "code"]
    || test Utils.re_sixDigits subject);
   (lit "social",
    containsAny (toLowerCase sender)
      ["instagram"; "facebook"; "linkedin"; "twitter"]);
   (lit "work",
    includes (toLowerCase sender) (lit "kalvium")
    || containsAny (toLowerCase subject) ["employee"; "work"; "project"]);
   (lit "marketing",
    containsAny (toLowerCase subject) ["update"; "launch"; "new"; "deal"])].

(** The label of the first rule whose condition holds. *)
Fixpoint firstMatch (rules : list (str * bool)) (default : str) : str :=
  match rules with
  | [] => default
  | (label, cond) :: rest => if cond then label else firstMatch rest default
  end.

(** [dead k s]: the continuation [k] fails at every position of [s]. *)
Fixpoint dead (k : option ascii -> str -> option (list nat)) (s : str) : Prop :=
  (forall prev, k prev s = None)
  /\ match s with
     | [] => True
     | _ :: s' => dead k s'
     end.

Definition chAt : ascii := ch "@".

(** ** Definitions used by the further properties *)

(** [sound k]: a match reported by [k] does not run past the input. *)
Definition sound (k : option ascii -> str -> option (list nat)) : Prop :=
  forall prev s ls, k prev s = Some ls -> total ls <= length s.

(** What [extractKeyInfo] can list as a code: four to eight digits. *)
Definition isCode (x : str) : Prop :=
  4 <= length x /\ length x <= 8 /\ forallb isDigit x = true.

(** What [extractKeyInfo] can list as a link: [http://] or [https://]
    followed by at least one character, none of them whitespace, [<], [>]
    or a double quote. *)
Definition isLink (x : str) : Prop :=
  forallb Utils.notUrlEnd x = true
  /\ exists rest,
       rest <> []
       /\ (x = lit "http://" ++ rest \/ x = lit "https://" ++ rest).

(** [shrinking r rep]: no match of [r] is shorter than the replacement. *)
Definition shrinking (r : regex) (rep : str) : Prop :=
  forall prev s ls, match_here r prev s = Some ls -> length rep <= total ls.

(** The HTML body [processEmail] works on. *)
Definition htmlContentOf (email : obj) : value :=
  jsOr (get email (lit "body")) (VStr []).

(** A preview of already clean text: the text itself up to 200
    characters, else its first 200 characters and an ellipsis. *)
Definition previewOfClean (d : str) : str :=
  match d with
  | [] => lit "No content available"
  | _ :: _ => if length d <=? 200 then d else firstn 200 d ++ lit "..."
  end.

(** [deadRun k cls s]: [k] fails at [s] and at every position reached from
    [s] through characters of the class [cls]. *)
Fixpoint deadRun (k : option ascii -> str -> option (list nat))
    (cls : ascii -> bool) (s : str) : Prop :=
  (forall prev, k prev s = None)
  /\ match s with
     | c :: s' => if cls c then deadRun k cls s' else True
     | [] => True
     end.

Definition chGt : ascii := ch ">".
Definition chQuote : ascii := ascii_of_nat 34.

(** A display name as it stands before a bracketed address: one line
    without [<] and double quotes, without whitespace at its ends. *)
Definition displayName (name : str) : Prop :=
  forallb isDot name = true
  /\ hasChar chLt name = false
  /\ hasChar chQuote name = false
  /\ startsSolid name = true
  /\ trimEnd name = name.

(** An address as it stands between the brackets: not empty, without
    whitespace and [>]. *)
Definition mailbox (addr : str) : Prop :=
  addr <> [] /\ solid addr = true /\ hasChar chGt addr = false.

(** A part of a single address: not empty, without whitespace, [@] and
    [<]. *)
Definition addressPart (p : str) : Prop :=
  p <> [] /\ forallb notSpaceAt p = true /\ hasChar chLt p = false.

(** The two implementations of the identity extractor. *)
Definition extractSender_impls : list (value -> Identity) :=
  [Utils.extractSender; Service.extractSender].

(** The attendee keys only unipile-email-service.js reads are absent or
    falsy. *)
Definition serviceKeysFalsy (v : value) : Prop :=
  truthy (prop v (lit "mail")) = false
  /\ truthy (prop v (lit "displayName")) = false
  /\ truthy (prop v (lit "full_name")) = false
  /\ truthy (prop v (lit "fullName")) = false.

(** The labels of the categorizer. *)
Definition categoryLabels : list str :=
  [lit "security"; lit "social"; lit "work"; lit "marketing"; lit "general"].

(** [processable e]: an element of a response that [processEmail] takes:
    not [null] or [undefined], and as an object one whose [body_plain] is
    absent, falsy or a string. *)
Definition processable (e : value) : Prop :=
  match e with
  | VUndef => False
  | VNull => False
  | VObj o => plainBodySane o
  | _ => True
  end.

(** The page [getAllEmails] returns when it finds no emails. *)
Definition emptyPage (options : obj) : Client.EmailPage.t :=
  {| Client.EmailPage.success := true;
     Client.EmailPage.emails := [];
     Client.EmailPage.total := VNum 0;
     Client.EmailPage.page :=
       {| Client.EmailPage.limit := jsOr (get options (lit "limit")) (VNum 50);
          Client.EmailPage.offset :=
            jsOr (get options (lit "offset")) (VNum 0);
          Client.EmailPage.hasMore := VBool false |} |}.

(** The keys [sendEmail] can post. *)
Definition emailDataKeys : list str :=
  [lit "account_id"; lit "to"; lit "subject"; lit "body"; lit "cc";
   lit "bcc"; lit "reply_to"].

(** What [getEmailAccounts] lists: an account of an email provider, with
    a name and a status. *)
Definition listedAccount (a : Client.AccountPage.account) : Prop :=
  (exists p,
     Client.AccountPage.provider a = VStr p
     /\ In (toLowerCase p) Client.emailProviders)
  /\ truthy (Client.AccountPage.name a) = true
  /\ truthy (Client.AccountPage.status a) = true.

(** A recipient as [sendEmail] formats it: an identifier and a display
    name that is truthy or the empty string. *)
Definition formatted (f : value) : Prop :=
  exists i d,
    f = Client.recipientObject i d /\ (truthy d = true \/ d = VStr []).

(** The identity a formatted recipient stands for. *)
Definition readBack (f : value) : Identity :=
  {| Identity.email := prop f (lit "identifier");
     Identity.name := prop f (lit "display_name") |}.

(** * Properties *)

(** ** Characters and string equality *)

Lemma ascii_eqb_eq (a b : ascii) : ascii_eqb a b = true <-> a = b.
Proof. unfold ascii_eqb. apply Ascii.eqb_eq. Qed.

Lemma ascii_eqb_refl (a : ascii) : ascii_eqb a a = true.
Proof. apply ascii_eqb_eq. reflexivity. Qed.

Lemma str_eqb_eq (a b : str) : str_eqb a b = true <-> a = b.
Proof.
  revert b. induction a as [|x a IH]; intros [|y b]; simpl; split; intro H;
    try reflexivity; try discriminate.
  - apply andb_true_iff in H. destruct H as [Hx Hr].
    apply ascii_eqb_eq in Hx. apply IH in Hr. subst. reflexivity.
  - injection H as -> ->. rewrite ascii_eqb_refl. simpl. apply IH. reflexivity.
Qed.

Lemma str_eqb_refl (a : str) : str_eqb a a = true.
Proof. apply str_eqb_eq. reflexivity. Qed.

(** Under the [i] flag the character [<] still matches only itself. *)
Lemma chr_match_lt (x : ascii) :
  chr_match true (ch "<") x = ascii_eqb (ch "<") x.
Proof.
  destruct x as [[] [] [] [] [] [] [] []]; reflexivity.
Qed.

(** ** Patterns that start with a literal character *)

Lemma hasChar_app c a b : hasChar c (a ++ b) = hasChar c a || hasChar c b.
Proof. unfold hasChar. apply existsb_app. Qed.

Lemma hasChar_clean c s : hasChar c s = false -> clean false c s = true.
Proof.
  unfold hasChar, clean.
  induction s as [|x s IH]; cbn [existsb forallb]; intro H; [reflexivity|].
  apply orb_false_iff in H. destruct H as [Hx Hs].
  unfold chr_match. rewrite Hx. cbn [negb andb]. apply IH. exact Hs.
Qed.

Lemma hasChar_lt_clean ci s :
  hasChar (ch "<") s = false -> clean ci (ch "<") s = true.
Proof.
  destruct ci; [|apply hasChar_clean].
  unfold hasChar, clean.
  induction s as [|x s IH]; cbn [existsb forallb]; intro H; [reflexivity|].
  apply orb_false_iff in H. destruct H as [Hx Hs].
  rewrite chr_match_lt, Hx. cbn [negb andb]. apply IH. exact Hs.
Qed.

Section LiteralHead.

Variables (ci : bool) (c : ascii) (cs : str) (r : regex) (rep : str).

Let R : regex := Lit ci (c :: cs) :: r.

Lemma match_here_head_miss prev x s :
  chr_match ci c x = false -> match_here R prev (x :: s) = None.
Proof. intro H. simpl. rewrite H. reflexivity. Qed.

(** A pattern whose first character does not occur leaves the string
    alone. *)
Lemma replace_from_clean s :
  clean ci c s = true -> forall prev, replace_from R rep 0 prev s = s.
Proof.
  induction s as [|x s IH]; intros H prev; [reflexivity|].
  unfold clean in H. cbn [forallb] in H. fold (clean ci c s) in H.
  apply andb_true_iff in H. destruct H as [Hx Hs].
  apply negb_true_iff in Hx.
  change (replace_from R rep 0 prev (x :: s))
    with (match match_here R prev (x :: s) with
          | Some ls =>
              rep ++
              match total ls with
              | O => x :: replace_from R rep 0 (Some x) s
              | S n => replace_from R rep n (Some x) s
              end
          | None => x :: replace_from R rep 0 (Some x) s
          end).
  rewrite (match_here_head_miss prev x s Hx). f_equal. apply IH. exact Hs.
Qed.

(** ... and a prefix without that character is copied. *)
Lemma replace_from_clean_app a :
  clean ci c a = true ->
  forall prev x,
    replace_from R rep 0 prev (a ++ x)
    = a ++ replace_from R rep 0 (lastOf prev a) x.
Proof.
  induction a as [|y a IH]; intros H prev x; [reflexivity|].
  unfold clean in H. cbn [forallb] in H. fold (clean ci c a) in H.
  apply andb_true_iff in H. destruct H as [Hy Ha].
  apply negb_true_iff in Hy.
  change (replace_from R rep 0 prev ((y :: a) ++ x))
    with (match match_here R prev (y :: a ++ x) with
          | Some ls =>
              rep ++
              match total ls with
              | O => y :: replace_from R rep 0 (Some y) (a ++ x)
              | S n => replace_from R rep n (Some y) (a ++ x)
              end
          | None => y :: replace_from R rep 0 (Some y) (a ++ x)
          end).
  rewrite (match_here_head_miss prev y (a ++ x) Hy). cbn [app lastOf fold_left].
  f_equal. apply IH. exact Ha.
Qed.

End LiteralHead.

Lemma replace_clean ci c cs r rep s :
  clean ci c s = true -> replace (Lit ci (c :: cs) :: r) rep s = s.
Proof. intro H. unfold replace. apply replace_from_clean. exact H. Qed.

(** ** Whitespace: [/\s+/g], [/\r?\n/g] and [trim] *)

Lemma replace_from_cons r rep prev c s :
  replace_from r rep 0 prev (c :: s)
  = match match_here r prev (c :: s) with
    | Some ls =>
        rep ++
        match total ls with
        | O => c :: replace_from r rep 0 (Some c) s
        | S n => replace_from r rep n (Some c) s
        end
    | None => c :: replace_from r rep 0 (Some c) s
    end.
Proof. reflexivity. Qed.

Lemma replace_from_skip r rep n prev c s :
  replace_from r rep (S n) prev (c :: s) = replace_from r rep n (Some c) s.
Proof. reflexivity. Qed.

(** [\s+] at a position consumes the whole run, and needs one character. *)
Lemma rep_match_spaces s :
  forall n prev,
    rep_match (fun _ _ => Some []) isSpace 1 None true n prev s
    = if n + leading s =? 0 then None else Some [n + leading s].
Proof.
  induction s as [|c s IH]; intros n prev.
  - cbn [rep_match leading]. rewrite Nat.add_0_r.
    destruct n; reflexivity.
  - cbn [rep_match leading below]. rewrite andb_true_r.
    destruct (isSpace c).
    + rewrite IH. rewrite Nat.add_succ_r. reflexivity.
    + rewrite Nat.add_0_r. destruct n; reflexivity.
Qed.

Lemma match_here_spaces prev s :
  match_here re_spaces prev s
  = if leading s =? 0 then None else Some [leading s].
Proof.
  unfold re_spaces. cbn [match_here atom_match].
  apply (rep_match_spaces s 0 prev).
Qed.

Lemma replace_spaces_squeeze s :
  forall prev,
    replace_from re_spaces (lit " ") 0 prev s = squeeze false s
    /\ replace_from re_spaces (lit " ") (leading s) prev s = squeeze true s.
Proof.
  induction s as [|c s IH]; intro prev.
  - split; reflexivity.
  - cbn [leading squeeze]. destruct (isSpace c) eqn:E.
    + rewrite replace_from_cons, match_here_spaces, replace_from_skip.
      cbn [leading]. rewrite E.
      cbn [Nat.eqb total fold_right]. rewrite Nat.add_0_r.
      destruct (IH (Some c)) as [_ H2]. rewrite H2. split; reflexivity.
    + rewrite replace_from_cons, match_here_spaces.
      cbn [leading]. rewrite E. cbn [Nat.eqb].
      destruct (IH (Some c)) as [H1 _]. rewrite H1. split; reflexivity.
Qed.

Lemma replace_spaces s : replace re_spaces (lit " ") s = squeeze false s.
Proof. unfold replace. apply replace_spaces_squeeze. Qed.

Lemma tidy_squeeze s : forall b, tidy b (squeeze b s) = true.
Proof.
  induction s as [|c s IH]; intro b; [reflexivity|].
  cbn [squeeze]. destruct (isSpace c) eqn:E.
  - destruct b; [apply IH|]. cbn [tidy]. rewrite IH. reflexivity.
  - cbn [tidy]. rewrite E. apply IH.
Qed.

Lemma tidy_weaken s : forall b, tidy b s = true -> tidy false s = true.
Proof.
  destruct s as [|c s]; intros b H; [reflexivity|].
  cbn [tidy] in *. destruct (isSpace c); [|exact H].
  destruct b; [discriminate|exact H].
Qed.

Lemma tidy_trimStart s : forall b, tidy b s = true -> tidy false (trimStart s) = true.
Proof.
  induction s as [|c s IH]; intros b H; [reflexivity|].
  apply tidy_weaken in H. cbn [trimStart]. cbn [tidy] in H.
  destruct (isSpace c) eqn:E.
  - apply andb_true_iff in H. destruct H as [_ H]. apply (IH true H).
  - cbn [tidy]. rewrite E. exact H.
Qed.

Lemma trimEnd_solid c s :
  isSpace c = false -> trimEnd (c :: s) = c :: trimEnd s.
Proof.
  intro H. cbn [trimEnd]. rewrite H. destruct (trimEnd s); reflexivity.
Qed.

Lemma tidy_trimEnd s : forall b, tidy b s = true -> tidy b (trimEnd s) = true.
Proof.
  induction s as [|c s IH]; intros b H; [reflexivity|].
  cbn [tidy] in H. destruct (isSpace c) eqn:E.
  - apply andb_true_iff in H. destruct H as [H1 H2].
    cbn [trimEnd]. rewrite E. specialize (IH true H2).
    destruct (trimEnd s) as [|y t]; [reflexivity|].
    cbn [tidy] in *. rewrite E, H1. exact IH.
  - rewrite trimEnd_solid by exact E. cbn [tidy]. rewrite E.
    apply IH. exact H.
Qed.

Lemma squeeze_tidy s : forall b, tidy b s = true -> squeeze b s = s.
Proof.
  induction s as [|c s IH]; intros b H; [reflexivity|].
  cbn [tidy] in H. cbn [squeeze]. destruct (isSpace c).
  - apply andb_true_iff in H. destruct H as [H1 H2].
    apply andb_true_iff in H1. destruct H1 as [Hb Hc].
    apply negb_true_iff in Hb. subst b.
    apply ascii_eqb_eq in Hc. subst c. rewrite (IH true H2). reflexivity.
  - rewrite (IH false H). reflexivity.
Qed.

Lemma startsSolid_trimStart s : startsSolid (trimStart s) = true.
Proof.
  induction s as [|c s IH]; [reflexivity|].
  cbn [trimStart]. destruct (isSpace c) eqn:E; [exact IH|].
  cbn [startsSolid]. rewrite E. reflexivity.
Qed.

Lemma startsSolid_trimEnd s :
  startsSolid s = true -> startsSolid (trimEnd s) = true.
Proof.
  destruct s as [|c s]; intro H; [reflexivity|].
  cbn [startsSolid] in H. apply negb_true_iff in H.
  rewrite trimEnd_solid by exact H. cbn [startsSolid]. rewrite H. reflexivity.
Qed.

Lemma trimStart_startsSolid s : startsSolid s = true -> trimStart s = s.
Proof.
  destruct s as [|c s]; intro H; [reflexivity|].
  cbn [startsSolid] in H. apply negb_true_iff in H.
  cbn [trimStart]. rewrite H. reflexivity.
Qed.

Lemma trimEnd_idem s : trimEnd (trimEnd s) = trimEnd s.
Proof.
  induction s as [|c s IH]; [reflexivity|].
  cbn [trimEnd]. destruct (trimEnd s) as [|y t] eqn:E.
  - destruct (isSpace c) eqn:Ec; [reflexivity|].
    cbn [trimEnd]. rewrite Ec. reflexivity.
  - change (trimEnd (c :: y :: t))
      with (match trimEnd (y :: t) with
            | [] => if isSpace c then [] else [c]
            | r => c :: r
            end).
    rewrite IH. reflexivity.
Qed.

Lemma trim_idem s : trim (trim s) = trim s.
Proof.
  unfold trim.
  rewrite (trimStart_startsSolid (trimEnd (trimStart s))).
  - apply trimEnd_idem.
  - apply startsSolid_trimEnd, startsSolid_trimStart.
Qed.

Lemma tidy_trim s b : tidy b s = true -> tidy false (trim s) = true.
Proof.
  intro H. unfold trim. apply tidy_trimEnd. apply (tidy_trimStart _ _ H).
Qed.

Lemma tidy_noLF s : forall b, tidy b s = true -> hasChar LF s = false.
Proof.
  induction s as [|c s IH]; intros b H; [reflexivity|].
  unfold hasChar. cbn [existsb]. fold (hasChar LF s).
  cbn [tidy] in H. destruct (isSpace c) eqn:E.
  - apply andb_true_iff in H. destruct H as [H1 H2].
    apply andb_true_iff in H1. destruct H1 as [_ Hc].
    apply ascii_eqb_eq in Hc. subst c. rewrite (IH true H2). reflexivity.
  - rewrite (IH false H).
    destruct (ascii_eqb LF c) eqn:Ec; [|reflexivity].
    apply ascii_eqb_eq in Ec. subst c. discriminate.
Qed.

(** [\r?\n] needs a line feed among the first two characters. *)
Lemma match_here_newline prev s :
  hasChar LF s = false -> match_here re_newline prev s = None.
Proof.
  intro H. unfold re_newline. fold LF. fold CR.
  cbn [match_here atom_match].
  destruct s as [|c [|d s]].
  - reflexivity.
  - unfold hasChar in H. cbn [existsb] in H.
    apply orb_false_iff in H. destruct H as [Hc _].
    cbn [rep_match below Nat.ltb Nat.leb]. unfold atom_match.
    cbn [lit_match chr_match].
    rewrite Hc. destruct (isChar CR c); reflexivity.
  - unfold hasChar in H. cbn [existsb] in H.
    apply orb_false_iff in H. destruct H as [Hc H].
    apply orb_false_iff in H. destruct H as [Hd _].
    cbn [rep_match below Nat.ltb Nat.leb]. unfold atom_match.
    cbn [lit_match chr_match].
    rewrite Hc, Hd, andb_false_r. destruct (isChar CR c); reflexivity.
Qed.

Lemma replace_newline_noLF rep s :
  hasChar LF s = false ->
  forall prev, replace_from re_newline rep 0 prev s = s.
Proof.
  induction s as [|c s IH]; intros H prev.
  - reflexivity.
  - rewrite replace_from_cons, match_here_newline by exact H.
    unfold hasChar in H. cbn [existsb] in H.
    apply orb_false_iff in H. destruct H as [_ H].
    rewrite (IH H). reflexivity.
Qed.

(** ** The shape of [htmlToText] *)

Lemma Utils_htmlToText_str s :
  Utils.htmlToText (VStr s) = trim (squeeze false (decodeCommon s)).
Proof.
  destruct s as [|c s]; [reflexivity|].
  unfold Utils.htmlToText, decodeCommon.
  cbn [truthy isString negb orb asStr].
  rewrite replace_spaces. reflexivity.
Qed.

Lemma Service_htmlToText_str s :
  Service.htmlToText (VStr s)
  = trim (squeeze false (decodeHex (decodeCommon s))).
Proof.
  destruct s as [|c s]; [reflexivity|].
  unfold Service.htmlToText, decodeHex, decodeCommon.
  cbn [truthy isString negb orb asStr].
  rewrite replace_spaces.
  unfold replace at 1.
  rewrite replace_newline_noLF; [reflexivity|].
  apply (tidy_noLF _ false), tidy_squeeze.
Qed.

Lemma decodeCommon_plain t :
  hasChar chLt t = false -> hasChar chAmp t = false -> decodeCommon t = t.
Proof.
  intros Hlt Hamp. unfold decodeCommon, re_script, re_style, re_tag, re_lit.
  pose proof (hasChar_lt_clean true _ Hlt) as Ht.
  pose proof (hasChar_lt_clean false _ Hlt) as Hf.
  pose proof (hasChar_clean _ _ Hamp) as Ha.
  cbn [lit list_ascii_of_string].
  repeat (rewrite (replace_clean _ _ _ _ _ t) by assumption).
  reflexivity.
Qed.

Lemma decodeHex_plain t : hasChar chAmp t = false -> decodeHex t = t.
Proof.
  intro Hamp. unfold decodeHex, re_lit.
  pose proof (hasChar_clean _ _ Hamp) as Ha.
  cbn [lit list_ascii_of_string].
  repeat (rewrite (replace_clean _ _ _ _ _ t) by assumption).
  reflexivity.
Qed.

(** Text that is already decoded and normalized is a fixed point. *)
Lemma htmlToText_fixed t :
  tidy false t = true -> trim t = t ->
  hasChar chLt t = false -> hasChar chAmp t = false ->
  Utils.htmlToText (VStr t) = t /\ Service.htmlToText (VStr t) = t.
Proof.
  intros Ht Htrim Hlt Hamp.
  rewrite Utils_htmlToText_str, Service_htmlToText_str.
  rewrite (decodeCommon_plain _ Hlt Hamp), (decodeHex_plain _ Hamp).
  rewrite (squeeze_tidy _ _ Ht). split; exact Htrim.
Qed.

Lemma htmlToText_normal s :
  let u := Utils.htmlToText (VStr s) in
  let v := Service.htmlToText (VStr s) in
  (tidy false u = true /\ trim u = u) /\ (tidy false v = true /\ trim v = v).
Proof.
  cbv zeta. rewrite Utils_htmlToText_str, Service_htmlToText_str.
  repeat split;
    try apply trim_idem;
    apply (tidy_trim _ false), tidy_squeeze.
Qed.

(** ** Substrings survive whitespace normalization *)


Lemma lit_match_head c e x s :
  lit_match false (c :: e) (x :: s) <> None -> x = c.
Proof.
  cbn [lit_match chr_match]. destruct (ascii_eqb c x) eqn:E; [|congruence].
  intros _. apply ascii_eqb_eq in E. congruence.
Qed.



Section SolidSubstring.

Variables (c : ascii) (e : str).
Hypothesis Hsolid : solid (c :: e) = true.

Let Hc : isSpace c = false.
Proof.
  unfold solid in Hsolid. cbn [forallb] in Hsolid.
  apply andb_true_iff in Hsolid. destruct Hsolid as [H _].
  apply negb_true_iff in H. exact H.
Qed.





End SolidSubstring.


(** ** Entities behind an escaped ampersand *)

Ltac decode_step a b Ca Cb :=
  rewrite (replace_from_clean_app _ _ _ _ _ a Ca); cbn;
  rewrite (replace_from_clean _ _ _ _ _ b Cb).

Lemma decode_escaped_entity e d a b :
  In (e, d) bracketQuoteEntities ->
  hasChar chLt a = false -> hasChar chAmp a = false ->
  hasChar chLt b = false -> hasChar chAmp b = false ->
  decodeCommon (a ++ lit "&amp;" ++ e ++ b) = a ++ d ++ b
  /\ decodeHex (a ++ d ++ b) = a ++ d ++ b.
Proof.
  intros Hin Hla Haa Hlb Hab.
  pose proof (hasChar_clean _ _ Haa) as Ca.
  pose proof (hasChar_clean _ _ Hab) as Cb.
  assert (Hl : hasChar chLt (a ++ lit "&amp;" ++ e ++ b) = false).
  { rewrite !hasChar_app, Hla, Hlb.
    cbn [In bracketQuoteEntities] in Hin.
    repeat (destruct Hin as [Hin|Hin]; [injection Hin as <- <-; reflexivity|]).
    destruct Hin. }
  pose proof (hasChar_lt_clean true _ Hl) as Ht.
  pose proof (hasChar_lt_clean false _ Hl) as Hf.
  unfold decodeCommon, decodeHex, re_script, re_style, re_tag, re_lit.
  cbn [lit list_ascii_of_string] in *.
  repeat (rewrite (replace_clean _ _ _ _ _ (a ++ _)) by assumption).
  unfold replace.
  cbn [In bracketQuoteEntities] in Hin.
  repeat (destruct Hin as [Hin|Hin];
    [injection Hin as <- <-; split; repeat decode_step a b Ca Cb; reflexivity|]).
  destruct Hin.
Qed.

(** ** Patterns whose continuation cannot match *)

Section DeadContinuation.

Variable k : option ascii -> str -> option (list nat).

Lemma dead_here s : dead k s -> forall prev, k prev s = None.
Proof. destruct s; intros [H _]; exact H. Qed.

Lemma rep_match_dead cls lo hi greedy s :
  dead k s -> forall n prev, rep_match k cls lo hi greedy n prev s = None.
Proof.
  induction s as [|c s IH]; intros Hd n prev.
  - cbn [rep_match]. rewrite (dead_here _ Hd). destruct (lo <=? n); reflexivity.
  - cbn [rep_match]. rewrite (dead_here _ Hd).
    destruct Hd as [_ Hd]. rewrite (IH Hd).
    destruct (lo <=? n), (cls c && below hi n), greedy; reflexivity.
Qed.

Lemma dead_rep cls lo hi greedy s :
  dead k s -> dead (atom_match k (Rep cls lo hi greedy)) s.
Proof.
  induction s as [|c s IH]; intro Hd.
  - split; [|exact I]. intro prev. apply rep_match_dead. exact Hd.
  - split.
    + intro prev. apply rep_match_dead. exact Hd.
    + apply IH. destruct Hd as [_ Hd]. exact Hd.
Qed.

End DeadContinuation.

Lemma dead_literal c cs r s :
  hasChar c s = false -> dead (match_here (Lit false (c :: cs) :: r)) s.
Proof.
  induction s as [|x s IH]; intro H.
  - split; [|exact I]. intro prev. reflexivity.
  - unfold hasChar in H. cbn [existsb] in H.
    apply orb_false_iff in H. destruct H as [Hx Hs].
    split; [|apply IH; exact Hs].
    intro prev. apply match_here_head_miss. exact Hx.
Qed.

Lemma search_from_dead r s :
  dead (match_here r) s -> forall off prev, search_from r off prev s = None.
Proof.
  induction s as [|c s IH]; intros Hd off prev.
  - cbn [search_from]. rewrite (dead_here _ _ Hd). reflexivity.
  - cbn [search_from]. rewrite (dead_here _ _ Hd).
    destruct Hd as [_ Hd]. apply IH. exact Hd.
Qed.

Lemma dead_bol k s : dead k s -> dead (atom_match k Bol) s.
Proof.
  induction s as [|c s IH]; intro Hd.
  - split; [|exact I]. intros [p|]; cbn [atom_match]; [reflexivity|].
    rewrite (dead_here _ _ Hd). reflexivity.
  - split.
    + intros [p|]; cbn [atom_match]; [reflexivity|].
      rewrite (dead_here _ _ Hd). reflexivity.
    + apply IH. destruct Hd as [_ Hd]. exact Hd.
Qed.

(** A string without [<] does not match the bracketed pattern. *)
Lemma search_bracketed_none s :
  hasChar chLt s = false -> search re_bracketed s = None.
Proof.
  intro H. unfold search. apply search_from_dead.
  change (match_here re_bracketed)
    with (atom_match
            (atom_match
               (match_here
                  [Lit false (lit "<"); Rep isDot 1 None false;
                   Lit false (lit ">")])
               (Rep isSpace 0 None true))
            (Rep isDot 0 None false)).
  apply dead_rep, dead_rep.
  exact (dead_literal chLt [] _ s H).
Qed.

(** A string without [@] is not a single address. *)
Lemma test_emailRegex_none s :
  hasChar chAt s = false -> test emailRegex s = false.
Proof.
  intro H. unfold test, search. rewrite search_from_dead; [reflexivity|].
  change (match_here emailRegex)
    with (atom_match
            (atom_match
               (match_here
                  [Lit false (lit "@"); Rep notSpaceAt 1 None true;
                   Lit false (lit "."); Rep notSpaceAt 1 None true; Eol])
               (Rep notSpaceAt 1 None true))
            Bol).
  apply dead_bol, dead_rep.
  exact (dead_literal chAt [] _ s H).
Qed.

Lemma hasChar_trimStart c s :
  hasChar c s = false -> hasChar c (trimStart s) = false.
Proof.
  induction s as [|x s IH]; intro H; [reflexivity|].
  cbn [trimStart]. destruct (isSpace x); [|exact H].
  apply IH. unfold hasChar in H. cbn [existsb] in H.
  apply orb_false_iff in H. apply H.
Qed.

Lemma hasChar_trimEnd c s :
  hasChar c s = false -> hasChar c (trimEnd s) = false.
Proof.
  induction s as [|x s IH]; intro H; [reflexivity|].
  unfold hasChar in H. cbn [existsb] in H.
  apply orb_false_iff in H. destruct H as [Hx Hs]. specialize (IH Hs).
  cbn [trimEnd]. destruct (trimEnd s) as [|y t].
  - destruct (isSpace x); [reflexivity|].
    unfold hasChar. cbn [existsb]. rewrite Hx. reflexivity.
  - unfold hasChar in *. cbn [existsb] in *. rewrite Hx. exact IH.
Qed.

Lemma hasChar_trim c s : hasChar c s = false -> hasChar c (trim s) = false.
Proof. intro H. apply hasChar_trimEnd, hasChar_trimStart, H. Qed.

Lemma lit_match_map f p :
  forall s, lit_match false p s <> None ->
            lit_match false (map f p) (map f s) <> None.
Proof.
  induction p as [|c p IH]; intros s H; [discriminate|].
  destruct s as [|x s]; [exact H|].
  pose proof (lit_match_head _ _ _ _ H) as ->.
  cbn [map lit_match chr_match] in *. rewrite ascii_eqb_refl in *.
  apply IH. exact H.
Qed.

Lemma includes_map f s p :
  includes s p = true -> includes (map f s) (map f p) = true.
Proof.
  induction s as [|x s IH]; intro H; cbn [includes] in H.
  - destruct (lit_match false p []) eqn:E; [|discriminate].
    assert (Hm : lit_match false (map f p) (map f []) <> None)
      by (apply lit_match_map; congruence).
    cbn [map includes] in *.
    destruct (lit_match false (map f p) []); [reflexivity|congruence].
  - destruct (lit_match false p (x :: s)) eqn:E.
    + assert (Hm : lit_match false (map f p) (map f (x :: s)) <> None)
        by (apply lit_match_map; congruence).
      cbn [map includes] in *.
      destruct (lit_match false (map f p) (f x :: map f s));
        [reflexivity|congruence].
    + cbn [map includes].
      destruct (lit_match false (map f p) (f x :: map f s)); [reflexivity|].
      apply IH. exact H.
Qed.

(** A subject that contains a lower-case word contains it in any case. *)
Lemma includes_toLowerCase s w :
  toLowerCase w = w -> includes s w = true ->
  includes (toLowerCase s) w = true.
Proof.
  intros Hw H. rewrite <- Hw. apply includes_map. exact H.
Qed.

(** * The claims *)

(** The order of the replacements in general.  [htmlToText] decodes
    [&amp;] right after [&nbsp;] and before the bracket and quote entities,
    so the ampersand it produces is decoded again: between texts [a] and
    [b] free of [<] and [&], the input [&amp;lt;] comes out as the character
    [<], and likewise [&amp;gt;], [&amp;quot;], [&amp;#39;] and [&amp;apos;]
    come out as the decoded character, in both implementations; the rest is
    whitespace normalization. *)
Theorem htmlToText_decodes_amp_first :
  forall f e d a b,
    In f htmlToText_impls ->
    In (e, d) bracketQuoteEntities ->
    hasChar chLt a = false -> hasChar chAmp a = false ->
    hasChar chLt b = false -> hasChar chAmp b = false ->
    f (VStr (a ++ lit "&amp;" ++ e ++ b))
    = trim (replace re_spaces (lit " ") (a ++ d ++ b)).
Proof.
  intros f e d a b Hf Hin Hla Haa Hlb Hab.
  destruct (decode_escaped_entity e d a b Hin Hla Haa Hlb Hab) as [H1 H2].
  rewrite replace_spaces.
  destruct Hf as [<-|[<-|[]]].
  - rewrite Utils_htmlToText_str, H1. reflexivity.
  - rewrite Service_htmlToText_str, H1, H2. reflexivity.
Qed.

Lemma htmlToText_decodes_amp_first_witness :
  In Service.htmlToText htmlToText_impls
  /\ In (lit "lt;", lit "<") bracketQuoteEntities
  /\ hasChar chLt (lit "1 ") = false /\ hasChar chAmp (lit "1 ") = false
  /\ hasChar chLt (lit " 2") = false /\ hasChar chAmp (lit " 2") = false
  /\ Service.htmlToText (VStr (lit "1 " ++ lit "&amp;" ++ lit "lt;" ++ lit " 2"))
     = trim (replace re_spaces (lit " ") (lit "1 " ++ lit "<" ++ lit " 2")).
Proof.
  assert (Hf : In Service.htmlToText htmlToText_impls)
    by (right; left; reflexivity).
  assert (He : In (lit "lt;", lit "<") bracketQuoteEntities)
    by (left; reflexivity).
  repeat (split; [first [assumption | reflexivity]|]).
  apply (htmlToText_decodes_amp_first Service.htmlToText (lit "lt;") (lit "<")
           (lit "1 ") (lit " 2") Hf He);
    reflexivity.
Defined.

(** C2 (a defect of the code).  [htmlToText] unescapes [&amp;lt;] twice:
    the HTML text [&amp;lt;] stands for the four characters [&lt;], and
    both files return the single character [<] for it. *)
Theorem htmlToText_double_unescapes :
  Utils.htmlToText (VStr (lit "&amp;lt;")) = lit "<"
  /\ Service.htmlToText (VStr (lit "&amp;lt;")) = lit "<"
  /\ Utils.htmlToText (VStr (lit "&amp;lt;")) <> lit "&lt;"
  /\ Service.htmlToText (VStr (lit "&amp;lt;")) <> lit "&lt;".
Proof.
  repeat split; try reflexivity; vm_compute; discriminate.
Qed.

(** C3 (as amended).  In both implementations [htmlToText] is idempotent
    at every string whose decoded text contains neither [<] nor [&]. *)
Theorem htmlToText_idempotent_on_plain_text :
  forall f s,
    In f htmlToText_impls ->
    hasChar chLt (f (VStr s)) = false ->
    hasChar chAmp (f (VStr s)) = false ->
    f (VStr (f (VStr s))) = f (VStr s).
Proof.
  intros f s Hf Hlt Hamp.
  pose proof (htmlToText_normal s) as [[Tu Nu] [Tv Nv]].
  destruct Hf as [<-|[<-|[]]].
  - apply (htmlToText_fixed _ Tu Nu Hlt Hamp).
  - apply (htmlToText_fixed _ Tv Nv Hlt Hamp).
Qed.

Lemma htmlToText_idempotent_on_plain_text_witness :
  In Utils.htmlToText htmlToText_impls
  /\ hasChar chLt (Utils.htmlToText (VStr (lit "<p>Hi  <b>there</b></p>"))) = false
  /\ hasChar chAmp (Utils.htmlToText (VStr (lit "<p>Hi  <b>there</b></p>"))) = false
  /\ Utils.htmlToText (VStr (Utils.htmlToText (VStr (lit "<p>Hi  <b>there</b></p>"))))
     = Utils.htmlToText (VStr (lit "<p>Hi  <b>there</b></p>")).
Proof.
  assert (Hf : In Utils.htmlToText htmlToText_impls) by (left; reflexivity).
  repeat (split; [first [assumption | reflexivity]|]).
  apply (htmlToText_idempotent_on_plain_text Utils.htmlToText
           (lit "<p>Hi  <b>there</b></p>") Hf);
    reflexivity.
Defined.

(** C3, as stated, fails: decoding [&amp;amp;] gives [&amp;], and decoding
    that again gives [&]. *)
Lemma htmlToText_not_idempotent :
  ~ (forall s, Utils.htmlToText (VStr (Utils.htmlToText (VStr s)))
               = Utils.htmlToText (VStr s))
  /\ ~ (forall s, Service.htmlToText (VStr (Service.htmlToText (VStr s)))
                  = Service.htmlToText (VStr s)).
Proof.
  split; intro H; specialize (H (lit "&amp;amp;")); vm_compute in H;
    discriminate.
Qed.




(** ** Identity extraction *)




(** ** Preview *)

Lemma truncate_bound content maxLength :
  (0 <= maxLength)%Z ->
  (Z.of_nat (length content) > maxLength)%Z ->
  previewBound content (substring0 content maxLength ++ lit "...") maxLength.
Proof.
  intros H0 Hgt. unfold previewBound, substring0.
  rewrite length_app, length_firstn. cbn [lit list_ascii_of_string length].
  split; [lia|]. split; intro; lia.
Qed.

Lemma keep_bound content maxLength :
  (Z.of_nat (length content) <= maxLength)%Z ->
  previewBound content content maxLength.
Proof.
  intro Hle. unfold previewBound. split; [lia|]. split; intro; lia.
Qed.

(** C5 (as amended).  For every non-negative integer [maxLength]: when no
    content is selected the preview is the sentinel ["No content
    available"]; when the selected content is empty after cleaning the
    preview of unipile-email-service.js is the sentinel ["Empty message"];
    otherwise the preview has length at most [maxLength + 3], and exactly
    [maxLength + 3] if and only if the cleaned content (whitespace
    collapsed and trimmed) is longer than [maxLength]. *)
Theorem generatePreview_length :
  forall a b maxLength,
    (0 <= maxLength)%Z ->
    match Service.selectContent a b with
    | [] => Service.generatePreview a b maxLength = lit "No content available"
    | content =>
        match Service.cleanContent content with
        | [] => Service.generatePreview a b maxLength = lit "Empty message"
        | cleaned =>
            previewBound cleaned (Service.generatePreview a b maxLength)
              maxLength
        end
    end
    /\
    match Utils.selectContent a b with
    | [] => Utils.generatePreview a b maxLength = lit "No content available"
    | content =>
        previewBound (Utils.cleanContent content)
          (Utils.generatePreview a b maxLength) maxLength
    end.
Proof.
  intros a b m H0. split.
  - unfold Service.generatePreview.
    destruct (Service.selectContent a b) as [|x content]; [reflexivity|].
    destruct (Service.cleanContent (x :: content)) as [|y cleaned] eqn:E.
    + destruct (Z.gtb_spec (Z.of_nat (length (@nil ascii))) m) as [Hgt|Hle];
        [cbn [length] in Hgt; lia|reflexivity].
    + destruct (Z.gtb_spec (Z.of_nat (length (y :: cleaned))) m) as [Hgt|Hle].
      * apply truncate_bound; lia.
      * apply keep_bound. exact Hle.
  - unfold Utils.generatePreview.
    destruct (Utils.selectContent a b) as [|x content]; [reflexivity|].
    destruct (Z.gtb_spec
                (Z.of_nat (length (Utils.cleanContent (x :: content)))) m)
      as [Hgt|Hle].
    + apply truncate_bound; lia.
    + apply keep_bound. exact Hle.
Qed.

Lemma generatePreview_length_witness :
  (0 <= 5)%Z
  /\ previewBound (lit "Hi there")
       (Service.generatePreview (VStr (lit "<p>Hi <b>there</b></p>")) VNull 5)
       5
  /\ previewBound (Utils.cleanContent (lit "<p>Hi <b>there</b></p>"))
       (Utils.generatePreview (VStr (lit "<p>Hi <b>there</b></p>")) VNull 5)
       5.
Proof.
  assert (H0 : (0 <= 5)%Z) by lia.
  split; [exact H0|].
  exact (generatePreview_length (VStr (lit "<p>Hi <b>there</b></p>")) VNull 5 H0).
Defined.

(** C5, as stated, fails: with no content and [maxLength = 5] the preview
    is the 20-character sentinel, longer than [5 + 3]; and with
    [maxLength = 17] the sentinel has length [17 + 3] although no content
    exceeds 17 characters. *)
Lemma generatePreview_sentinel_breaks_bound :
  ~ (forall a b maxLength,
       (Z.of_nat (length (Service.generatePreview a b maxLength))
        <= maxLength + 3)%Z)
  /\ ~ (forall a b maxLength,
       (Z.of_nat (length (Utils.generatePreview a b maxLength))
        <= maxLength + 3)%Z)
  /\ Service.selectContent VNull VNull = []
  /\ Z.of_nat (length (Service.generatePreview VNull VNull 17)) = (17 + 3)%Z.
Proof.
  split; [|split; [|split; reflexivity]];
    intro H; specialize (H VNull VNull 5%Z); vm_compute in H;
    apply H; reflexivity.
Qed.

(** ** The normalized record *)

Lemma plainTextOf_sane email :
  plainBodySane email -> exists s, plainTextOf email = VStr s.
Proof.
  unfold plainBodySane, plainTextOf, jsOr. intros [H|H].
  - rewrite H. eexists. reflexivity.
  - destruct (get email (lit "body_plain")); try discriminate.
    destruct (truthy (VStr s)); eexists; reflexivity.
Qed.

Lemma processEmail_string email s :
  plainTextOf email = VStr s ->
  exists n,
    Service.processEmail email = Ok n
    /\ Service.plainTextBody n = VStr s
    /\ Service.wordCount n
       = Z.of_nat (length (filter nonEmptyWord (split (ch " ") s)))
    /\ Service.estimatedReadTime n
       = Z.max 1 (ceilDiv (Service.wordCount n) 200)
    /\ Service.isRead n = truthy (get email (lit "read_date")).
Proof.
  intro H. unfold plainTextOf in H. unfold Service.processEmail.
  rewrite H. cbn [Service.countWords stringMethod bind].
  eexists. split; [reflexivity|].
  cbn [Service.plainTextBody Service.wordCount Service.estimatedReadTime
       Service.isRead].
  repeat split.
  destruct (truthy (get email (lit "read_date"))); reflexivity.
Qed.

(** When the plain text is not a string, [split] is not a function. *)
Lemma processEmail_not_string email :
  isString (plainTextOf email) = false ->
  exists msg, Service.processEmail email = Throw msg.
Proof.
  intro H. unfold plainTextOf in H. unfold Service.processEmail.
  destruct (jsOr (get email (lit "body_plain")) _); try discriminate;
    eexists; reflexivity.
Qed.

Lemma split_countTokens sep s :
  exists w ws,
    split sep s = w :: ws
    /\ length (filter nonEmptyWord (w :: ws)) = countTokens (isChar sep) false s
    /\ length (filter nonEmptyWord ws) = countTokens (isChar sep) true s.
Proof.
  induction s as [|c s (w & ws & E & H1 & H2)].
  - exists [], []. repeat split.
  - cbn [split countTokens]. change (isChar sep c) with (ascii_eqb c sep).
    rewrite E. destruct (ascii_eqb c sep).
    + exists [], (w :: ws). repeat split; exact H1.
    + exists (c :: w), ws. repeat split.
      * cbn [filter nonEmptyWord length Nat.ltb Nat.leb]. cbn [length].
        rewrite H2. reflexivity.
      * exact H2.
Qed.

Lemma wordCount_countTokens s :
  length (filter nonEmptyWord (split (ch " ") s))
  = countTokens (isChar (ch " ")) false s.
Proof.
  destruct (split_countTokens (ch " ") s) as (w & ws & E & H1 & _).
  rewrite E. exact H1.
Qed.

(** [max(1, ceil(n / 200))] is the least integer from 1 on whose
    200-fold reaches [n]. *)
Lemma readTime_least n :
  let t := Z.max 1 (ceilDiv n 200) in
  (1 <= t /\ n <= 200 * t /\ (1 < t -> 200 * (t - 1) < n))%Z.
Proof.
  cbv zeta. unfold ceilDiv.
  pose proof (Z.div_mod (- n) 200 ltac:(lia)) as Hd.
  pose proof (Z.mod_pos_bound (- n) 200 ltac:(lia)) as Hm.
  lia.
Qed.

(** What [processEmail] counts, in general.  For every raw record whose
    [body_plain] is absent, falsy or a string, it returns a record whose
    [wordCount] is the number of non-empty tokens of [plainTextBody]
    between space characters (U+0020 only), and whose [estimatedReadTime]
    is [max(1, ceil(wordCount / 200))]. *)
Theorem processEmail_wordCount :
  forall email,
    plainBodySane email ->
    exists n s,
      Service.processEmail email = Ok n
      /\ Service.plainTextBody n = VStr s
      /\ Service.wordCount n
         = Z.of_nat (countTokens (isChar (ch " ")) false s)
      /\ (1 <= Service.estimatedReadTime n)%Z
      /\ (Service.wordCount n <= 200 * Service.estimatedReadTime n)%Z
      /\ ((1 < Service.estimatedReadTime n)%Z ->
          (200 * (Service.estimatedReadTime n - 1) < Service.wordCount n)%Z).
Proof.
  intros email Hsane.
  destruct (plainTextOf_sane email Hsane) as [s Hs].
  destruct (processEmail_string email s Hs) as (n & Hn & Hp & Hw & Ht & _).
  exists n, s. rewrite Ht.
  split; [exact Hn|]. split; [exact Hp|].
  split; [rewrite Hw, wordCount_countTokens; reflexivity|].
  apply readTime_least.
Qed.

Lemma processEmail_wordCount_witness :
  plainBodySane tabbedRecord
  /\ exists n s,
      Service.processEmail tabbedRecord = Ok n
      /\ Service.plainTextBody n = VStr s
      /\ Service.wordCount n
         = Z.of_nat (countTokens (isChar (ch " ")) false s)
      /\ (1 <= Service.estimatedReadTime n)%Z
      /\ (Service.wordCount n <= 200 * Service.estimatedReadTime n)%Z
      /\ ((1 < Service.estimatedReadTime n)%Z ->
          (200 * (Service.estimatedReadTime n - 1) < Service.wordCount n)%Z).
Proof.
  assert (H : plainBodySane tabbedRecord) by (right; reflexivity).
  split; [exact H|].
  exact (processEmail_wordCount tabbedRecord H).
Defined.

(** C6 (a defect of the code).  A [body_plain] of four words separated
    by a tab, a newline and a space has four whitespace-delimited tokens,
    and [wordCount] is 2: words on either side of a tab or a newline are
    counted as one. *)
Theorem processEmail_wordCount_splits_on_space_only :
  exists n s,
    Service.processEmail tabbedRecord = Ok n
    /\ Service.plainTextBody n = VStr s
    /\ countTokens isSpace false s = 4
    /\ Service.wordCount n = 2%Z
    /\ Service.wordCount n <> Z.of_nat (countTokens isSpace false s).
Proof.
  destruct (Service.processEmail tabbedRecord) as [n|msg] eqn:E;
    [|vm_compute in E; discriminate].
  exists n. eexists.
  vm_compute in E. injection E as <-.
  cbn [Service.plainTextBody Service.wordCount].
  repeat split. vm_compute. discriminate.
Qed.

(** The same text counts differently under the two body fields: under
    [body] it passes through [htmlToText], which turns every run of
    whitespace into one space, and counts four words; under [body_plain]
    it counts two. *)
Lemma processEmail_wordCount_by_field :
  exists n m,
    Service.processEmail [(lit "body", get tabbedRecord (lit "body_plain"))]
    = Ok n
    /\ Service.processEmail tabbedRecord = Ok m
    /\ Service.wordCount n = 4%Z
    /\ Service.wordCount m = 2%Z.
Proof.
  destruct (Service.processEmail
              [(lit "body", get tabbedRecord (lit "body_plain"))])
    as [n|msg] eqn:En; [|vm_compute in En; discriminate].
  destruct (Service.processEmail tabbedRecord) as [m|msg] eqn:Em;
    [|vm_compute in Em; discriminate].
  exists n, m. vm_compute in En, Em.
  injection En as <-. injection Em as <-.
  repeat split.
Qed.

(** C7 (as amended).  For every raw record whose [body_plain] is absent,
    falsy or a string, [processEmail] returns a record whose [isRead] is
    true if and only if [read_date] is truthy: present and none of [null],
    [false], [0] and the empty string. *)
Theorem processEmail_isRead :
  forall email,
    plainBodySane email ->
    exists n,
      Service.processEmail email = Ok n
      /\ (Service.isRead n = true
          <-> (get email (lit "read_date") <> VUndef
               /\ get email (lit "read_date") <> VNull
               /\ get email (lit "read_date") <> VBool false
               /\ get email (lit "read_date") <> VNum 0
               /\ get email (lit "read_date") <> VStr [])).
Proof.
  intros email Hsane.
  destruct (plainTextOf_sane email Hsane) as [s Hs].
  destruct (processEmail_string email s Hs) as (n & Hn & _ & _ & _ & Hr).
  exists n. split; [exact Hn|]. rewrite Hr.
  destruct (get email (lit "read_date")) as [| |b|z|t|l|o]; cbn [truthy];
    [ | |destruct b|destruct (Z.eqb_spec z 0) as [->|Hz]; cbn [negb]
     |destruct t| | ];
    (split;
     [ intro H; try discriminate H; repeat split; try discriminate;
       congruence
     | intros (H1 & H2 & H3 & H4 & H5); try reflexivity; congruence ]).
Qed.

Lemma processEmail_isRead_witness :
  plainBodySane readRecord
  /\ exists n,
      Service.processEmail readRecord = Ok n
      /\ (Service.isRead n = true
          <-> (get readRecord (lit "read_date") <> VUndef
               /\ get readRecord (lit "read_date") <> VNull
               /\ get readRecord (lit "read_date") <> VBool false
               /\ get readRecord (lit "read_date") <> VNum 0
               /\ get readRecord (lit "read_date") <> VStr [])).
Proof.
  assert (H : plainBodySane readRecord) by (left; reflexivity).
  split; [exact H|].
  exact (processEmail_isRead readRecord H).
Defined.

(** C7, as stated, fails: a [read_date] of [0] is present and not [null],
    and [isRead] is false; likewise for the empty string. *)
Lemma processEmail_isRead_falsy_marker :
  (exists n,
     Service.processEmail [(lit "read_date", VNum 0)] = Ok n
     /\ get [(lit "read_date", VNum 0)] (lit "read_date") <> VUndef
     /\ get [(lit "read_date", VNum 0)] (lit "read_date") <> VNull
     /\ Service.isRead n = false)
  /\ (exists n,
     Service.processEmail [(lit "read_date", VStr [])] = Ok n
     /\ get [(lit "read_date", VStr [])] (lit "read_date") <> VUndef
     /\ get [(lit "read_date", VStr [])] (lit "read_date") <> VNull
     /\ Service.isRead n = false).
Proof.
  split; eexists; (split; [vm_compute; reflexivity|]);
    repeat split; vm_compute; discriminate.
Qed.

(** C1: [processEmail] throws for an object record whose [body_plain] is a
    number, and [extractKeyInfo] throws for a [null] or [undefined] body. *)
Theorem processEmail_extractKeyInfo_throw :
  Service.processEmail [(lit "body_plain", VNum 12345)]
  = Throw TypeError_notAFunction
  /\ Utils.extractKeyInfo (VStr (lit "Code: 123456")) VNull
     = Throw TypeError_nullish
  /\ Utils.extractKeyInfo (VStr (lit "Code: 123456")) VUndef
     = Throw TypeError_nullish.
Proof. split; [reflexivity | split; reflexivity]. Qed.

(** ** Key facts *)

Lemma filter_and {A} (f g : A -> bool) l :
  filter f (filter g l) = filter (fun y => f y && g y) l.
Proof.
  induction l as [|x l IH]; [reflexivity|].
  cbn [filter]. destruct (g x); cbn [filter]; rewrite ?andb_false_r, ?andb_true_r;
    [destruct (f x)|]; rewrite IH; reflexivity.
Qed.

(** A Set built from a list lists the first occurrences. *)
Lemma fold_set_add l :
  forall acc, fold_left set_add l acc = acc ++ filter (notIn acc) (dedup l).
Proof.
  induction l as [|x l IH]; intro acc.
  - cbn. rewrite app_nil_r. reflexivity.
  - cbn [fold_left dedup filter]. rewrite IH. unfold set_add, notIn at 2.
    destruct (existsb (str_eqb x) acc) eqn:E; cbn [negb].
    + f_equal. rewrite filter_and. apply filter_ext_in. intros y _.
      unfold notIn. destruct (existsb (str_eqb y) acc) eqn:Ey; [reflexivity|].
      destruct (str_eqb y x) eqn:Eyx; [|reflexivity].
      apply str_eqb_eq in Eyx. subst y. congruence.
    + rewrite <- app_assoc. cbn [app]. do 2 f_equal.
      rewrite filter_and. apply filter_ext. intro y.
      unfold notIn. rewrite existsb_app. cbn [existsb].
      rewrite orb_false_r, negb_orb. reflexivity.
Qed.

Lemma setToList_dedup l : setToList l = dedup l.
Proof.
  unfold setToList. rewrite fold_set_add. cbn [app].
  induction (dedup l) as [|y t IH]; [reflexivity|].
  cbn [filter notIn existsb negb]. rewrite IH. reflexivity.
Qed.

Lemma not_In_dedup_filter x l :
  ~ In x (filter (fun y => negb (str_eqb y x)) l).
Proof.
  intro H. apply filter_In in H. destruct H as [_ H].
  rewrite str_eqb_refl in H. discriminate.
Qed.

Lemma NoDup_dedup l : NoDup (dedup l).
Proof.
  induction l as [|x l IH]; [constructor|].
  cbn [dedup]. constructor.
  - apply not_In_dedup_filter.
  - apply NoDup_filter. exact IH.
Qed.

Lemma length_filter_le {A} (f : A -> bool) l : length (filter f l) <= length l.
Proof.
  induction l as [|x l IH]; [reflexivity|].
  cbn [filter]. destruct (f x); cbn [length]; lia.
Qed.

Lemma length_dedup l : length (dedup l) <= length l.
Proof.
  induction l as [|x l IH]; [reflexivity|].
  cbn [dedup length].
  pose proof (length_filter_le (fun y => negb (str_eqb y x)) (dedup l)). lia.
Qed.

(** An induction over a value and the elements of its arrays. *)
Lemma value_elems_ind (P : value -> Prop) :
  (forall v, (forall l, v <> VArr l) -> P v) ->
  (forall l, Forall P l -> P (VArr l)) ->
  forall v, P v.
Proof.
  intros Hleaf Harr. fix IH 1. intro v.
  destruct v as [| |b|z|s|l|o]; try (apply Hleaf; discriminate).
  apply Harr. revert l. fix IHl 1. intros [|x r].
  - constructor.
  - constructor; [apply IH | apply IHl].
Qed.

Lemma toString_array_cons x y r :
  toString (VArr (x :: y :: r))
  = (s <- elemString x ;; t <- toString (VArr (y :: r)) ;;
     Ok (s ++ lit "," ++ t)).
Proof. reflexivity. Qed.

Lemma elemString_printable x :
  (printable x = true -> exists t, toString x = Ok t) ->
  printable x = true -> exists t, elemString x = Ok t.
Proof.
  intros IH H. destruct x; try (exact (IH H)); eexists; reflexivity.
Qed.

(** A printable value is converted without an error. *)
Lemma toString_printable :
  forall v, printable v = true -> exists t, toString v = Ok t.
Proof.
  apply (value_elems_ind
           (fun v => printable v = true -> exists t, toString v = Ok t)).
  - intros v Hv H. destruct v as [| |[|]|z|s|l|o]; try (eexists; reflexivity).
    + exfalso. exact (Hv l eq_refl).
    + cbn [printable] in H. cbn [toString].
      destruct (hasOwn o (lit "toString")); [discriminate|].
      eexists. reflexivity.
  - intros l IH. induction IH as [|x r Hx _ IHr]; intro H.
    + eexists. reflexivity.
    + cbn [printable forallb] in H. apply andb_prop in H. destruct H as [H1 H2].
      destruct (elemString_printable x Hx H1) as [s Hs].
      destruct r as [|y r]; [exists s; exact Hs|].
      destruct (IHr H2) as [t Ht].
      rewrite toString_array_cons, Hs, Ht. eexists. reflexivity.
Qed.

(** An object with an own property [toString] is not converted: the
    template literal of [extractKeyInfo] throws, whatever the body. *)
Lemma extractKeyInfo_own_toString o body :
  hasOwn o (lit "toString") = true ->
  Utils.extractKeyInfo (VObj o) body = Throw TypeError_toPrimitive.
Proof.
  intro H. unfold Utils.extractKeyInfo. cbn [toString]. rewrite H.
  reflexivity.
Qed.

(** C8 (as amended).  For every subject that converts to a string and
    every string body, [extractKeyInfo] returns a record whose [links] are
    the first three [http(s)://] tokens of the body, repeats counted, then
    deduplicated in order of first appearance: at most three links, without
    repeats. *)
Theorem extractKeyInfo_links :
  forall subject body,
    printable subject = true ->
    exists info,
      Utils.extractKeyInfo subject (VStr body) = Ok info
      /\ Utils.links info = dedup (firstn 3 (match_all Utils.re_url body))
      /\ NoDup (Utils.links info)
      /\ length (Utils.links info) <= 3.
Proof.
  intros subject body Hp. unfold Utils.extractKeyInfo.
  destruct (toString_printable subject Hp) as [t ->].
  cbn [toString stringMethod bind]. eexists. split; [reflexivity|].
  cbn [Utils.links]. rewrite setToList_dedup.
  split; [reflexivity|]. split; [apply NoDup_dedup|].
  pose proof (length_dedup (firstn 3 (match_all Utils.re_url body))).
  pose proof (firstn_le_length 3 (match_all Utils.re_url body)). lia.
Qed.

Lemma extractKeyInfo_links_witness :
  printable (VArr [VStr (lit "Order"); VNull; VNum 7]) = true
  /\ exists info,
       Utils.extractKeyInfo (VArr [VStr (lit "Order"); VNull; VNum 7])
         (VStr fourUrls) = Ok info
       /\ Utils.links info
          = dedup (firstn 3 (match_all Utils.re_url fourUrls))
       /\ NoDup (Utils.links info)
       /\ length (Utils.links info) <= 3.
Proof.
  split; [reflexivity|].
  exact (extractKeyInfo_links (VArr [VStr (lit "Order"); VNull; VNum 7])
           fourUrls eq_refl).
Defined.

(** C8, as stated, fails: the URL sequence [a, a, b, c] has the three
    distinct tokens [a, b, c], and [links] is [a, b]. *)
Lemma extractKeyInfo_links_truncates_first :
  match_all Utils.re_url fourUrls
  = [lit "http://a.co"; lit "http://a.co"; lit "http://b.co";
     lit "http://c.co"]
  /\ firstn 3 (dedup (match_all Utils.re_url fourUrls))
     = [lit "http://a.co"; lit "http://b.co"; lit "http://c.co"]
  /\ exists info,
       Utils.extractKeyInfo (VStr []) (VStr fourUrls) = Ok info
       /\ Utils.links info = [lit "http://a.co"; lit "http://b.co"]
       /\ Utils.links info
          <> firstn 3 (dedup (match_all Utils.re_url fourUrls)).
Proof.
  split; [reflexivity|]. split; [reflexivity|].
  eexists. split; [vm_compute; reflexivity|].
  split; [reflexivity|]. vm_compute. discriminate.
Qed.

(** ** Categories *)

Lemma stringMethod_textOf v :
  stringOrFalsy v -> stringMethod (jsOr v (VStr [])) = Ok (textOf v).
Proof.
  unfold stringOrFalsy, textOf, jsOr. intros [H|H].
  - rewrite H. reflexivity.
  - destruct v; try discriminate. destruct (truthy (VStr s)); reflexivity.
Qed.

(** [a || r.test(v)] for a value that is converted to [s]. *)
Lemma testValue_or {A} r v s (c : bool) (k : bool -> result A) :
  toString v = Ok s ->
  (b <- (if c then Ok true else testValue r v) ;; k b) = k (c || test r s).
Proof.
  intro H. unfold testValue. rewrite H. destruct c; reflexivity.
Qed.

Lemma categorizeEmail_firstMatch subject sender body :
  stringOrFalsy sender -> stringOrFalsy body ->
  Utils.categorizeEmail (VStr subject) sender body
  = Ok (firstMatch (categoryRules subject (textOf sender)) (lit "general")).
Proof.
  intros Hs Hb. unfold Utils.categorizeEmail.
  rewrite (stringMethod_textOf (VStr subject)) by (right; reflexivity).
  rewrite (stringMethod_textOf sender Hs), (stringMethod_textOf body Hb).
  cbn [bind].
  rewrite (testValue_or Utils.re_sixDigits (VStr subject) subject _ _ eq_refl).
  replace (textOf (VStr subject)) with subject
    by (destruct subject; reflexivity).
  unfold categoryRules, containsAny.
  cbn [existsb firstMatch]. rewrite ?orb_false_r, ?orb_assoc.
  repeat match goal with
         | |- context [if ?c then _ else _] => destruct c
         end; reflexivity.
Qed.

(** C9.  [categorizeEmail] returns the label of the first rule that
    matches, in the order security, social, work, marketing, and
    [general] when none does, for every string subject and all senders and
    bodies that are strings or falsy; so a subject that contains both
    "verify" and "deal" (in any letter case) is [security] and not
    [marketing]; and the subject "Your verification code" from
    "deals@shop.com" is [security]. *)
Theorem categorizeEmail_priority :
  forall subject sender body,
    stringOrFalsy sender ->
    stringOrFalsy body ->
    Utils.categorizeEmail (VStr subject) sender body
    = Ok (firstMatch (categoryRules subject (textOf sender)) (lit "general"))
    /\ (includes (toLowerCase subject) (lit "verify") = true ->
        includes (toLowerCase subject) (lit "deal") = true ->
        Utils.categorizeEmail (VStr subject) sender body = Ok (lit "security")
        /\ Utils.categorizeEmail (VStr subject) sender body
           <> Ok (lit "marketing"))
    /\ Utils.categorizeEmail (VStr (lit "Your verification code"))
         (VStr (lit "deals@shop.com")) (VStr [])
       = Ok (lit "security").
Proof.
  intros subject sender body Hs Hb.
  pose proof (categorizeEmail_firstMatch subject sender body Hs Hb) as H.
  split; [exact H|]. split; [|reflexivity].
  intros Hv Hd. rewrite H.
  unfold categoryRules, containsAny. cbn [existsb firstMatch].
  rewrite Hv, ?orb_true_r. cbn [orb].
  split; [reflexivity|]. vm_compute. discriminate.
Qed.

Lemma categorizeEmail_priority_witness :
  stringOrFalsy (VStr (lit "deals@shop.com"))
  /\ stringOrFalsy VNull
  /\ includes (toLowerCase (lit "Please VERIFY this Deal")) (lit "verify")
     = true
  /\ includes (toLowerCase (lit "Please VERIFY this Deal")) (lit "deal") = true
  /\ Utils.categorizeEmail (VStr (lit "Please VERIFY this Deal"))
       (VStr (lit "deals@shop.com")) VNull
     = Ok (lit "security").
Proof.
  assert (Hs : stringOrFalsy (VStr (lit "deals@shop.com")))
    by (right; reflexivity).
  assert (Hb : stringOrFalsy VNull) by (left; reflexivity).
  repeat (split; [first [assumption | reflexivity]|]).
  apply (proj1 (proj2 (categorizeEmail_priority
                         (lit "Please VERIFY this Deal")
                         (VStr (lit "deals@shop.com")) VNull Hs Hb)));
    reflexivity.
Defined.

(** ** Further facts *)

(** Free text without [<] and [@] is the plainest unstructured string: the
    service takes it as a display name. *)
Lemma extractSender_free_text s :
  s <> [] ->
  hasChar chLt s = false -> hasChar chAt s = false ->
  Service.extractSender (VStr s)
  = {| Identity.email := VStr (lit "Unknown");
       Identity.name := VStr (trim s) |}.
Proof.
  intros Hne Hlt Hat. unfold Service.extractSender.
  destruct s as [|c s]; [congruence|].
  cbn [truthy negb isObject typeof isString asStr].
  rewrite (search_bracketed_none _ Hlt).
  rewrite (test_emailRegex_none _ (hasChar_trim _ _ Hat)).
  reflexivity.
Qed.

(** [extractKeyInfo] throws for every body that is not a string. *)
Lemma extractKeyInfo_not_string subject body :
  isString body = false ->
  exists msg, Utils.extractKeyInfo subject body = Throw msg.
Proof.
  intro H. unfold Utils.extractKeyInfo.
  destruct (toString subject); [|eexists; reflexivity].
  destruct (toString body); [|eexists; reflexivity].
  destruct body; try discriminate; eexists; reflexivity.
Qed.

(** ** The examples of the specification, evaluated *)

Example ex_htmlToText_script :
  Service.htmlToText (VStr (lit "<script>alert(1)</script>hello"))
  = lit "hello".
Proof. reflexivity. Qed.

Example ex_htmlToText_entities :
  Service.htmlToText (VStr (lit "a &amp; b &lt;c&gt;")) = lit "a & b <c>".
Proof. reflexivity. Qed.

Example ex_extractSender_bracketed :
  Service.extractSender (VStr (lit "John Doe <john@example.com>"))
  = {| Identity.email := VStr (lit "john@example.com");
       Identity.name := VStr (lit "John Doe") |}.
Proof. reflexivity. Qed.

Example ex_extractSender_bare :
  Service.extractSender (VStr (lit "jane@example.com"))
  = {| Identity.email := VStr (lit "jane@example.com");
       Identity.name := VStr [] |}.
Proof. reflexivity. Qed.

Example ex_extractSender_object :
  Service.extractSender
    (VObj [(lit "email", VStr (lit "a@b.com"));
           (lit "display_name", VStr (lit "A B"))])
  = {| Identity.email := VStr (lit "a@b.com");
       Identity.name := VStr (lit "A B") |}.
Proof. reflexivity. Qed.

Example ex_extractSender_null :
  Service.extractSender VNull = unknownIdentity.
Proof. reflexivity. Qed.

Example ex_extractKeyInfo :
  exists info,
    Utils.extractKeyInfo (VStr (lit "Code: 123456"))
      (VStr (lit "Visit http://a.co and http://a.co")) = Ok info
    /\ Utils.codes info = [lit "123456"]
    /\ Utils.links info = [lit "http://a.co"]
    /\ Utils.actions info = [].
Proof. eexists. split; [vm_compute; reflexivity|]. repeat split. Qed.

Example ex_toString :
  toString (VArr [VNum 1; VNull; VStr (lit "a"); VArr [VNum (-2); VBool true]])
  = Ok (lit "1,,a,-2,true")
  /\ toString (VObj [(lit "valueOf", VNum 1)]) = Ok (lit "[object Object]")
  /\ toString (VObj [(lit "toString", VNum 1)]) = Throw TypeError_toPrimitive
  /\ toString (VArr [VStr (lit "a"); VObj [(lit "toString", VNum 1)]])
     = Throw TypeError_toPrimitive.
Proof. repeat split. Qed.

Example ex_extractKeyInfo_toString_key :
  Utils.extractKeyInfo (VObj [(lit "toString", VNum 1)])
    (VStr (lit "Visit http://a.co"))
  = Throw TypeError_toPrimitive.
Proof. reflexivity. Qed.

Example ex_processEmail :
  exists n,
    Service.processEmail
      [(lit "from_attendee", VStr (lit "Jane <jane@x.com>"));
       (lit "body", VStr (lit "<p>Hi <b>there</b></p>"));
       (lit "body_plain", VNull)] = Ok n
    /\ Identity.email (Service.sender n) = VStr (lit "jane@x.com")
    /\ Service.plainTextBody n = VStr (lit "Hi there")
    /\ Service.wordCount n = 2%Z
    /\ Service.estimatedReadTime n = 1%Z
    /\ Service.preview n = lit "Hi there".
Proof. eexists. split; [vm_compute; reflexivity|]. repeat split. Qed.

(** ** The matcher on small inputs *)

(** A pattern that matches the empty string replaces between all
    characters: ["abc".replace(/x*/g, "-")] is ["-a-b-c-"]. *)
Example ex_replace_empty_matches :
  replace [Rep (isChar (ch "x")) 0 None true] (lit "-") (lit "abc")
  = lit "-a-b-c-".
Proof. reflexivity. Qed.

(** Greedy and lazy repetition: [/<.+>/] takes the longest tag-like
    stretch, [/<.+?>/] the shortest. *)
Example ex_greedy_lazy :
  replace [Lit false (lit "<"); Rep isDot 1 None true; Lit false (lit ">")]
    (lit "-") (lit "a<b>c<d>e") = lit "a-e"
  /\ replace [Lit false (lit "<"); Rep isDot 1 None false; Lit false (lit ">")]
       (lit "-") (lit "a<b>c<d>e") = lit "a-c-e".
Proof. split; reflexivity. Qed.

(** [\b\d{4,8}\b] wants a whole run of four to eight digits. *)
Example ex_codes :
  match_all Utils.re_codes (lit "1234 123456789 a1234 5678- 12")
  = [lit "1234"; lit "5678"].
Proof. reflexivity. Qed.

(** A script block is removed whatever the case of its tags; without the
    closing tag only the opening tag goes, as a tag. *)
Example ex_script_blocks :
  Utils.htmlToText (VStr (lit "<SCRIPT type=x>a<b>c</ScRiPt> x <"))
  = lit "x <"
  /\ Utils.htmlToText (VStr (lit "<script>abc")) = lit "abc".
Proof. split; reflexivity. Qed.

(** * Further properties *)

(** ** What a match consists of *)

Lemma lit_match_app ci cs :
  forall s rest, lit_match ci cs s = Some rest ->
                 exists pre, s = pre ++ rest /\ length pre = length cs.
Proof.
  induction cs as [|p cs IH]; intros s rest H.
  - injection H as <-. exists []. split; reflexivity.
  - destruct s as [|c s]; [discriminate|]. cbn [lit_match] in H.
    destruct (chr_match ci p c); [|discriminate].
    destruct (IH s rest H) as (pre & -> & Hl).
    exists (c :: pre). split; [reflexivity|]. cbn [length]. congruence.
Qed.

Lemma lit_match_exact cs :
  forall s rest, lit_match false cs s = Some rest -> s = cs ++ rest.
Proof.
  induction cs as [|p cs IH]; intros s rest H.
  - injection H as <-. reflexivity.
  - destruct s as [|c s]; [discriminate|]. cbn [lit_match chr_match] in H.
    destruct (ascii_eqb p c) eqn:E; [|discriminate].
    apply ascii_eqb_eq in E. subst c. rewrite (IH s rest H). reflexivity.
Qed.

(** A repetition that matched took a stretch of characters of its class,
    within its bounds, and the continuation matched behind it. *)
Lemma rep_match_inv k cls lo hi greedy s :
  forall n prev r,
    rep_match k cls lo hi greedy n prev s = Some r ->
    exists pre rest ls,
      s = pre ++ rest
      /\ forallb cls pre = true
      /\ r = (n + length pre) :: ls
      /\ lo <= n + length pre
      /\ match hi with
         | Some h => n + length pre <= Nat.max n h
         | None => True
         end
      /\ k (lastOf prev pre) rest = Some ls.
Proof.
  induction s as [|c s IH]; intros n prev r H.
  - cbn [rep_match] in H. destruct (lo <=? n) eqn:El; [|discriminate].
    destruct (k prev []) as [ls|] eqn:Ek; [|discriminate].
    injection H as <-. exists [], [], ls. cbn [length app forallb lastOf fold_left].
    rewrite Nat.add_0_r. apply Nat.leb_le in El.
    repeat split; try assumption. destruct hi; [lia|exact I].
  - cbn [rep_match] in H.
    assert (Hstop :
      (if lo <=? n then option_map (cons n) (k prev (c :: s)) else None)
      = Some r ->
      exists pre rest ls,
        c :: s = pre ++ rest /\ forallb cls pre = true
        /\ r = (n + length pre) :: ls /\ lo <= n + length pre
        /\ match hi with
           | Some h => n + length pre <= Nat.max n h
           | None => True
           end
        /\ k (lastOf prev pre) rest = Some ls).
    { intro Hs. destruct (lo <=? n) eqn:El; [|discriminate].
      destruct (k prev (c :: s)) as [ls|] eqn:Ek; [|discriminate].
      injection Hs as <-. exists [], (c :: s), ls.
      cbn [length app forallb lastOf fold_left].
      rewrite Nat.add_0_r. apply Nat.leb_le in El.
      repeat split; try assumption. destruct hi; [lia|exact I]. }
    assert (Hmore :
      cls c && below hi n = true ->
      rep_match k cls lo hi greedy (S n) (Some c) s = Some r ->
      exists pre rest ls,
        c :: s = pre ++ rest /\ forallb cls pre = true
        /\ r = (n + length pre) :: ls /\ lo <= n + length pre
        /\ match hi with
           | Some h => n + length pre <= Nat.max n h
           | None => True
           end
        /\ k (lastOf prev pre) rest = Some ls).
    { intros Hc Hm. apply andb_true_iff in Hc. destruct Hc as [Hc Hb].
      destruct (IH _ _ _ Hm) as (pre & rest & ls & -> & Hp & -> & Hlo & Hhi & Hk).
      exists (c :: pre), rest, ls.
      cbn [length app forallb lastOf fold_left]. rewrite Hc, Hp.
      rewrite Nat.add_succ_r.
      repeat split; try assumption.
      destruct hi as [h|]; [|exact I]. cbn [below] in Hb.
      apply Nat.ltb_lt in Hb. lia. }
    destruct (cls c && below hi n) eqn:Ec; [|apply Hstop; exact H].
    destruct greedy; unfold orElse in H.
    + destruct (rep_match k cls lo hi true (S n) (Some c) s) eqn:Em.
      * exact (Hmore eq_refl H).
      * exact (Hstop H).
    + destruct (if lo <=? n then option_map (cons n) (k prev (c :: s)) else None)
        eqn:Es.
      * exact (Hstop H).
      * exact (Hmore eq_refl H).
Qed.

Lemma sound_nil : sound (match_here []).
Proof. intros prev s ls H. injection H as <-. cbn. lia. Qed.

Lemma sound_cons_zero k prev s ls :
  sound k -> option_map (cons 0) (k prev s) = Some ls -> total ls <= length s.
Proof.
  intros Hk H. destruct (k prev s) as [l|] eqn:E; [|discriminate].
  injection H as <-. cbn [total fold_right]. apply (Hk _ _ _ E).
Qed.

Lemma sound_atom k a : sound k -> sound (atom_match k a).
Proof.
  intros Hk prev s ls H. destruct a as [ci cs|cls lo hi g| | |]; cbn [atom_match] in H.
  - destruct (lit_match ci cs s) as [rest|] eqn:E; [|discriminate].
    destruct (lit_match_app _ _ _ _ E) as (pre & -> & Hl).
    destruct (k (last (map Some cs) prev) rest) as [l|] eqn:Ek; [|discriminate].
    injection H as <-. cbn [total fold_right]. fold (total l).
    rewrite length_app. pose proof (Hk _ _ _ Ek). lia.
  - destruct (rep_match_inv _ _ _ _ _ _ _ _ _ H)
      as (pre & rest & l & -> & _ & -> & _ & _ & Ek).
    cbn [total fold_right]. fold (total l).
    rewrite length_app. pose proof (Hk _ _ _ Ek). lia.
  - destruct (xorb (isWordO prev) (isWordO (hd_error s))); [|discriminate].
    apply (sound_cons_zero k prev s ls Hk H).
  - destruct prev; [discriminate|]. apply (sound_cons_zero k None s ls Hk H).
  - destruct s; [|discriminate]. apply (sound_cons_zero k prev [] ls Hk H).
Qed.

Lemma sound_match_here r : sound (match_here r).
Proof.
  induction r as [|a r IH]; [apply sound_nil|].
  cbn [match_here]. apply sound_atom. exact IH.
Qed.

(** Every element of a global [match] is a match of the pattern. *)
Lemma match_all_Forall r (P : str -> Prop) :
  (forall prev s ls, match_here r prev s = Some ls -> P (firstn (total ls) s)) ->
  forall s skip prev, Forall P (match_all_from r skip prev s).
Proof.
  intro H. induction s as [|c s IH]; intros skip prev.
  - destruct skip; cbn [match_all_from]; [|constructor].
    destruct (match_here r prev []) eqn:E; constructor.
    + apply (H _ _ _ E).
    + constructor.
  - destruct skip; cbn [match_all_from]; [|apply IH].
    destruct (match_here r prev (c :: s)) eqn:E; [|apply IH].
    constructor; [apply (H _ _ _ E)|apply IH].
Qed.

Lemma In_dedup x l : In x (dedup l) -> In x l.
Proof.
  induction l as [|y l IH]; intro H; [exact H|].
  cbn [dedup] in H. destruct H as [->|H]; [left; reflexivity|].
  right. apply IH. apply filter_In in H. apply H.
Qed.

Lemma Forall_dedup (P : str -> Prop) l : Forall P l -> Forall P (dedup l).
Proof.
  intro H. apply Forall_forall. intros x Hx.
  apply (proj1 (Forall_forall P l) H). apply In_dedup. exact Hx.
Qed.

Lemma firstn_exact {A} (pre rest : list A) n :
  n = length pre -> firstn n (pre ++ rest) = pre.
Proof.
  intros ->. rewrite firstn_app, Nat.sub_diag, firstn_all. cbn [firstn].
  apply app_nil_r.
Qed.

Lemma match_codes prev s ls :
  match_here Utils.re_codes prev s = Some ls -> isCode (firstn (total ls) s).
Proof.
  unfold Utils.re_codes. cbn [match_here atom_match]. intro H.
  destruct (xorb (isWordO prev) (isWordO (hd_error s))); [|discriminate].
  destruct (rep_match _ isDigit 4 (Some 8) true 0 prev s) as [r|] eqn:E;
    [|discriminate].
  cbn [option_map] in H. injection H as <-.
  destruct (rep_match_inv _ _ _ _ _ _ _ _ _ E)
    as (pre & rest & l & -> & Hd & -> & Hlo & Hhi & Hk).
  cbn [atom_match] in Hk.
  destruct (xorb (isWordO (lastOf prev pre)) (isWordO (hd_error rest)));
    [|discriminate].
  cbn [option_map] in Hk. injection Hk as <-.
  cbn [total fold_right Nat.add]. rewrite (firstn_exact pre rest) by lia.
  cbn [Nat.max Nat.add] in *. repeat split; try assumption; lia.
Qed.

Lemma forallb_isChar_le1 x pre :
  forallb (isChar x) pre = true -> length pre <= 1 -> pre = [] \/ pre = [x].
Proof.
  destruct pre as [|c [|d pre]]; cbn [forallb length]; intros H Hl.
  - left. reflexivity.
  - right. rewrite andb_true_r in H. unfold isChar in H.
    apply ascii_eqb_eq in H. congruence.
  - lia.
Qed.

Lemma match_url prev s ls :
  match_here Utils.re_url prev s = Some ls -> isLink (firstn (total ls) s).
Proof.
  unfold Utils.re_url. cbn [match_here atom_match]. intro H.
  destruct (lit_match false (lit "http") s) as [s1|] eqn:E1; [|discriminate].
  apply lit_match_exact in E1. subst s.
  destruct (rep_match _ (isChar (ch "s")) 0 (Some 1) true 0 _ s1) as [r|] eqn:E2;
    [|discriminate].
  cbn [option_map] in H. injection H as <-.
  destruct (rep_match_inv _ _ _ _ _ _ _ _ _ E2)
    as (pre & s2 & l & -> & Hs & -> & _ & Hhi & Hk).
  cbn [Nat.max Nat.add] in Hhi. cbn [atom_match] in Hk.
  destruct (lit_match false (lit "://") s2) as [s3|] eqn:E3; [|discriminate].
  apply lit_match_exact in E3. subst s2.
  destruct (rep_match _ Utils.notUrlEnd 1 None true 0 _ s3) as [r3|] eqn:E4;
    [|discriminate].
  cbn [option_map] in Hk. injection Hk as <-.
  destruct (rep_match_inv _ _ _ _ _ _ _ _ _ E4)
    as (pre3 & s4 & l4 & -> & Hu & -> & Hlo & _ & Hk4).
  injection Hk4 as <-.
  assert (Hne : pre3 <> []) by (destruct pre3; [cbn in Hlo; lia|discriminate]).
  cbn [total fold_right Nat.add].
  replace (lit "http" ++ pre ++ lit "://" ++ pre3 ++ s4)
    with ((lit "http" ++ pre ++ lit "://" ++ pre3) ++ s4)
    by (rewrite <- !app_assoc; reflexivity).
  rewrite firstn_exact
    by (rewrite !length_app; cbn [length lit list_ascii_of_string]; lia).
  destruct (forallb_isChar_le1 _ _ Hs Hhi) as [->| ->].
  - split.
    + cbn [app lit list_ascii_of_string forallb]. rewrite Hu. reflexivity.
    + exists pre3. split; [exact Hne|]. left. reflexivity.
  - split.
    + cbn [app lit list_ascii_of_string forallb]. rewrite Hu. reflexivity.
    + exists pre3. split; [exact Hne|]. right. reflexivity.
Qed.

Lemma Forall_take {A} (P : A -> Prop) n :
  forall l, Forall P l -> Forall P (firstn n l).
Proof.
  induction n as [|n IH]; intros l H; [constructor|].
  destruct H as [|x l Hx Hl]; [constructor|].
  cbn [firstn]. constructor; [exact Hx|apply IH; exact Hl].
Qed.

(** X1.  For a subject that converts to a string and a string body,
    [extractKeyInfo] returns; every code it lists is a run of four to eight
    digits, no code is listed twice, and every link starts with [http://] or
    [https://], goes on for at least one character and holds no whitespace,
    [<], [>] or double quote. *)
Theorem extractKeyInfo_codes_links_shape :
  forall subject body,
    printable subject = true ->
    exists info,
      Utils.extractKeyInfo subject (VStr body) = Ok info
      /\ Forall isCode (Utils.codes info)
      /\ NoDup (Utils.codes info)
      /\ Forall isLink (Utils.links info).
Proof.
  intros subject body Hp. unfold Utils.extractKeyInfo.
  destruct (toString_printable subject Hp) as [t ->].
  cbn [toString stringMethod bind]. eexists. split; [reflexivity|].
  cbn [Utils.codes Utils.links]. rewrite !setToList_dedup.
  split; [|split].
  - apply Forall_dedup. apply (match_all_Forall _ isCode match_codes).
  - apply NoDup_dedup.
  - apply Forall_dedup. apply Forall_take.
    apply (match_all_Forall _ isLink match_url).
Qed.

Lemma extractKeyInfo_codes_links_shape_witness :
  printable (VNum 20240115) = true
  /\ exists info,
       Utils.extractKeyInfo (VNum 20240115)
         (VStr (lit "PIN 4321 at https://a.co/x")) = Ok info
       /\ Forall isCode (Utils.codes info)
       /\ NoDup (Utils.codes info)
       /\ Forall isLink (Utils.links info).
Proof.
  split; [reflexivity|].
  exact (extractKeyInfo_codes_links_shape (VNum 20240115)
           (lit "PIN 4321 at https://a.co/x") eq_refl).
Defined.

(** ** Replacements that do not lengthen *)

Lemma replace_from_length r rep :
  shrinking r rep ->
  forall s skip prev, length (replace_from r rep skip prev s) <= length s - skip.
Proof.
  intro Hs. induction s as [|c s IH]; intros skip prev.
  - destruct skip; cbn [replace_from length]; [|lia].
    destruct (match_here r prev []) as [ls|] eqn:E; [|cbn; lia].
    rewrite app_nil_r. pose proof (Hs _ _ _ E).
    pose proof (sound_match_here r _ _ _ E). cbn [length] in *. lia.
  - destruct skip.
    + rewrite replace_from_cons.
      destruct (match_here r prev (c :: s)) as [ls|] eqn:E.
      * pose proof (Hs _ _ _ E) as H1.
        pose proof (sound_match_here r _ _ _ E) as H2.
        rewrite length_app. cbn [length] in *.
        destruct (total ls) as [|n].
        -- cbn [length]. pose proof (IH 0 (Some c)). lia.
        -- pose proof (IH n (Some c)). lia.
      * cbn [length]. pose proof (IH 0 (Some c)). lia.
    + rewrite replace_from_skip. cbn [length]. pose proof (IH skip (Some c)). lia.
Qed.

Lemma replace_length r rep s :
  shrinking r rep -> length (replace r rep s) <= length s.
Proof.
  intro H. unfold replace.
  pose proof (replace_from_length r rep H s 0 None). lia.
Qed.

(** A pattern that starts with a literal matches at least the literal. *)
Lemma shrinking_literal ci cs r rep :
  length rep <= length cs -> shrinking (Lit ci cs :: r) rep.
Proof.
  intros Hl prev s ls H. cbn [match_here atom_match] in H.
  destruct (lit_match ci cs s); [|discriminate].
  destruct (match_here r _ _); [|discriminate].
  cbn [option_map] in H. injection H as <-. cbn [total fold_right]. lia.
Qed.

Lemma shrinking_spaces : shrinking re_spaces (lit " ").
Proof.
  intros prev s ls H. rewrite match_here_spaces in H.
  destruct (leading s) eqn:E; [discriminate|].
  injection H as <-. cbn. lia.
Qed.

Lemma shrinking_newline : shrinking re_newline (lit " ").
Proof.
  intros prev s ls H. unfold re_newline in H. cbn [match_here atom_match] in H.
  destruct (rep_match_inv _ _ _ _ _ _ _ _ _ H)
    as (pre & rest & l & -> & _ & -> & _ & _ & Hk).
  cbn [atom_match] in Hk.
  destruct (lit_match false [ascii_of_nat 10] rest); [|discriminate].
  cbn [match_here option_map] in Hk. injection Hk as <-. cbn. lia.
Qed.

Lemma length_trimStart s : length (trimStart s) <= length s.
Proof.
  induction s as [|c s IH]; [reflexivity|].
  cbn [trimStart]. destruct (isSpace c); cbn [length]; lia.
Qed.

Lemma length_trimEnd s : length (trimEnd s) <= length s.
Proof.
  induction s as [|c s IH]; [reflexivity|].
  cbn [trimEnd]. destruct (trimEnd s); [destruct (isSpace c)|];
    cbn [length] in *; lia.
Qed.

Lemma length_trim s : length (trim s) <= length s.
Proof.
  unfold trim. pose proof (length_trimEnd (trimStart s)).
  pose proof (length_trimStart s). lia.
Qed.

Lemma length_decodeCommon s : length (decodeCommon s) <= length s.
Proof.
  unfold decodeCommon, re_script, re_style, re_tag, re_lit.
  repeat (etransitivity;
          [apply replace_length, shrinking_literal; cbn; lia|]).
  reflexivity.
Qed.

Lemma length_decodeHex s : length (decodeHex s) <= length s.
Proof.
  unfold decodeHex, re_lit.
  repeat (etransitivity;
          [apply replace_length, shrinking_literal; cbn; lia|]).
  reflexivity.
Qed.

Lemma length_squeeze s : forall b, length (squeeze b s) <= length s.
Proof.
  induction s as [|c s IH]; intro b; [reflexivity|].
  pose proof (IH true). pose proof (IH false).
  cbn [squeeze]. destruct (isSpace c); [destruct b|]; cbn [length]; lia.
Qed.

(** X2.  In both implementations [htmlToText] never returns more
    characters than the string it was given. *)
Theorem htmlToText_not_longer :
  forall f s, In f htmlToText_impls -> length (f (VStr s)) <= length s.
Proof.
  intros f s Hf.
  pose proof (length_decodeCommon s) as H1.
  pose proof (length_decodeHex (decodeCommon s)) as H2.
  destruct Hf as [<-|[<-|[]]].
  - rewrite Utils_htmlToText_str.
    pose proof (length_trim (squeeze false (decodeCommon s))).
    pose proof (length_squeeze (decodeCommon s) false). lia.
  - rewrite Service_htmlToText_str.
    pose proof (length_trim (squeeze false (decodeHex (decodeCommon s)))).
    pose proof (length_squeeze (decodeHex (decodeCommon s)) false). lia.
Qed.

Lemma htmlToText_not_longer_witness :
  In Service.htmlToText htmlToText_impls
  /\ length (Service.htmlToText (VStr (lit "<p>Tom &amp; Jerry</p>")))
     <= length (lit "<p>Tom &amp; Jerry</p>").
Proof.
  assert (Hf : In Service.htmlToText htmlToText_impls)
    by (right; left; reflexivity).
  split; [exact Hf|].
  exact (htmlToText_not_longer Service.htmlToText
           (lit "<p>Tom &amp; Jerry</p>") Hf).
Defined.

Lemma htmlToText_not_string f v :
  In f htmlToText_impls -> isString v = false -> f v = [].
Proof.
  intros Hf H.
  destruct Hf as [<-|[<-|[]]];
    [unfold Utils.htmlToText|unfold Service.htmlToText];
    rewrite H; cbn [negb]; rewrite orb_true_r; reflexivity.
Qed.

Lemma htmlToText_output_normalized_aux v :
  tidy false (Service.htmlToText v) = true
  /\ trim (Service.htmlToText v) = Service.htmlToText v.
Proof.
  destruct (isString v) eqn:Ev.
  - destruct v as [| |b|z|s|l|o]; try discriminate.
    destruct (htmlToText_normal s) as [_ Hs]. exact Hs.
  - rewrite (htmlToText_not_string Service.htmlToText v); [split; reflexivity| |exact Ev].
    right; left; reflexivity.
Qed.

(** X3.  In both implementations the result of [htmlToText], for any
    argument, has no two whitespace characters in a row, no whitespace other
    than the space, none at either end, and no line feed. *)
Theorem htmlToText_output_normalized :
  forall f v,
    In f htmlToText_impls ->
    tidy false (f v) = true
    /\ trim (f v) = f v
    /\ hasChar LF (f v) = false.
Proof.
  intros f v Hf.
  assert (H : tidy false (f v) = true /\ trim (f v) = f v).
  { destruct (isString v) eqn:Ev.
    - destruct v as [| |b|z|s|l|o]; try discriminate.
      destruct (htmlToText_normal s) as [Hu Hs].
      destruct Hf as [<-|[<-|[]]]; assumption.
    - rewrite (htmlToText_not_string f v Hf Ev). split; reflexivity. }
  destruct H as [Ht Hm]. repeat split; try assumption.
  apply (tidy_noLF _ false Ht).
Qed.

Lemma htmlToText_output_normalized_witness :
  In Utils.htmlToText htmlToText_impls
  /\ tidy false (Utils.htmlToText (VStr (lit "  a <br>  b  "))) = true
  /\ trim (Utils.htmlToText (VStr (lit "  a <br>  b  ")))
     = Utils.htmlToText (VStr (lit "  a <br>  b  "))
  /\ hasChar LF (Utils.htmlToText (VStr (lit "  a <br>  b  "))) = false.
Proof.
  assert (Hf : In Utils.htmlToText htmlToText_impls) by (left; reflexivity).
  split; [exact Hf|].
  exact (htmlToText_output_normalized Utils.htmlToText
           (VStr (lit "  a <br>  b  ")) Hf).
Defined.

(** X4.  In both implementations [htmlToText] of a string without [<]
    and [&] is the string with every run of whitespace replaced by one space
    and the ends trimmed: nothing else is touched. *)
Theorem htmlToText_plain_text :
  forall f s,
    In f htmlToText_impls ->
    hasChar chLt s = false -> hasChar chAmp s = false ->
    f (VStr s) = trim (replace re_spaces (lit " ") s).
Proof.
  intros f s Hf Hlt Hamp. rewrite replace_spaces.
  destruct Hf as [<-|[<-|[]]].
  - rewrite Utils_htmlToText_str, (decodeCommon_plain _ Hlt Hamp). reflexivity.
  - rewrite Service_htmlToText_str, (decodeCommon_plain _ Hlt Hamp),
      (decodeHex_plain _ Hamp). reflexivity.
Qed.

Lemma htmlToText_plain_text_witness :
  In Service.htmlToText htmlToText_impls
  /\ hasChar chLt (lit " see  you > soon ") = false
  /\ hasChar chAmp (lit " see  you > soon ") = false
  /\ Service.htmlToText (VStr (lit " see  you > soon "))
     = trim (replace re_spaces (lit " ") (lit " see  you > soon ")).
Proof.
  assert (Hf : In Service.htmlToText htmlToText_impls)
    by (right; left; reflexivity).
  repeat (split; [first [assumption | reflexivity]|]).
  apply (htmlToText_plain_text Service.htmlToText (lit " see  you > soon ") Hf);
    reflexivity.
Defined.

(** ** Previews *)

Lemma tidy_firstn n : forall s b, tidy b s = true -> tidy b (firstn n s) = true.
Proof.
  induction n as [|n IH]; intros s b H; [reflexivity|].
  destruct s as [|c s]; [reflexivity|].
  cbn [firstn tidy] in *. destruct (isSpace c).
  - apply andb_true_iff in H. destruct H as [H1 H2].
    rewrite H1. apply IH. exact H2.
  - apply IH. exact H.
Qed.

Lemma tidy_app_solid t :
  startsSolid t = true -> tidy false t = true ->
  forall s b, tidy b s = true -> tidy b (s ++ t) = true.
Proof.
  intros Hs Ht. induction s as [|c s IH]; intros b H.
  - cbn [app]. destruct t as [|x t]; [reflexivity|].
    cbn [startsSolid] in Hs. apply negb_true_iff in Hs.
    cbn [tidy] in *. rewrite Hs in *. exact Ht.
  - cbn [app tidy] in *. destruct (isSpace c).
    + apply andb_true_iff in H. destruct H as [H1 H2].
      rewrite H1. apply IH. exact H2.
    + apply IH. exact H.
Qed.

Lemma cleanContent_tidy content :
  tidy false (Service.cleanContent content) = true
  /\ trim (Service.cleanContent content) = Service.cleanContent content.
Proof.
  unfold Service.cleanContent. rewrite replace_spaces. split.
  - apply (tidy_trim _ false), tidy_squeeze.
  - apply trim_idem.
Qed.

Lemma cleanContent_same content :
  Utils.cleanContent content = Service.cleanContent content.
Proof. reflexivity. Qed.

Lemma truncated_tidy content maxLength :
  tidy false content = true ->
  tidy false (substring0 content maxLength ++ lit "...") = true.
Proof.
  intro H. unfold substring0.
  apply tidy_app_solid; [reflexivity|reflexivity|].
  apply tidy_firstn. exact H.
Qed.

(** X5.  A preview of the service, for any arguments and any maximal
    length, is a non-empty single line whose whitespace is single spaces; so
    is, but for emptiness, a preview of the utilities. *)
Theorem generatePreview_single_line :
  forall a b maxLength,
    tidy false (Service.generatePreview a b maxLength) = true
    /\ Service.generatePreview a b maxLength <> []
    /\ tidy false (Utils.generatePreview a b maxLength) = true.
Proof.
  intros a b m. split; [|split].
  - unfold Service.generatePreview.
    destruct (Service.selectContent a b) as [|x content]; [reflexivity|].
    destruct (cleanContent_tidy (x :: content)) as [Ht _].
    destruct (_ >? m)%Z; [apply truncated_tidy; exact Ht|].
    destruct (Service.cleanContent (x :: content)); [reflexivity|exact Ht].
  - unfold Service.generatePreview.
    destruct (Service.selectContent a b) as [|x content]; [discriminate|].
    destruct (_ >? m)%Z.
    + intro H. apply (f_equal (@length ascii)) in H.
      rewrite length_app in H. cbn [length lit list_ascii_of_string] in H. lia.
    + destruct (Service.cleanContent (x :: content)); discriminate.
  - unfold Utils.generatePreview.
    destruct (Utils.selectContent a b) as [|x content]; [reflexivity|].
    rewrite cleanContent_same.
    destruct (cleanContent_tidy (x :: content)) as [Ht _].
    destruct (_ >? m)%Z; [apply truncated_tidy; exact Ht|exact Ht].
Qed.

(** ** Invariants of the normalized record *)

Lemma processEmail_fields email s :
  plainTextOf email = VStr s ->
  exists n,
    Service.processEmail email = Ok n
    /\ Service.plainTextBody n = VStr s
    /\ Service.htmlBody n = htmlContentOf email
    /\ Service.contentLength n = VNum (Z.of_nat (length s))
    /\ Service.preview n
       = Service.generatePreview (htmlContentOf email) (VStr s) 200
    /\ Service.wordCount n
       = Z.of_nat (length (filter nonEmptyWord (split (ch " ") s)))
    /\ Service.subject n
       = jsOr (get email (lit "subject")) (VStr (lit "No Subject")).
Proof.
  intro H. unfold plainTextOf in H. unfold Service.processEmail, htmlContentOf.
  rewrite H. cbn [Service.countWords stringMethod bind].
  eexists. split; [reflexivity|]. repeat split.
Qed.

Lemma countTokens_half sep s :
  forall b, 2 * countTokens sep b s <= length s + (if b then 0 else 1).
Proof.
  induction s as [|c s IH]; intro b.
  - cbn. destruct b; lia.
  - cbn [countTokens length]. pose proof (IH true). pose proof (IH false).
    destruct (sep c), b; cbn [Nat.add] in *; lia.
Qed.

Lemma generatePreview_200 a b :
  1 <= length (Service.generatePreview a b 200) <= 203.
Proof.
  unfold Service.generatePreview.
  destruct (Service.selectContent a b) as [|x content]; [cbn; lia|].
  destruct (Z.gtb_spec
              (Z.of_nat (length (Service.cleanContent (x :: content)))) 200)
    as [Hgt|Hle].
  - unfold substring0. rewrite length_app, length_firstn.
    cbn [length lit list_ascii_of_string]. lia.
  - destruct (Service.cleanContent (x :: content)) as [|y t]; [cbn; lia|].
    cbn [length] in *. lia.
Qed.

(** X6.  For a record whose [body_plain] is absent, falsy or a string,
    [processEmail] returns a record whose [plainTextBody] is a string,
    whose [contentLength] is the length of that string, whose [wordCount]
    is at most half of that length plus one, rounded down, whose preview has
    between 1 and 203 characters, and whose subject is truthy. *)
Theorem processEmail_record_invariants :
  forall email,
    plainBodySane email ->
    exists n s,
      Service.processEmail email = Ok n
      /\ Service.plainTextBody n = VStr s
      /\ Service.contentLength n = VNum (Z.of_nat (length s))
      /\ (2 * Service.wordCount n <= Z.of_nat (length s) + 1)%Z
      /\ 1 <= length (Service.preview n) <= 203
      /\ truthy (Service.subject n) = true.
Proof.
  intros email Hsane.
  destruct (plainTextOf_sane email Hsane) as [s Hs].
  destruct (processEmail_fields email s Hs)
    as (n & Hn & Hp & _ & Hc & Hv & Hw & Hj).
  exists n, s. split; [exact Hn|]. split; [exact Hp|]. split; [exact Hc|].
  split; [|split].
  - rewrite Hw, wordCount_countTokens.
    pose proof (countTokens_half (isChar (ch " ")) s false) as Hh.
    cbv iota in Hh. lia.
  - rewrite Hv. apply generatePreview_200.
  - rewrite Hj. unfold jsOr.
    destruct (truthy (get email (lit "subject"))) eqn:E; [exact E|reflexivity].
Qed.

Lemma processEmail_record_invariants_witness :
  plainBodySane tabbedRecord
  /\ exists n s,
      Service.processEmail tabbedRecord = Ok n
      /\ Service.plainTextBody n = VStr s
      /\ Service.contentLength n = VNum (Z.of_nat (length s))
      /\ (2 * Service.wordCount n <= Z.of_nat (length s) + 1)%Z
      /\ 1 <= length (Service.preview n) <= 203
      /\ truthy (Service.subject n) = true.
Proof.
  assert (H : plainBodySane tabbedRecord) by (right; reflexivity).
  split; [exact H|].
  exact (processEmail_record_invariants tabbedRecord H).
Defined.

(** X7.  [processEmail] returns exactly for the records whose
    [body_plain] is absent, falsy or a string; for every other record it
    throws. *)
Theorem processEmail_returns_iff :
  forall email,
    (exists n, Service.processEmail email = Ok n) <-> plainBodySane email.
Proof.
  intro email. split.
  - intros [n Hn]. unfold plainBodySane.
    destruct (truthy (get email (lit "body_plain"))) eqn:Et;
      [|left; reflexivity].
    destruct (isString (get email (lit "body_plain"))) eqn:Es;
      [right; reflexivity|].
    exfalso.
    destruct (processEmail_not_string email) as [msg Hm]; [|congruence].
    unfold plainTextOf, jsOr. rewrite Et. exact Es.
  - intro Hsane. destruct (plainTextOf_sane email Hsane) as [s Hs].
    destruct (processEmail_fields email s Hs) as (n & Hn & _).
    exists n. exact Hn.
Qed.

Lemma countTokens_tidy s :
  forall b inToken,
    tidy b s = true ->
    countTokens isSpace inToken s = countTokens (isChar (ch " ")) inToken s.
Proof.
  induction s as [|c s IH]; intros b inToken H; [reflexivity|].
  cbn [countTokens tidy] in *. unfold isChar at 1.
  destruct (isSpace c) eqn:Ec.
  - apply andb_true_iff in H. destruct H as [H1 H2].
    apply andb_true_iff in H1. destruct H1 as [_ H1]. rewrite H1.
    apply (IH true). exact H2.
  - destruct (ascii_eqb c (ch " ")) eqn:E.
    + apply ascii_eqb_eq in E. subst c. discriminate.
    + f_equal. apply (IH false). exact H.
Qed.

Lemma selectContent_decoded hc :
  Service.selectContent hc (VStr (Service.htmlToText hc))
  = Service.htmlToText hc.
Proof.
  unfold Service.selectContent. cbn [isString asStr].
  destruct (truthy (VStr (Service.htmlToText hc))
            && true && (10 <? length (Service.htmlToText hc))); [reflexivity|].
  destruct (truthy hc && isString hc) eqn:E; [reflexivity|].
  unfold Service.htmlToText.
  apply andb_false_iff in E. destruct E as [E|E]; rewrite E; cbn [negb orb];
    [reflexivity|rewrite orb_true_r; reflexivity].
Qed.

Lemma cleanContent_fixed d :
  tidy false d = true -> trim d = d -> Service.cleanContent d = d.
Proof.
  intros Ht Hm. unfold Service.cleanContent.
  unfold replace at 2.
  rewrite (replace_newline_noLF _ _ (tidy_noLF _ _ Ht)).
  rewrite replace_spaces, (squeeze_tidy _ _ Ht). exact Hm.
Qed.

Lemma generatePreview_decoded hc :
  Service.generatePreview hc (VStr (Service.htmlToText hc)) 200
  = previewOfClean (Service.htmlToText hc).
Proof.
  unfold Service.generatePreview, previewOfClean.
  rewrite selectContent_decoded.
  assert (Hf : In Service.htmlToText htmlToText_impls)
    by (right; left; reflexivity).
  destruct (htmlToText_output_normalized_aux hc) as [Ht Hm].
  destruct (Service.htmlToText hc) as [|x d] eqn:E; [reflexivity|].
  rewrite (cleanContent_fixed _ Ht Hm).
  destruct (Z.gtb_spec (Z.of_nat (length (x :: d))) 200) as [Hgt|Hle].
  - destruct (Nat.leb_spec (length (x :: d)) 200); [lia|reflexivity].
  - destruct (Nat.leb_spec (length (x :: d)) 200); [reflexivity|lia].
Qed.

(** X8.  For a record without a truthy [body_plain], [processEmail]
    takes the plain text from the HTML body: [plainTextBody] is
    [htmlToText] of the body, the preview is that text cut at 200 characters
    (or the sentinel when it is empty), and the word count is the number of
    its words. *)
Theorem processEmail_html_only :
  forall email,
    truthy (get email (lit "body_plain")) = false ->
    exists n,
      Service.processEmail email = Ok n
      /\ Service.plainTextBody n
         = VStr (Service.htmlToText (htmlContentOf email))
      /\ Service.preview n
         = previewOfClean (Service.htmlToText (htmlContentOf email))
      /\ Service.wordCount n
         = Z.of_nat (countTokens isSpace false
                       (Service.htmlToText (htmlContentOf email))).
Proof.
  intros email Hf.
  assert (Hs : plainTextOf email
               = VStr (Service.htmlToText (htmlContentOf email)))
    by (unfold plainTextOf, jsOr; rewrite Hf; reflexivity).
  destruct (processEmail_fields email _ Hs)
    as (n & Hn & Hp & _ & _ & Hv & Hw & _).
  exists n. split; [exact Hn|]. split; [exact Hp|]. split.
  - rewrite Hv. apply generatePreview_decoded.
  - rewrite Hw, wordCount_countTokens.
    destruct (htmlToText_output_normalized_aux (htmlContentOf email)) as [Ht _].
    rewrite (countTokens_tidy _ false false Ht). reflexivity.
Qed.

Lemma processEmail_html_only_witness :
  truthy (get [(lit "body", VStr (lit "<p>Hi <b>there</b></p>"))]
              (lit "body_plain")) = false
  /\ exists n,
      Service.processEmail [(lit "body", VStr (lit "<p>Hi <b>there</b></p>"))]
      = Ok n
      /\ Service.plainTextBody n
         = VStr (Service.htmlToText
                   (htmlContentOf
                      [(lit "body", VStr (lit "<p>Hi <b>there</b></p>"))]))
      /\ Service.preview n
         = previewOfClean
             (Service.htmlToText
                (htmlContentOf
                   [(lit "body", VStr (lit "<p>Hi <b>there</b></p>"))]))
      /\ Service.wordCount n
         = Z.of_nat
             (countTokens isSpace false
                (Service.htmlToText
                   (htmlContentOf
                      [(lit "body", VStr (lit "<p>Hi <b>there</b></p>"))]))).
Proof.
  split; [reflexivity|].
  exact (processEmail_html_only
           [(lit "body", VStr (lit "<p>Hi <b>there</b></p>"))] eq_refl).
Defined.

(** ** Repetitions that run through a stretch *)

Lemma rep_match_deadRun k cls s :
  deadRun k cls s ->
  forall lo hi greedy n prev, rep_match k cls lo hi greedy n prev s = None.
Proof.
  induction s as [|c s IH]; intros Hd lo hi greedy n prev.
  - destruct Hd as [Hk _]. cbn [rep_match]. rewrite Hk.
    destruct (lo <=? n); reflexivity.
  - destruct Hd as [Hk Hd]. cbn [rep_match]. rewrite Hk.
    assert (Hstop : (if lo <=? n then option_map (cons n) None else None)
                    = @None (list nat)) by (destruct (lo <=? n); reflexivity).
    rewrite Hstop.
    destruct (cls c); [|reflexivity].
    rewrite (IH Hd). destruct (below hi n), greedy; reflexivity.
Qed.

Section Through.

Variables (k : option ascii -> str -> option (list nat)) (cls : ascii -> bool).
Variables (lo : nat) (r : str).

(** A lazy repetition goes on while the continuation fails. *)
Lemma rep_lazy_through a :
  forallb cls a = true ->
  (forall a1 c a2 prev, a = a1 ++ c :: a2 -> k prev (c :: a2 ++ r) = None) ->
  forall n prev,
    rep_match k cls lo None false n prev (a ++ r)
    = rep_match k cls lo None false (n + length a) (lastOf prev a) r.
Proof.
  induction a as [|c a IH]; intros Hc Hk n prev.
  - cbn [app length lastOf fold_left]. rewrite Nat.add_0_r. reflexivity.
  - cbn [forallb] in Hc. apply andb_true_iff in Hc. destruct Hc as [Hc Ha].
    cbn [app rep_match below]. rewrite Hc.
    rewrite (Hk [] c a prev eq_refl).
    assert (Hstop : (if lo <=? n then option_map (cons n) None else None)
                    = @None (list nat)) by (destruct (lo <=? n); reflexivity).
    rewrite Hstop. cbn [andb orElse].
    rewrite IH.
    + cbn [length lastOf fold_left]. rewrite Nat.add_succ_r. reflexivity.
    + exact Ha.
    + intros a1 c' a2 prev' E. apply (Hk (c :: a1) c' a2 prev').
      rewrite E. reflexivity.
Qed.

(** ... and stops where it succeeds. *)
Lemma rep_lazy_stop hi n prev s ls :
  lo <= n -> k prev s = Some ls ->
  rep_match k cls lo hi false n prev s = Some (n :: ls).
Proof.
  intros Hlo Hk. apply Nat.leb_le in Hlo.
  destruct s as [|c s]; cbn [rep_match]; rewrite Hlo, Hk; cbn [option_map];
    [reflexivity|].
  destruct (cls c && below hi n); reflexivity.
Qed.

(** A greedy repetition succeeds when the continuation does behind a
    stretch of its class. *)
Lemma rep_greedy_some a :
  forallb cls a = true ->
  forall n prev,
    lo <= n + length a ->
    k (lastOf prev a) r <> None ->
    rep_match k cls lo None true n prev (a ++ r) <> None.
Proof.
  induction a as [|c a IH]; intros Hc n prev Hlo Hk.
  - cbn [app length lastOf fold_left] in *. rewrite Nat.add_0_r in Hlo.
    apply Nat.leb_le in Hlo.
    destruct r as [|c r']; cbn [rep_match]; rewrite Hlo.
    + destruct (k prev []); [discriminate|congruence].
    + destruct (k prev (c :: r')) as [ls|] eqn:E; [|congruence].
      cbn [option_map].
      destruct (cls c && below None n); [|discriminate].
      unfold orElse. destruct (rep_match _ _ _ _ _ _ _ _); discriminate.
  - cbn [forallb] in Hc. apply andb_true_iff in Hc. destruct Hc as [Hc Ha].
    cbn [app rep_match below]. rewrite Hc. cbn [andb].
    cbn [length lastOf fold_left] in *.
    specialize (IH Ha (S n) (Some c)).
    unfold orElse.
    destruct (rep_match k cls lo None true (S n) (Some c) (a ++ r));
      [discriminate|].
    exfalso. apply IH; [lia|exact Hk|reflexivity].
Qed.

End Through.

Lemma option_map_some {A B} (f : A -> B) x :
  x <> None -> option_map f x <> None.
Proof. destruct x; [discriminate|congruence]. Qed.

(** ** The bracketed pattern on [Name <address>] *)

Lemma trimEnd_tail c s : trimEnd (c :: s) = c :: s -> trimEnd s = s.
Proof.
  cbn [trimEnd]. destruct (trimEnd s) as [|y t].
  - destruct (isSpace c); [discriminate|]. intro H. injection H as <-.
    reflexivity.
  - intro H. injection H as <-. reflexivity.
Qed.

Lemma trimEnd_suffix a :
  forall t, trimEnd (a ++ t) = a ++ t -> trimEnd t = t.
Proof.
  induction a as [|c a IH]; intros t H; [exact H|].
  apply IH. apply (trimEnd_tail c). exact H.
Qed.

Lemma deadRun_name cs r0 r :
  forall t,
    t <> [] -> trimEnd t = t -> hasChar chLt t = false ->
    deadRun (match_here (Lit false (chLt :: cs) :: r0)) isSpace (t ++ r).
Proof.
  induction t as [|c t IH]; intros Hne Ht Hlt; [congruence|].
  unfold hasChar in Hlt. cbn [existsb] in Hlt.
  apply orb_false_iff in Hlt. destruct Hlt as [Hc Hlt].
  cbn [app deadRun]. split.
  - intro prev. apply match_here_head_miss. exact Hc.
  - destruct (isSpace c) eqn:Ec; [|exact I].
    destruct t as [|d t].
    + cbn [trimEnd] in Ht. rewrite Ec in Ht. discriminate.
    + apply IH; [discriminate|apply (trimEnd_tail c); exact Ht|exact Hlt].
Qed.

Lemma solid_isDot s : solid s = true -> forallb isDot s = true.
Proof.
  unfold solid. induction s as [|c s IH]; cbn [forallb]; intro H;
    [reflexivity|].
  apply andb_true_iff in H. destruct H as [Hc Hs]. rewrite (IH Hs).
  rewrite andb_true_r.
  destruct c as [[] [] [] [] [] [] [] []]; try reflexivity; discriminate.
Qed.

Lemma match_address prev addr :
  mailbox addr ->
  match_here [Rep isDot 1 None false; Lit false (lit ">")] prev
    (addr ++ lit ">")
  = Some [length addr; 1].
Proof.
  intros (Hne & Hs & Hgt). cbn [match_here atom_match].
  rewrite rep_lazy_through.
  - apply rep_lazy_stop; [|reflexivity].
    destruct addr; [congruence|cbn [length]; lia].
  - apply solid_isDot. exact Hs.
  - intros a1 c a2 p E.
    change (match_here [Lit false (chGt :: [])] p (c :: a2 ++ lit ">") = None).
    apply match_here_head_miss. cbn [chr_match].
    assert (H : hasChar chGt (a1 ++ c :: a2) = false) by (rewrite <- E; exact Hgt).
    rewrite hasChar_app in H. apply orb_false_iff in H. destruct H as [_ H].
    unfold hasChar in H. cbn [existsb] in H. apply orb_false_iff in H. apply H.
Qed.

Lemma match_bracket_tail prev addr :
  mailbox addr ->
  match_here [Rep isSpace 0 None true; Lit false (lit "<");
              Rep isDot 1 None false; Lit false (lit ">")] prev
    (lit " <" ++ addr ++ lit ">")
  = Some [1; 1; length addr; 1].
Proof.
  intro H.
  pose proof (match_address (Some chLt) addr H) as Ha.
  cbn [match_here] in Ha |- *.
  cbn [lit list_ascii_of_string app atom_match rep_match isSpace code
       N_of_ascii N_of_digits] in *.
  cbn. cbn in Ha. rewrite Ha. reflexivity.
Qed.

Lemma match_bracketed name addr :
  displayName name -> mailbox addr ->
  match_here re_bracketed None (name ++ lit " <" ++ addr ++ lit ">")
  = Some [length name; 1; 1; length addr; 1].
Proof.
  intros (Hdot & Hlt & _ & _ & Hend) Hm.
  change (match_here re_bracketed)
    with (atom_match
            (match_here [Rep isSpace 0 None true; Lit false (lit "<");
                         Rep isDot 1 None false; Lit false (lit ">")])
            (Rep isDot 0 None false)).
  cbn [atom_match]. rewrite rep_lazy_through.
  - apply rep_lazy_stop; [lia|]. apply match_bracket_tail. exact Hm.
  - exact Hdot.
  - intros a1 c a2 prev E.
    change (rep_match
              (match_here [Lit false (chLt :: []); Rep isDot 1 None false;
                           Lit false (lit ">")])
              isSpace 0 None true 0 prev
              ((c :: a2) ++ lit " <" ++ addr ++ lit ">") = None).
    apply rep_match_deadRun. apply deadRun_name.
    + discriminate.
    + apply (trimEnd_suffix a1). rewrite <- E. exact Hend.
    + rewrite E, hasChar_app in Hlt. apply orb_false_iff in Hlt. apply Hlt.
Qed.

Lemma skipn_length_app {A} (a b : list A) n :
  skipn (length a + n) (a ++ b) = skipn n b.
Proof. induction a as [|x a IH]; [reflexivity|exact IH]. Qed.

Lemma solid_trim s : solid s = true -> trim s = s.
Proof.
  intro H. unfold trim.
  assert (Hs : trimStart s = s).
  { destruct s as [|c s]; [reflexivity|].
    unfold solid in H. cbn [forallb] in H. apply andb_true_iff in H.
    destruct H as [Hc _]. apply negb_true_iff in Hc.
    cbn [trimStart]. rewrite Hc. reflexivity. }
  rewrite Hs. clear Hs. induction s as [|c s IH]; [reflexivity|].
  unfold solid in H. cbn [forallb] in H. apply andb_true_iff in H.
  destruct H as [Hc Hs]. apply negb_true_iff in Hc.
  rewrite trimEnd_solid by exact Hc. rewrite (IH Hs). reflexivity.
Qed.

Lemma bracketed_groups name addr :
  displayName name -> mailbox addr ->
  let s := name ++ lit " <" ++ addr ++ lit ">" in
  exists m,
    search re_bracketed s = Some m
    /\ trim (group s m 3) = addr
    /\ replace [Lit false [ascii_of_nat 34]] [] (trim (group s m 0)) = name.
Proof.
  intros Hn Hm s.
  pose proof (match_bracketed name addr Hn Hm) as Hmatch. fold s in Hmatch.
  exists (0, [length name; 1; 1; length addr; 1]).
  split; [|split].
  - unfold search. destruct s; cbn [search_from]; rewrite Hmatch; reflexivity.
  - unfold group, substr. cbn [fst snd firstn total fold_right nth Nat.add].
    unfold s.
    replace (length name + (1 + (1 + 0))) with (length name + 2) by lia.
    rewrite skipn_length_app. cbn [lit list_ascii_of_string app skipn].
    rewrite firstn_exact by reflexivity.
    destruct Hm as (_ & Hs & _). apply solid_trim. exact Hs.
  - unfold group, substr. cbn [fst snd firstn total fold_right nth Nat.add skipn].
    unfold s. rewrite firstn_exact by reflexivity.
    destruct Hn as (_ & _ & Hq & Hstart & Hend).
    unfold trim. rewrite (trimStart_startsSolid _ Hstart), Hend.
    apply replace_clean. apply hasChar_clean. exact Hq.
Qed.

(** X9.  In both implementations, [extractSender] of [name <addr>]
    gives back [addr] as the email and [name] as the name, for a one-line
    name without [<], double quotes and outer whitespace and a non-empty
    address without whitespace and [>]. *)
Theorem extractSender_bracketed_round_trip :
  forall f name addr,
    In f extractSender_impls ->
    displayName name -> mailbox addr ->
    f (VStr (name ++ lit " <" ++ addr ++ lit ">"))
    = {| Identity.email := VStr addr; Identity.name := VStr name |}.
Proof.
  intros f name addr Hf Hn Hm.
  destruct (bracketed_groups name addr Hn Hm) as (m & Hs & He & Hg).
  assert (Ht : truthy (VStr (name ++ lit " <" ++ addr ++ lit ">")) = true)
    by (destruct name; reflexivity).
  destruct Hf as [<-|[<-|[]]].
  - unfold Utils.extractSender. rewrite Ht.
    cbn [negb isString asStr]. rewrite Hs, He, Hg. reflexivity.
  - unfold Service.extractSender. rewrite Ht.
    cbn [negb isObject typeof isString asStr]. rewrite Hs, He, Hg. reflexivity.
Qed.

Lemma extractSender_bracketed_round_trip_witness :
  In Service.extractSender extractSender_impls
  /\ displayName (lit "John Doe") /\ mailbox (lit "john@example.com")
  /\ Service.extractSender
       (VStr (lit "John Doe" ++ lit " <" ++ lit "john@example.com" ++ lit ">"))
     = {| Identity.email := VStr (lit "john@example.com");
          Identity.name := VStr (lit "John Doe") |}.
Proof.
  assert (Hf : In Service.extractSender extractSender_impls)
    by (right; left; reflexivity).
  assert (Hn : displayName (lit "John Doe")) by (repeat split).
  assert (Hm : mailbox (lit "john@example.com"))
    by (split; [discriminate|split; reflexivity]).
  split; [exact Hf|]. split; [exact Hn|]. split; [exact Hm|].
  exact (extractSender_bracketed_round_trip Service.extractSender
           (lit "John Doe") (lit "john@example.com") Hf Hn Hm).
Defined.

(** ** Single addresses *)

Lemma notSpaceAt_solid p : forallb notSpaceAt p = true -> solid p = true.
Proof.
  unfold solid. induction p as [|c p IH]; cbn [forallb]; intro H;
    [reflexivity|].
  apply andb_true_iff in H. destruct H as [Hc Hp]. rewrite (IH Hp).
  rewrite andb_true_r. unfold notSpaceAt in Hc.
  apply negb_true_iff, orb_false_iff in Hc. destruct Hc as [Hc _].
  rewrite Hc. reflexivity.
Qed.

Lemma solid_app a b : solid (a ++ b) = solid a && solid b.
Proof. unfold solid. apply forallb_app. Qed.

Lemma match_emailRegex local dom tld :
  addressPart local -> addressPart dom -> addressPart tld ->
  match_here emailRegex None (local ++ lit "@" ++ dom ++ lit "." ++ tld)
  <> None.
Proof.
  intros (Hl0 & Hl & _) (Hd0 & Hd & _) (Ht0 & Ht & _).
  unfold emailRegex. cbn [match_here atom_match].
  apply option_map_some.
  apply rep_greedy_some; [exact Hl|destruct local; [congruence|cbn; lia]|].
  cbn [lit list_ascii_of_string app atom_match lit_match chr_match].
  rewrite ascii_eqb_refl. apply option_map_some.
  apply rep_greedy_some; [exact Hd|destruct dom; [congruence|cbn; lia]|].
  cbn [app atom_match lit_match chr_match].
  rewrite ascii_eqb_refl. apply option_map_some.
  rewrite <- (app_nil_r tld).
  apply rep_greedy_some; [exact Ht|destruct tld; [congruence|cbn; lia]|].
  discriminate.
Qed.

(** X10.  In both implementations, [extractSender] of a string
    [local@domain.tld], whose three parts are non-empty and hold no
    whitespace, [@] or [<], gives the whole string as the email and the empty
    name. *)
Theorem extractSender_single_address :
  forall f local dom tld,
    In f extractSender_impls ->
    addressPart local -> addressPart dom -> addressPart tld ->
    f (VStr (local ++ lit "@" ++ dom ++ lit "." ++ tld))
    = {| Identity.email := VStr (local ++ lit "@" ++ dom ++ lit "." ++ tld);
         Identity.name := VStr [] |}.
Proof.
  intros f local dom tld Hf Hl Hd Ht.
  pose proof (match_emailRegex local dom tld Hl Hd Ht) as Hm.
  set (s := local ++ lit "@" ++ dom ++ lit "." ++ tld) in *.
  assert (Hsolid : solid s = true).
  { unfold s. rewrite !solid_app.
    destruct Hl as (_ & Hl & _), Hd as (_ & Hd & _), Ht as (_ & Ht & _).
    rewrite (notSpaceAt_solid _ Hl), (notSpaceAt_solid _ Hd),
      (notSpaceAt_solid _ Ht). reflexivity. }
  assert (Hlt : hasChar chLt s = false).
  { unfold s. rewrite !hasChar_app.
    destruct Hl as (_ & _ & Hl), Hd as (_ & _ & Hd), Ht as (_ & _ & Ht).
    rewrite Hl, Hd, Ht. reflexivity. }
  assert (Htruthy : truthy (VStr s) = true)
    by (unfold s; destruct local; [destruct Hl; congruence|reflexivity]).
  assert (Htest : test emailRegex s = true).
  { unfold test, search. destruct s; cbn [search_from];
      destruct (match_here emailRegex None _); congruence. }
  destruct Hf as [<-|[<-|[]]].
  - unfold Utils.extractSender. rewrite Htruthy.
    cbn [negb isString asStr].
    rewrite (search_bracketed_none _ Hlt), (solid_trim _ Hsolid). reflexivity.
  - unfold Service.extractSender. rewrite Htruthy.
    cbn [negb isObject typeof isString asStr].
    rewrite (search_bracketed_none _ Hlt), (solid_trim _ Hsolid), Htest.
    reflexivity.
Qed.

Lemma extractSender_single_address_witness :
  In Service.extractSender extractSender_impls
  /\ addressPart (lit "jane.doe") /\ addressPart (lit "mail.example")
  /\ addressPart (lit "com")
  /\ Service.extractSender
       (VStr (lit "jane.doe" ++ lit "@" ++ lit "mail.example" ++ lit "."
              ++ lit "com"))
     = {| Identity.email :=
            VStr (lit "jane.doe" ++ lit "@" ++ lit "mail.example" ++ lit "."
                  ++ lit "com");
          Identity.name := VStr [] |}.
Proof.
  assert (Hf : In Service.extractSender extractSender_impls)
    by (right; left; reflexivity).
  assert (H1 : addressPart (lit "jane.doe"))
    by (split; [discriminate|split; reflexivity]).
  assert (H2 : addressPart (lit "mail.example"))
    by (split; [discriminate|split; reflexivity]).
  assert (H3 : addressPart (lit "com"))
    by (split; [discriminate|split; reflexivity]).
  split; [exact Hf|]. split; [exact H1|]. split; [exact H2|].
  split; [exact H3|].
  exact (extractSender_single_address Service.extractSender
           (lit "jane.doe") (lit "mail.example") (lit "com") Hf H1 H2 H3).
Defined.

(** X11.  The two copies of [extractSender] return the same identity for
    every argument that is not an unstructured string and whose keys [mail],
    [displayName], [full_name], [fullName] are absent or falsy. *)
Theorem extractSender_impls_agree :
  forall v,
    serviceKeysFalsy v ->
    (isString v = true ->
     search re_bracketed (asStr v) <> None
     \/ test emailRegex (trim (asStr v)) = true) ->
    Service.extractSender v = Utils.extractSender v.
Proof.
  intros v (Hmail & Hdn & Hfn & HfN) Hstr.
  destruct v as [| |b|z|s|l|o]; try reflexivity.
  - unfold Service.extractSender, Utils.extractSender.
    destruct (truthy (VStr s)); [|reflexivity].
    cbn [negb isObject typeof isString asStr] in *.
    destruct (search re_bracketed s) as [m|]; [reflexivity|].
    destruct (Hstr eq_refl) as [H|H]; [congruence|].
    rewrite H. reflexivity.
  - unfold Service.extractSender, Utils.extractSender.
    cbn [truthy negb isObject typeof isString].
    unfold jsOr. rewrite Hmail, Hdn, Hfn, HfN.
    repeat match goal with
           | |- context [if truthy ?x then _ else _] => destruct (truthy x)
           end; reflexivity.
Qed.

Lemma extractSender_impls_agree_witness :
  serviceKeysFalsy (VStr (lit "jane@example.com"))
  /\ (isString (VStr (lit "jane@example.com")) = true ->
      search re_bracketed (asStr (VStr (lit "jane@example.com"))) <> None
      \/ test emailRegex (trim (asStr (VStr (lit "jane@example.com"))))
         = true)
  /\ Service.extractSender (VStr (lit "jane@example.com"))
     = Utils.extractSender (VStr (lit "jane@example.com")).
Proof.
  assert (H1 : serviceKeysFalsy (VStr (lit "jane@example.com")))
    by (repeat split).
  assert (H2 : isString (VStr (lit "jane@example.com")) = true ->
      search re_bracketed (asStr (VStr (lit "jane@example.com"))) <> None
      \/ test emailRegex (trim (asStr (VStr (lit "jane@example.com"))))
         = true) by (intros _; right; reflexivity).
  split; [exact H1|]. split; [exact H2|].
  exact (extractSender_impls_agree (VStr (lit "jane@example.com")) H1 H2).
Defined.

(** ** More on categories *)

Lemma stringMethod_not_sane v :
  ~ stringOrFalsy v -> exists msg, stringMethod (jsOr v (VStr [])) = Throw msg.
Proof.
  intro H. unfold stringOrFalsy in H. unfold jsOr.
  destruct (truthy v) eqn:Et; [|exfalso; apply H; left; reflexivity].
  destruct v; try (eexists; reflexivity); try discriminate.
  exfalso. apply H. right. reflexivity.
Qed.

Lemma stringOrFalsy_dec v : stringOrFalsy v \/ ~ stringOrFalsy v.
Proof.
  unfold stringOrFalsy.
  destruct (truthy v); [|left; left; reflexivity].
  destruct (isString v); [left; right; reflexivity|].
  right. intros [H|H]; discriminate.
Qed.

Lemma toString_stringOrFalsy v :
  stringOrFalsy v -> exists s, toString v = Ok s.
Proof.
  intros [H|H]; destruct v as [| |[|]|z|s|l|o];
    try discriminate; eexists; reflexivity.
Qed.

Lemma categorizeEmail_sane subject sender body :
  stringOrFalsy subject -> stringOrFalsy sender -> stringOrFalsy body ->
  exists label,
    Utils.categorizeEmail subject sender body = Ok label
    /\ In label categoryLabels.
Proof.
  intros H1 H2 H3. unfold Utils.categorizeEmail.
  rewrite (stringMethod_textOf _ H1), (stringMethod_textOf _ H2),
    (stringMethod_textOf _ H3).
  cbn [bind]. destruct (toString_stringOrFalsy subject H1) as [t Ht].
  rewrite (testValue_or Utils.re_sixDigits subject t _ _ Ht).
  unfold categoryLabels.
  repeat match goal with
         | |- context [if ?c then _ else _] => destruct c
         end;
    eexists; (split; [reflexivity|cbn [In]; tauto]).
Qed.

(** X12.  [categorizeEmail] returns exactly when each of subject,
    sender and body is a string or falsy, and what it returns is one of the
    five labels. *)
Theorem categorizeEmail_returns_iff :
  forall subject sender body,
    ((exists label, Utils.categorizeEmail subject sender body = Ok label)
     <-> (stringOrFalsy subject /\ stringOrFalsy sender /\ stringOrFalsy body))
    /\ (forall label,
          Utils.categorizeEmail subject sender body = Ok label ->
          In label categoryLabels).
Proof.
  intros subject sender body.
  assert (Hthrow :
    ~ (stringOrFalsy subject /\ stringOrFalsy sender /\ stringOrFalsy body) ->
    exists msg, Utils.categorizeEmail subject sender body = Throw msg).
  { intro Hn. unfold Utils.categorizeEmail.
    destruct (stringOrFalsy_dec subject) as [H1|H1];
      [|destruct (stringMethod_not_sane _ H1) as [m ->]; eexists; reflexivity].
    rewrite (stringMethod_textOf _ H1). cbn [bind].
    destruct (stringOrFalsy_dec sender) as [H2|H2];
      [|destruct (stringMethod_not_sane _ H2) as [m ->]; eexists; reflexivity].
    rewrite (stringMethod_textOf _ H2). cbn [bind].
    destruct (stringOrFalsy_dec body) as [H3|H3];
      [|destruct (stringMethod_not_sane _ H3) as [m ->]; eexists; reflexivity].
    exfalso. apply Hn. repeat split; assumption. }
  assert (Hdec :
    (stringOrFalsy subject /\ stringOrFalsy sender /\ stringOrFalsy body)
    \/ ~ (stringOrFalsy subject /\ stringOrFalsy sender /\ stringOrFalsy body)).
  { destruct (stringOrFalsy_dec subject); [|right; tauto].
    destruct (stringOrFalsy_dec sender); [|right; tauto].
    destruct (stringOrFalsy_dec body); [left|right]; tauto. }
  split; [split|].
  - intros [label Hl]. destruct Hdec as [H|H]; [exact H|].
    destruct (Hthrow H) as [m Hm]. congruence.
  - intros (H1 & H2 & H3).
    destruct (categorizeEmail_sane _ _ _ H1 H2 H3) as (label & Hl & _).
    exists label. exact Hl.
  - intros label Hl. destruct Hdec as [(H1 & H2 & H3)|H].
    + destruct (categorizeEmail_sane _ _ _ H1 H2 H3) as (l & Hl' & Hin).
      congruence.
    + destruct (Hthrow H) as [m Hm]. congruence.
Qed.

(** X13.  The category does not depend on the body: two bodies that are
    strings or falsy give the same result. *)
Theorem categorizeEmail_ignores_body :
  forall subject sender body1 body2,
    stringOrFalsy body1 -> stringOrFalsy body2 ->
    Utils.categorizeEmail subject sender body1
    = Utils.categorizeEmail subject sender body2.
Proof.
  intros subject sender b1 b2 H1 H2. unfold Utils.categorizeEmail.
  destruct (stringMethod (jsOr subject (VStr []))); [|reflexivity].
  cbn [bind].
  destruct (stringMethod (jsOr sender (VStr []))); [|reflexivity].
  cbn [bind].
  rewrite (stringMethod_textOf _ H1), (stringMethod_textOf _ H2).
  reflexivity.
Qed.

Lemma categorizeEmail_ignores_body_witness :
  stringOrFalsy (VStr (lit "verify your account now"))
  /\ stringOrFalsy VNull
  /\ Utils.categorizeEmail (VStr (lit "Lunch")) (VStr (lit "bob@x.org"))
       (VStr (lit "verify your account now"))
     = Utils.categorizeEmail (VStr (lit "Lunch")) (VStr (lit "bob@x.org"))
         VNull.
Proof.
  assert (H1 : stringOrFalsy (VStr (lit "verify your account now")))
    by (right; reflexivity).
  assert (H2 : stringOrFalsy VNull) by (left; reflexivity).
  split; [exact H1|]. split; [exact H2|].
  exact (categorizeEmail_ignores_body (VStr (lit "Lunch"))
           (VStr (lit "bob@x.org")) _ _ H1 H2).
Defined.

Lemma lowerChar_idem c : lowerChar (lowerChar c) = lowerChar c.
Proof. destruct c as [[] [] [] [] [] [] [] []]; reflexivity. Qed.

Lemma isDigit_lowerChar c : isDigit (lowerChar c) = isDigit c.
Proof. destruct c as [[] [] [] [] [] [] [] []]; reflexivity. Qed.

Lemma rep_match_digits_lower lo hi greedy s :
  forall n prev prev',
    rep_match (fun _ _ => Some []) isDigit lo hi greedy n prev (toLowerCase s)
    = rep_match (fun _ _ => Some []) isDigit lo hi greedy n prev' s.
Proof.
  induction s as [|c s IH]; intros n prev prev'; [reflexivity|].
  cbn [toLowerCase map rep_match]. fold (toLowerCase s).
  rewrite isDigit_lowerChar, (IH (S n) (Some (lowerChar c)) (Some c)).
  reflexivity.
Qed.

Lemma search_sixDigits_lower s :
  forall off prev prev',
    search_from Utils.re_sixDigits off prev (toLowerCase s)
    = search_from Utils.re_sixDigits off prev' s.
Proof.
  induction s as [|c s IH]; intros off prev prev'.
  - reflexivity.
  - change (toLowerCase (c :: s)) with (lowerChar c :: toLowerCase s).
    cbn [search_from].
    rewrite (IH (S off) (Some (lowerChar c)) (Some c)).
    change (lowerChar c :: toLowerCase s) with (toLowerCase (c :: s)).
    change (match_here Utils.re_sixDigits)
      with (fun p t => rep_match (fun _ _ => Some []) isDigit 6 (Some 6) true
                         0 p t).
    cbv beta.
    rewrite (rep_match_digits_lower 6 (Some 6) true (c :: s) 0 prev prev').
    reflexivity.
Qed.

Lemma test_sixDigits_lower s :
  test Utils.re_sixDigits (toLowerCase s) = test Utils.re_sixDigits s.
Proof.
  unfold test, search. rewrite (search_sixDigits_lower s 0 None None).
  reflexivity.
Qed.

Lemma toLowerCase_idem s : toLowerCase (toLowerCase s) = toLowerCase s.
Proof.
  unfold toLowerCase. rewrite map_map. apply map_ext. apply lowerChar_idem.
Qed.

(** X14.  The category does not depend on the letter case of subject
    and sender: subjects and senders with the same lower-case form give the
    same result. *)
Theorem categorizeEmail_case_insensitive :
  forall subject1 subject2 sender1 sender2 body,
    toLowerCase subject1 = toLowerCase subject2 ->
    toLowerCase sender1 = toLowerCase sender2 ->
    stringOrFalsy body ->
    Utils.categorizeEmail (VStr subject1) (VStr sender1) body
    = Utils.categorizeEmail (VStr subject2) (VStr sender2) body.
Proof.
  intros s1 s2 e1 e2 body Hs He Hb.
  assert (Hsane : forall e, stringOrFalsy (VStr e)) by (right; reflexivity).
  rewrite !categorizeEmail_firstMatch by auto.
  unfold categoryRules.
  replace (textOf (VStr e1)) with e1 by (destruct e1; reflexivity).
  replace (textOf (VStr e2)) with e2 by (destruct e2; reflexivity).
  rewrite <- (test_sixDigits_lower s1), <- (test_sixDigits_lower s2).
  rewrite Hs, He. reflexivity.
Qed.

Lemma categorizeEmail_case_insensitive_witness :
  toLowerCase (lit "NEW Deal") = toLowerCase (lit "new deal")
  /\ toLowerCase (lit "Shop@X.com") = toLowerCase (lit "shop@x.COM")
  /\ stringOrFalsy VUndef
  /\ Utils.categorizeEmail (VStr (lit "NEW Deal")) (VStr (lit "Shop@X.com"))
       VUndef
     = Utils.categorizeEmail (VStr (lit "new deal"))
         (VStr (lit "shop@x.COM")) VUndef.
Proof.
  assert (Hb : stringOrFalsy VUndef) by (left; reflexivity).
  split; [reflexivity|]. split; [reflexivity|]. split; [exact Hb|].
  exact (categorizeEmail_case_insensitive (lit "NEW Deal") (lit "new deal")
           (lit "Shop@X.com") (lit "shop@x.COM") VUndef eq_refl eq_refl Hb).
Defined.

Lemma search_from_app r s :
  (forall prev, match_here r prev s <> None) ->
  forall a off prev, search_from r off prev (a ++ s) <> None.
Proof.
  intros H a. induction a as [|c a IH]; intros off prev.
  - cbn [app]. specialize (H prev).
    destruct s; cbn [search_from]; destruct (match_here r prev _);
      [discriminate|congruence|discriminate|congruence].
  - cbn [app search_from].
    destruct (match_here r prev (c :: a ++ s)); [discriminate|apply IH].
Qed.

Lemma match_sixDigits prev d b :
  length d = 6 -> forallb isDigit d = true ->
  match_here Utils.re_sixDigits prev (d ++ b) <> None.
Proof.
  intros Hl Hd.
  destruct d as [|d1 [|d2 [|d3 [|d4 [|d5 [|d6 [|d7 d]]]]]]]; try discriminate.
  cbn [forallb] in Hd.
  repeat (apply andb_true_iff in Hd; let H := fresh "Hd" in destruct Hd as [H Hd]).
  unfold Utils.re_sixDigits.
  cbn [match_here atom_match app rep_match below Nat.ltb Nat.leb].
  rewrite Hd0, Hd1, Hd2, Hd3, Hd4, Hd5. cbn [andb orElse].
  destruct b as [|c b]; cbn [rep_match below Nat.ltb Nat.leb option_map orElse];
    [discriminate|].
  rewrite andb_false_r. discriminate.
Qed.

(** X15.  A subject that holds six digits in a row is a security
    subject, whatever else it holds and whoever the sender is. *)
Theorem categorizeEmail_six_digits :
  forall a d b sender body,
    length d = 6 -> forallb isDigit d = true ->
    stringOrFalsy sender -> stringOrFalsy body ->
    Utils.categorizeEmail (VStr (a ++ d ++ b)) sender body
    = Ok (lit "security").
Proof.
  intros a d b sender body Hl Hd Hs Hb.
  rewrite categorizeEmail_firstMatch by assumption.
  unfold categoryRules. cbn [firstMatch].
  assert (Ht : test Utils.re_sixDigits (a ++ d ++ b) = true).
  { unfold test, search.
    pose proof (search_from_app Utils.re_sixDigits (d ++ b)
                  (fun prev => match_sixDigits prev d b Hl Hd) a 0 None) as H.
    destruct (search_from Utils.re_sixDigits 0 None (a ++ d ++ b));
      [reflexivity|congruence]. }
  rewrite Ht, orb_true_r. reflexivity.
Qed.

Lemma categorizeEmail_six_digits_witness :
  length (lit "202401") = 6 /\ forallb isDigit (lit "202401") = true
  /\ stringOrFalsy (VStr (lit "news@shop.com")) /\ stringOrFalsy VNull
  /\ Utils.categorizeEmail
       (VStr (lit "New deals for " ++ lit "202401" ++ lit "15"))
       (VStr (lit "news@shop.com")) VNull
     = Ok (lit "security").
Proof.
  assert (Hs : stringOrFalsy (VStr (lit "news@shop.com")))
    by (right; reflexivity).
  assert (Hb : stringOrFalsy VNull) by (left; reflexivity).
  split; [reflexivity|]. split; [reflexivity|]. split; [exact Hs|].
  split; [exact Hb|].
  exact (categorizeEmail_six_digits (lit "New deals for ") (lit "202401")
           (lit "15") _ _ eq_refl eq_refl Hs Hb).
Defined.

(** ** Lists of results *)

Lemma mapM_ok {A B} (f : A -> result B) l :
  forall ys, mapM f l = Ok ys -> Forall2 (fun x y => f x = Ok y) l ys.
Proof.
  induction l as [|x l IH]; intros ys H.
  - injection H as <-. constructor.
  - cbn [mapM bind] in H. destruct (f x) as [y|m] eqn:E; [|discriminate].
    destruct (mapM f l) as [zs|m]; [|discriminate].
    injection H as <-. constructor; [exact E|apply IH; reflexivity].
Qed.

Lemma mapM_all {A B} (f : A -> result B) l :
  Forall (fun x => exists y, f x = Ok y) l -> exists ys, mapM f l = Ok ys.
Proof.
  induction 1 as [|x l [y Hy] _ [ys IH]].
  - exists []. reflexivity.
  - exists (y :: ys). cbn [mapM bind]. rewrite Hy, IH. reflexivity.
Qed.

Lemma filterM_ok {A} (f : A -> result bool) l :
  forall ys, filterM f l = Ok ys -> Forall (fun y => f y = Ok true) ys.
Proof.
  induction l as [|x l IH]; intros ys H.
  - injection H as <-. constructor.
  - cbn [filterM bind] in H. destruct (f x) as [b|m] eqn:E; [|discriminate].
    destruct (filterM f l) as [zs|m]; [|discriminate].
    injection H as <-. specialize (IH zs eq_refl).
    destruct b; [constructor; assumption|exact IH].
Qed.

Lemma Forall2_left {A B} (R : A -> B -> Prop) (P : A -> Prop) l ys :
  Forall2 R l ys -> (forall x y, R x y -> P x) -> Forall P l.
Proof.
  intros H HP. induction H as [|x y l ys Hxy _ IH]; constructor;
    [apply (HP x y Hxy)|exact IH].
Qed.

Lemma Forall2_right {A B} (R : A -> B -> Prop) (P : B -> Prop) l ys :
  Forall2 R l ys -> (forall x y, R x y -> P y) -> Forall P ys.
Proof.
  intros H HP. induction H as [|x y l ys Hxy _ IH]; constructor;
    [apply (HP x y Hxy)|exact IH].
Qed.

Lemma rethrow_ok {A} prefix (r : result A) a :
  rethrow prefix r = Ok a <-> r = Ok a.
Proof. destruct r; cbn [rethrow]; split; congruence. Qed.

(** ** Listing emails *)

Lemma processEmail_inv o n :
  Service.processEmail o = Ok n ->
  exists s,
    plainTextOf o = VStr s
    /\ Service.wordCount n
       = Z.of_nat (length (filter nonEmptyWord (split (ch " ") s)))
    /\ Service.estimatedReadTime n
       = Z.max 1 (ceilDiv (Service.wordCount n) 200).
Proof.
  intro H. destruct (isString (plainTextOf o)) eqn:E.
  - destruct (plainTextOf o) as [| |b|z|s|l|o'] eqn:Ep; try discriminate.
    destruct (processEmail_string o s Ep) as (n' & Hn & _ & Hw & Ht & _).
    assert (n' = n) by congruence. subst n'.
    exists s. repeat split; assumption.
  - destruct (processEmail_not_string o E) as [m Hm]. congruence.
Qed.

Lemma processEmail_sane_iff o :
  (exists n, Service.processEmail o = Ok n) <-> plainBodySane o.
Proof.
  split.
  - intros [n Hn]. destruct (processEmail_inv o n Hn) as (s & Hs & _).
    unfold plainTextOf, jsOr in Hs. unfold plainBodySane.
    destruct (truthy (get o (lit "body_plain"))); [|left; reflexivity].
    right. rewrite Hs. reflexivity.
  - intro H. destruct (plainTextOf_sane o H) as [s Hs].
    destruct (processEmail_string o s Hs) as (n & Hn & _). exists n. exact Hn.
Qed.

Lemma processEmail_empty : exists n, Service.processEmail [] = Ok n.
Proof. apply processEmail_sane_iff. left. reflexivity. Qed.

Lemma processEmail_processable e :
  (exists n, Client.processEmail e = Ok n) <-> processable e.
Proof.
  destruct processEmail_empty as [n0 H0].
  destruct e as [| |b|z|s|l|o]; cbn [Client.processEmail processable].
  - split; [intros [n H]; discriminate|tauto].
  - split; [intros [n H]; discriminate|tauto].
  - split; [tauto|]. intros _. exists n0. exact H0.
  - split; [tauto|]. intros _. exists n0. exact H0.
  - split; [tauto|]. intros _. rewrite H0. eexists. reflexivity.
  - split; [tauto|]. intros _. rewrite H0. eexists. reflexivity.
  - apply processEmail_sane_iff.
Qed.

Lemma selectEmails_items data items :
  prop data (lit "items") = VArr items ->
  Client.selectEmails data
  = Some (items,
          jsOr (prop data (lit "total")) (arrayLength items),
          jsOr (prop data (lit "has_more")) (VBool false)).
Proof.
  intro H. unfold Client.selectEmails. rewrite H.
  destruct data; try discriminate. reflexivity.
Qed.

(** X16.  When the answer holds its emails under [items],
    [getAllEmails] returns exactly when every item can be processed; then
    it returns the processed items one for one and in order, with the total
    of the answer or else the number of items; when it throws, the message
    starts with [Failed to fetch emails: ]. *)
Theorem getAllEmails_all_or_nothing :
  forall options data items,
    prop data (lit "items") = VArr items ->
    ((exists page, Client.getAllEmails options data = Ok page)
     <-> Forall processable items)
    /\ (forall page,
          Client.getAllEmails options data = Ok page ->
          Forall2 (fun e n => Client.processEmail e = Ok n) items
            (Client.EmailPage.emails page)
          /\ Client.EmailPage.total page
             = jsOr (prop data (lit "total")) (arrayLength items))
    /\ (forall msg,
          Client.getAllEmails options data = Throw msg ->
          exists m, msg = lit "Failed to fetch emails: " ++ m).
Proof.
  intros options data items Hi.
  unfold Client.getAllEmails. rewrite (selectEmails_items data items Hi).
  split; [split|split].
  - intros [page Hp]. apply rethrow_ok in Hp.
    destruct (mapM Client.processEmail items) as [ns|m] eqn:E; [|discriminate].
    apply mapM_ok in E.
    apply (Forall2_left _ _ _ _ E).
    intros e n He. apply processEmail_processable. exists n. exact He.
  - intro H.
    destruct (mapM_all Client.processEmail items) as [ns Hns].
    + apply Forall_forall. intros e He. apply processEmail_processable.
      apply (proj1 (Forall_forall _ _) H e He).
    + rewrite Hns. eexists. reflexivity.
  - intros page Hp. apply rethrow_ok in Hp.
    destruct (mapM Client.processEmail items) as [ns|m] eqn:E; [|discriminate].
    cbn [bind] in Hp. injection Hp as <-. cbn.
    split; [apply mapM_ok; exact E|reflexivity].
  - intros msg Hm.
    destruct (mapM Client.processEmail items) as [ns|m]; [discriminate|].
    cbn [bind rethrow] in Hm. injection Hm as <-. exists m. reflexivity.
Qed.

Lemma getAllEmails_all_or_nothing_witness :
  prop (VObj [(lit "items", VArr [VObj []; VNull])]) (lit "items")
  = VArr [VObj []; VNull]
  /\ ((exists page,
         Client.getAllEmails []
           (VObj [(lit "items", VArr [VObj []; VNull])]) = Ok page)
      <-> Forall processable [VObj []; VNull]).
Proof.
  split; [reflexivity|].
  exact (proj1 (getAllEmails_all_or_nothing []
                  (VObj [(lit "items", VArr [VObj []; VNull])])
                  [VObj []; VNull] eq_refl)).
Defined.

Lemma get_In o k :
  get o k = VUndef \/ exists k', In (k', get o k) o.
Proof.
  induction o as [|[k' v] o IH]; [left; reflexivity|].
  cbn [get]. destruct (str_eqb k' k).
  - right. exists k'. left. reflexivity.
  - destruct IH as [IH|[k'' IH]]; [left; exact IH|].
    right. exists k''. right. exact IH.
Qed.

Lemma prop_not_array data k :
  (forall k' v, In (k', v) (entries data) -> isArray v = false) ->
  isArray (prop data k) = false.
Proof.
  intro H. destruct data as [| |b|z|s|l|o]; try reflexivity.
  cbn [prop entries] in *.
  destruct (get_In o k) as [E|[k' E]]; [rewrite E; reflexivity|].
  apply (H k'). exact E.
Qed.

Lemma firstArray_none es :
  (forall k v, In (k, v) es -> isArray v = false) -> Client.firstArray es = None.
Proof.
  induction es as [|[k v] es IH]; intro H; [reflexivity|].
  assert (Hv : isArray v = false) by (apply (H k); left; reflexivity).
  cbn [Client.firstArray]. destruct v; try discriminate;
    apply IH; intros k' v' Hin; apply (H k'); right; exact Hin.
Qed.

(** X17.  For an answer that is not an array and has no array among its
    entries, [getAllEmails] returns the empty page with the limit and offset
    of the request. *)
Theorem getAllEmails_no_array :
  forall options data,
    isArray data = false ->
    (forall k v, In (k, v) (entries data) -> isArray v = false) ->
    Client.getAllEmails options data = Ok (emptyPage options).
Proof.
  intros options data Ha He.
  unfold Client.getAllEmails, Client.selectEmails.
  rewrite (prop_not_array data (lit "items") He).
  rewrite (prop_not_array data (lit "data") He).
  rewrite Ha, !andb_false_r.
  rewrite firstArray_none; [reflexivity|].
  unfold jsOr. destruct (truthy data); [exact He|].
  intros k v [].
Qed.

Lemma getAllEmails_no_array_witness :
  isArray (VObj [(lit "error", VStr (lit "quota"))]) = false
  /\ (forall k v,
        In (k, v) (entries (VObj [(lit "error", VStr (lit "quota"))])) ->
        isArray v = false)
  /\ Client.getAllEmails [(lit "limit", VNum 10)]
       (VObj [(lit "error", VStr (lit "quota"))])
     = Ok (emptyPage [(lit "limit", VNum 10)]).
Proof.
  assert (He : forall k v,
        In (k, v) (entries (VObj [(lit "error", VStr (lit "quota"))])) ->
        isArray v = false).
  { intros k v [H|[]]. injection H as _ <-. reflexivity. }
  split; [reflexivity|]. split; [exact He|].
  exact (getAllEmails_no_array [(lit "limit", VNum 10)]
           (VObj [(lit "error", VStr (lit "quota"))]) eq_refl He).
Defined.

(** ** The summary of a page *)

Lemma processEmail_bounds o n :
  Service.processEmail o = Ok n ->
  (0 <= Service.wordCount n /\ 1 <= Service.estimatedReadTime n)%Z.
Proof.
  intro H. destruct (processEmail_inv o n H) as (s & _ & Hw & Ht).
  rewrite Ht, Hw. lia.
Qed.

Lemma client_processEmail_bounds e n :
  Client.processEmail e = Ok n ->
  (0 <= Service.wordCount n /\ 1 <= Service.estimatedReadTime n)%Z.
Proof.
  destruct e as [| |b|z|s|l|o]; cbn [Client.processEmail]; intro H;
    try discriminate; try (apply (processEmail_bounds _ _ H)).
  - destruct (Service.processEmail []) as [n0|] eqn:E; [|discriminate].
    cbn [bind] in H. injection H as <-.
    apply (processEmail_bounds _ _ E).
  - destruct (Service.processEmail []) as [n0|] eqn:E; [|discriminate].
    cbn [bind] in H. injection H as <-.
    apply (processEmail_bounds _ _ E).
Qed.

Lemma sum_readTime l :
  Forall (fun n => (1 <= Service.estimatedReadTime n)%Z) l ->
  forall acc,
    (acc + Z.of_nat (length l)
     <= fold_left (fun sum e => sum + Service.estimatedReadTime e) l acc)%Z.
Proof.
  induction 1 as [|n l Hn _ IH]; intro acc.
  - cbn. lia.
  - cbn [fold_left length]. specialize (IH (acc + Service.estimatedReadTime n)%Z).
    lia.
Qed.

Lemma sum_wordCount l :
  Forall (fun n => (0 <= Service.wordCount n)%Z) l ->
  forall acc,
    (acc <= fold_left (fun sum e => sum + Service.wordCount e) l acc)%Z.
Proof.
  induction 1 as [|n l Hn _ IH]; intro acc.
  - cbn. lia.
  - cbn [fold_left]. specialize (IH (acc + Service.wordCount n)%Z). lia.
Qed.

Lemma ceilDiv_lower sum n : (0 < n -> n <= sum -> 1 <= ceilDiv sum n)%Z.
Proof.
  intros Hn Hs. unfold ceilDiv.
  pose proof (Z.div_mod (- sum) n ltac:(lia)) as Hd.
  pose proof (Z.mod_pos_bound (- sum) n Hn) as Hm.
  nia.
Qed.

(** X18.  In the summary of a page that [getAllEmails] returned, the
    number of unread emails lies between 0 and the total, the total word
    count is not negative, and the average read time is 0 for an empty page
    and at least 1 otherwise. *)
Theorem summary_of_page :
  forall options data page,
    Client.getAllEmails options data = Ok page ->
    let emails := Client.EmailPage.emails page in
    let s := Server.summary emails in
    (0 <= Server.unread s <= Server.total s)%Z
    /\ (0 <= Server.totalWordCount s)%Z
    /\ (emails = [] -> Server.averageReadTime s = 0%Z)
    /\ (emails <> [] -> (1 <= Server.averageReadTime s)%Z).
Proof.
  intros options data page Hp emails s.
  assert (Hb : Forall (fun n => (0 <= Service.wordCount n
                                 /\ 1 <= Service.estimatedReadTime n)%Z) emails).
  { unfold emails. unfold Client.getAllEmails in Hp. apply rethrow_ok in Hp.
    destruct (Client.selectEmails data) as [[[es t] h]|].
    - destruct (mapM Client.processEmail es) as [ns|] eqn:E; [|discriminate].
      cbn [bind] in Hp. injection Hp as <-. cbn [Client.EmailPage.emails].
      apply (Forall2_right _ _ _ _ (mapM_ok _ _ _ E)).
      intros e n He. apply (client_processEmail_bounds e n He).
    - injection Hp as <-. constructor. }
  unfold s, Server.summary.
  cbn [Server.unread Server.total Server.totalWordCount Server.averageReadTime].
  split; [|split; [|split]].
  - pose proof (length_filter_le (fun e => negb (Service.isRead e)) emails). lia.
  - apply (sum_wordCount emails).
    apply (Forall_impl _ (fun n H => proj1 H) Hb).
  - intros ->. reflexivity.
  - intro Hne. destruct emails as [|n l] eqn:El; [congruence|].
    apply ceilDiv_lower; [cbn [length]; lia|].
    pose proof (sum_readTime (n :: l)
                  (Forall_impl _ (fun n H => proj2 H) Hb) 0%Z). lia.
Qed.

Lemma summary_of_page_witness :
  Client.getAllEmails []
    (VArr [VObj [(lit "body_plain", VStr (lit "hello world"))]; VObj []])
  = Ok
      match
        Client.getAllEmails []
          (VArr [VObj [(lit "body_plain", VStr (lit "hello world"))]; VObj []])
      with
      | Ok page => page
      | Throw _ => emptyPage []
      end
  /\ (1 <= Server.averageReadTime
             (Server.summary
                (Client.EmailPage.emails
                   match
                     Client.getAllEmails []
                       (VArr [VObj [(lit "body_plain",
                                     VStr (lit "hello world"))]; VObj []])
                   with
                   | Ok page => page
                   | Throw _ => emptyPage []
                   end)))%Z.
Proof.
  assert (H : Client.getAllEmails []
    (VArr [VObj [(lit "body_plain", VStr (lit "hello world"))]; VObj []])
  = Ok
      match
        Client.getAllEmails []
          (VArr [VObj [(lit "body_plain", VStr (lit "hello world"))]; VObj []])
      with
      | Ok page => page
      | Throw _ => emptyPage []
      end) by reflexivity.
  split; [exact H|].
  apply (proj2 (proj2 (proj2 (summary_of_page _ _ _ H)))).
  discriminate.
Defined.

(** ** Reply subjects *)

Lemma replySubject_string s :
  exists r,
    Server.replySubject (VStr s) = Ok r
    /\ Server.startsWith r (lit "Re: ") = true
    /\ Server.replySubject (VStr r) = Ok r
    /\ (r = s \/ r = lit "Re: " ++ s).
Proof.
  unfold Server.replySubject. cbn [stringMethod bind].
  destruct (Server.startsWith s (lit "Re: ")) eqn:E.
  - exists s. rewrite E. repeat split; try reflexivity. left. reflexivity.
  - exists (lit "Re: " ++ s).
    assert (H : Server.startsWith (lit "Re: " ++ s) (lit "Re: ") = true)
      by reflexivity.
    rewrite H. repeat split; try reflexivity. right. reflexivity.
Qed.

Lemma getEmailById_subject o n :
  Client.getEmailById (VObj o) = Ok n ->
  Service.subject n = jsOr (get o (lit "subject")) (VStr (lit "No Subject")).
Proof.
  intro H. unfold Client.getEmailById in H. apply rethrow_ok in H.
  cbn [Client.processEmail] in H.
  destruct (processEmail_inv o n H) as (s & Hs & _).
  destruct (processEmail_fields o s Hs) as (n' & Hn & _ & _ & _ & _ & _ & Hj).
  assert (n' = n) by congruence. subst n'. exact Hj.
Qed.

(** X19.  For a fetched email whose [body_plain] and [subject] are each
    absent, falsy or a string, the reply subject is computed, starts with
    [Re: ], is left as it is when a reply is replied to, and is
    [Re: No Subject] when the email has no subject. *)
Theorem replySubject_of_fetched_email :
  forall o,
    plainBodySane o ->
    stringOrFalsy (get o (lit "subject")) ->
    exists n r,
      Client.getEmailById (VObj o) = Ok n
      /\ Server.replySubject (Service.subject n) = Ok r
      /\ Server.startsWith r (lit "Re: ") = true
      /\ Server.replySubject (VStr r) = Ok r
      /\ (truthy (get o (lit "subject")) = false ->
          r = lit "Re: No Subject").
Proof.
  intros o Ho Hs.
  destruct (proj2 (processEmail_sane_iff o) Ho) as [n Hn].
  assert (Hg : Client.getEmailById (VObj o) = Ok n).
  { unfold Client.getEmailById. cbn [Client.processEmail]. rewrite Hn.
    reflexivity. }
  exists n. rewrite (getEmailById_subject o n Hg). unfold jsOr.
  destruct (truthy (get o (lit "subject"))) eqn:Et.
  - destruct Hs as [Hs|Hs]; [congruence|].
    destruct (get o (lit "subject")) as [| |b|z|s|l|o']; try discriminate.
    destruct (replySubject_string s) as (r & H1 & H2 & H3 & _).
    exists r. split; [exact Hg|]. split; [exact H1|].
    split; [exact H2|]. split; [exact H3|]. intro F. congruence.
  - exists (lit "Re: No Subject"). split; [exact Hg|]. repeat split.
Qed.

Lemma replySubject_of_fetched_email_witness :
  plainBodySane
    [(lit "subject", VStr (lit "Lunch"));
     (lit "body_plain", VStr (lit "See you at noon"))]
  /\ stringOrFalsy
       (get [(lit "subject", VStr (lit "Lunch"));
             (lit "body_plain", VStr (lit "See you at noon"))]
          (lit "subject"))
  /\ exists n r,
       Client.getEmailById
         (VObj [(lit "subject", VStr (lit "Lunch"));
                (lit "body_plain", VStr (lit "See you at noon"))]) = Ok n
       /\ Server.replySubject (Service.subject n) = Ok r
       /\ Server.startsWith r (lit "Re: ") = true
       /\ Server.replySubject (VStr r) = Ok r
       /\ (truthy
             (get [(lit "subject", VStr (lit "Lunch"));
                   (lit "body_plain", VStr (lit "See you at noon"))]
                (lit "subject")) = false ->
           r = lit "Re: No Subject").
Proof.
  assert (H1 : plainBodySane
    [(lit "subject", VStr (lit "Lunch"));
     (lit "body_plain", VStr (lit "See you at noon"))])
    by (right; reflexivity).
  assert (H2 : stringOrFalsy
       (get [(lit "subject", VStr (lit "Lunch"));
             (lit "body_plain", VStr (lit "See you at noon"))]
          (lit "subject"))) by (right; reflexivity).
  split; [exact H1|]. split; [exact H2|].
  exact (replySubject_of_fetched_email _ H1 H2).
Defined.

(** ** Recipients *)

Lemma formatRecipient_ok r :
  r <> VNull -> exists f, Client.formatRecipient r = Ok f.
Proof.
  intro H. unfold Client.formatRecipient.
  destruct r; try (eexists; reflexivity). congruence.
Qed.

Lemma formatRecipient_null :
  Client.formatRecipient VNull = Throw TypeError_nullish.
Proof. reflexivity. Qed.

Lemma mapM_throw {A B} (f : A -> result B) l x m :
  In x l -> f x = Throw m -> exists m', mapM f l = Throw m'.
Proof.
  intros Hin Hx. induction l as [|y l IH]; [destruct Hin|].
  cbn [mapM bind]. destruct (f y) as [b|m'] eqn:E; [|eexists; reflexivity].
  destruct Hin as [->|Hin]; [congruence|].
  destruct (IH Hin) as [m' ->]. eexists. reflexivity.
Qed.

Lemma mapM_length {A B} (f : A -> result B) l ys :
  mapM f l = Ok ys -> length ys = length l.
Proof.
  intro H. apply mapM_ok in H.
  induction H; cbn [length]; congruence.
Qed.

(** X20.  [formatRecipients] of an array returns exactly when no
    element is [null], and then returns one recipient per element. *)
Theorem formatRecipients_array :
  forall l,
    ((exists r, Client.formatRecipients (VArr l) = Ok r) <-> ~ In VNull l)
    /\ (forall r,
          Client.formatRecipients (VArr l) = Ok r -> length r = length l).
Proof.
  intro l. cbn [Client.formatRecipients isString]. split; [split|].
  - intros [r Hr] Hin.
    destruct (mapM_throw Client.formatRecipient l VNull _ Hin
                formatRecipient_null) as [m Hm]. congruence.
  - intro Hn. apply mapM_all. apply Forall_forall. intros x Hx.
    apply formatRecipient_ok. intros ->. apply Hn. exact Hx.
  - intros r Hr. apply (mapM_length _ _ _ Hr).
Qed.

Lemma formatRecipient_shape r f :
  Client.formatRecipient r = Ok f -> formatted f.
Proof.
  unfold Client.formatRecipient, formatted. intro Hf.
  destruct (isString r).
  - injection Hf as <-. eexists _, _. split; [reflexivity|right; reflexivity].
  - destruct (isObject r).
    + destruct r; try discriminate; injection Hf as <-;
        eexists _, _; (split; [reflexivity|]); unfold jsOr;
        repeat match goal with
               | |- context [if truthy ?x then _ else _] =>
                   destruct (truthy x) eqn:?
               end; auto.
    + injection Hf as <-. eexists _, _.
      split; [reflexivity|right; reflexivity].
Qed.

Lemma formatRecipients_shape v r :
  Client.formatRecipients v = Ok r -> Forall formatted r.
Proof.
  assert (H1 : forall x, Forall formatted [Client.recipientObject x (VStr [])]).
  { intro x. constructor; [|constructor]. exists x, (VStr []).
    split; [reflexivity|right; reflexivity]. }
  unfold Client.formatRecipients. intro H.
  destruct (isString v); [injection H as <-; apply H1|].
  destruct v; try (injection H as <-; apply H1).
  apply mapM_ok in H.
  apply (Forall2_right _ _ _ _ H). intros x y Hxy.
  apply (formatRecipient_shape x y Hxy).
Qed.

Lemma formatted_read_back f :
  formatted f ->
  truthy (prop f (lit "identifier")) = true ->
  Service.extractSender f = readBack f.
Proof.
  intros (i & d & -> & Hd) Ht. unfold readBack.
  assert (Pe : prop (Client.recipientObject i d) (lit "email") = VUndef)
    by reflexivity.
  assert (Pi : prop (Client.recipientObject i d) (lit "identifier") = i)
    by reflexivity.
  assert (Pn : prop (Client.recipientObject i d) (lit "name") = VUndef)
    by reflexivity.
  assert (Pd : prop (Client.recipientObject i d) (lit "display_name") = d)
    by reflexivity.
  assert (Px : prop (Client.recipientObject i d) (lit "displayName") = VUndef)
    by reflexivity.
  assert (Pp : prop (Client.recipientObject i d) (lit "personal") = VUndef)
    by reflexivity.
  assert (Pf : prop (Client.recipientObject i d) (lit "full_name") = VUndef)
    by reflexivity.
  assert (Pg : prop (Client.recipientObject i d) (lit "fullName") = VUndef)
    by reflexivity.
  rewrite Pi in Ht. unfold Service.extractSender.
  rewrite Pe, Pi, Pn, Pd, Px, Pp, Pf, Pg.
  change (isObject (Client.recipientObject i d)) with true.
  change (truthy (Client.recipientObject i d)) with true.
  cbn [negb andb orb]. unfold jsOr. cbn [truthy]. rewrite Ht.
  destruct Hd as [Hd| ->]; [rewrite Hd|]; reflexivity.
Qed.

(** X21.  What [formatRecipients] returns, [extractRecipients] reads
    back: as long as every identifier is truthy, each formatted recipient
    gives the identity of its [identifier] and [display_name]. *)
Theorem formatRecipients_read_back :
  forall recipients r,
    Client.formatRecipients recipients = Ok r ->
    Forall (fun f => truthy (prop f (lit "identifier")) = true) r ->
    Service.extractRecipients (VArr r) = map readBack r.
Proof.
  intros recipients r Hr Ht. apply formatRecipients_shape in Hr.
  cbn [Service.extractRecipients].
  induction Hr as [|f r Hf _ IH]; [reflexivity|].
  cbn [map]. inversion Ht as [|? ? Hi Ht']; subst.
  rewrite (formatted_read_back f Hf Hi), (IH Ht'). reflexivity.
Qed.

Lemma formatRecipients_read_back_witness :
  Client.formatRecipients
    (VArr [VStr (lit "ann@example.com");
           VObj [(lit "email", VStr (lit "john@example.com"));
                 (lit "name", VStr (lit "John Doe"))]])
  = Ok [Client.recipientObject (VStr (lit "ann@example.com")) (VStr []);
        Client.recipientObject (VStr (lit "john@example.com"))
          (VStr (lit "John Doe"))]
  /\ Forall (fun f => truthy (prop f (lit "identifier")) = true)
       [Client.recipientObject (VStr (lit "ann@example.com")) (VStr []);
        Client.recipientObject (VStr (lit "john@example.com"))
          (VStr (lit "John Doe"))]
  /\ Service.extractRecipients
       (VArr [Client.recipientObject (VStr (lit "ann@example.com"))
                (VStr []);
              Client.recipientObject (VStr (lit "john@example.com"))
                (VStr (lit "John Doe"))])
     = map readBack
         [Client.recipientObject (VStr (lit "ann@example.com")) (VStr []);
          Client.recipientObject (VStr (lit "john@example.com"))
            (VStr (lit "John Doe"))].
Proof.
  assert (H1 : Client.formatRecipients
    (VArr [VStr (lit "ann@example.com");
           VObj [(lit "email", VStr (lit "john@example.com"));
                 (lit "name", VStr (lit "John Doe"))]])
  = Ok [Client.recipientObject (VStr (lit "ann@example.com")) (VStr []);
        Client.recipientObject (VStr (lit "john@example.com"))
          (VStr (lit "John Doe"))]) by reflexivity.
  assert (H2 : Forall (fun f => truthy (prop f (lit "identifier")) = true)
       [Client.recipientObject (VStr (lit "ann@example.com")) (VStr []);
        Client.recipientObject (VStr (lit "john@example.com"))
          (VStr (lit "John Doe"))])
    by (repeat constructor).
  split; [exact H1|]. split; [exact H2|].
  exact (formatRecipients_read_back _ _ H1 H2).
Defined.

Lemma spreadRecipients_keys key v data d :
  Client.spreadRecipients key v data = Ok d ->
  d = data \/ exists r, d = data ++ [(lit key, VArr r)].
Proof.
  unfold Client.spreadRecipients. destruct (truthy v).
  - destruct (Client.formatRecipients v) as [r|]; [|discriminate].
    cbn [bind]. intro H. injection H as <-. right. exists r. reflexivity.
  - intro H. injection H as <-. left. reflexivity.
Qed.

(** X22.  The email that [sendEmail] posts starts with the fields
    [account_id], [to], [subject] and [body], holds the account, subject and
    body it was given, and besides those at most [cc], [bcc] and [reply_to]:
    no other option reaches it. *)
Theorem emailData_keys :
  forall accountId to subject body options d,
    Client.emailData accountId to subject body options = Ok d ->
    firstn 4 (keys d)
    = [lit "account_id"; lit "to"; lit "subject"; lit "body"]
    /\ incl (keys d) emailDataKeys
    /\ get d (lit "account_id") = accountId
    /\ get d (lit "subject") = subject
    /\ get d (lit "body") = body.
Proof.
  intros accountId to subject body options d H.
  unfold Client.emailData in H. apply rethrow_ok in H.
  destruct (Client.formatRecipients to) as [toList|]; [|discriminate].
  cbn [bind] in H.
  destruct (Client.spreadRecipients "cc" _ _) as [d1|] eqn:E1; [|discriminate].
  cbn [bind] in H.
  destruct (Client.spreadRecipients "bcc" _ _) as [d2|] eqn:E2; [|discriminate].
  cbn [bind] in H.
  apply spreadRecipients_keys in E1, E2, H.
  unfold emailDataKeys, incl.
  destruct E1 as [->|[r1 ->]], E2 as [->|[r2 ->]], H as [->|[r3 ->]];
    cbn [app keys map fst firstn get str_eqb lit list_ascii_of_string
         ascii_eqb Ascii.eqb Bool.eqb andb];
    (repeat split; try reflexivity; intros k Hk; cbn [In] in *; tauto).
Qed.

Lemma emailData_keys_witness :
  Client.emailData (VStr (lit "acc")) (VStr (lit "a@b.co"))
    (VStr (lit "Hi")) (VStr (lit "text"))
    [(lit "isHtml", VBool true); (lit "inReplyTo", VStr (lit "m1"))]
  = Ok [(lit "account_id", VStr (lit "acc"));
        (lit "to", VArr [Client.recipientObject (VStr (lit "a@b.co"))
                           (VStr [])]);
        (lit "subject", VStr (lit "Hi")); (lit "body", VStr (lit "text"))]
  /\ incl
       (keys [(lit "account_id", VStr (lit "acc"));
              (lit "to", VArr [Client.recipientObject (VStr (lit "a@b.co"))
                                 (VStr [])]);
              (lit "subject", VStr (lit "Hi"));
              (lit "body", VStr (lit "text"))])
       emailDataKeys.
Proof.
  split; [reflexivity|].
  exact (proj1 (proj2 (emailData_keys
                         (VStr (lit "acc")) (VStr (lit "a@b.co"))
                         (VStr (lit "Hi")) (VStr (lit "text"))
                         [(lit "isHtml", VBool true);
                          (lit "inReplyTo", VStr (lit "m1"))] _ eq_refl))).
Defined.

(** ** Accounts *)

Lemma isEmailAccount_true now a :
  Client.isEmailAccount a = Ok true -> listedAccount (Client.accountEntry now a).
Proof.
  unfold Client.isEmailAccount, Client.providerOf. intro H.
  assert (Hp : exists p,
            prop a (lit "provider") = VStr p
            /\ existsb (str_eqb (toLowerCase p)) Client.emailProviders = true).
  { destruct a; try discriminate;
      destruct (prop _ (lit "provider")) as [| |b|z|p|l|o'];
      try discriminate; exists p; split; try reflexivity;
      cbn [bind] in H; congruence. }
  destruct Hp as (p & Hp & Hin).
  unfold listedAccount, Client.accountEntry.
  cbn [Client.AccountPage.provider Client.AccountPage.name
       Client.AccountPage.status].
  split; [|split].
  - exists p. split; [exact Hp|].
    apply existsb_exists in Hin. destruct Hin as (x & Hx & E).
    apply str_eqb_eq in E. subst x. exact Hx.
  - unfold jsOr.
    repeat match goal with
           | |- context [if truthy ?x then _ else _] =>
               destruct (truthy x) eqn:?
           end; auto.
  - unfold jsOr.
    repeat match goal with
           | |- context [if truthy ?x then _ else _] =>
               destruct (truthy x) eqn:?
           end; auto.
Qed.

(** X23.  When [getEmailAccounts] returns, its total is the number of
    accounts it lists, and every listed account has a provider that is, in
    lower case, one of the seven email providers, a truthy name and a
    truthy status. *)
Theorem getEmailAccounts_lists_email_providers :
  forall now data page,
    Client.getEmailAccounts now data = Ok page ->
    Client.AccountPage.total page
    = VNum (Z.of_nat (length (Client.AccountPage.accounts page)))
    /\ Forall listedAccount (Client.AccountPage.accounts page).
Proof.
  intros now data page H. unfold Client.getEmailAccounts in H.
  apply rethrow_ok in H.
  destruct (Client.selectAccounts data) as [accounts|].
  - destruct (filterM Client.isEmailAccount accounts) as [ys|] eqn:E;
      [|discriminate].
    cbn [bind] in H. injection H as <-.
    cbn [Client.AccountPage.total Client.AccountPage.accounts].
    split; [unfold arrayLength; rewrite length_map; reflexivity|].
    apply filterM_ok in E. apply Forall_map.
    apply (Forall_impl _ (fun a Ha => isEmailAccount_true now a Ha) E).
  - injection H as <-. split; [reflexivity|constructor].
Qed.

Lemma getEmailAccounts_lists_email_providers_witness :
  Client.getEmailAccounts (lit "2024-01-01T00:00:00.000Z")
    (VArr [VObj [(lit "provider", VStr (lit "LINKEDIN"))];
           VObj [(lit "provider", VStr (lit "Gmail"))]])
  = Ok
      {| Client.AccountPage.success := true;
         Client.AccountPage.accounts :=
           [Client.accountEntry (lit "2024-01-01T00:00:00.000Z")
              (VObj [(lit "provider", VStr (lit "Gmail"))])];
         Client.AccountPage.total := VNum 1 |}
  /\ Forall listedAccount
       [Client.accountEntry (lit "2024-01-01T00:00:00.000Z")
          (VObj [(lit "provider", VStr (lit "Gmail"))])].
Proof.
  split; [reflexivity|].
  exact (proj2 (getEmailAccounts_lists_email_providers
                  (lit "2024-01-01T00:00:00.000Z")
                  (VArr [VObj [(lit "provider", VStr (lit "LINKEDIN"))];
                         VObj [(lit "provider", VStr (lit "Gmail"))]])
                  _ eq_refl)).
Defined.
